(** * The two custom-resource Lambda functions of single-account.yaml

    The CloudFormation template
    [cloudformation/emr_servicecatalog_templates/single-account.yaml]
    embeds two inline Python programs:

    - [CleanUpBucketonDeleteLambda] ([empty_bucket], [lambda_handler],
      [sendResponse]): empties the stack's bucket when the stack is deleted;
    - [CopyZipsFunction] ([copy_objects], [delete_objects], [timeout],
      [handler]): copies the bootstrap scripts into the stack's bucket and
      removes them again on deletion.

    Both are embedded here as computations in a state-and-exception monad
    over a model of the object store.  The last part of the development
    embeds the two pieces of plain Python of the notebook
    [workshop/03_TimeSeries/00_forecasting_with_deepAR.ipynb]
    ([client_encoder] and [prep_deep_ar]); what is modelled of pandas is
    said where they are defined.  Every request sent to the store, every
    timer operation, every logged exception and every response PUT to
    CloudFormation is appended to a chronological trace, so that claims
    about what a handler does (and in which order) are claims about that
    trace.

    What is modelled of the environment, and what is not:
    - an event always carries its envelope ([RequestType], [StackId],
      [RequestId], [LogicalResourceId], [ResponseURL]); its
      [ResourceProperties] is a dictionary in which any key may be missing
      and whose values are strings or lists of strings;
    - the object store is deterministic: a request fails only for a missing
      bucket, a missing source object or a batch removal without any key,
      never for throttling, permissions, request-size limits or network
      reasons, and nobody else writes to it during an invocation; a PUT to
      the callback address that is sent arrives;
    - a bucket keeps every revision of every key (versions and delete
      markers, with the null version id for objects written without
      versioning), newest first;
    - a listing is cut into pages of [max_keys] entries; the continuation
      of a listing resumes after the last entry already returned, so the
      pages a paginator yields are the consecutive slices of the listing as
      it stood at the first request;
    - time is logical: the moments at which the timer of the copier fires
      and at which the runtime ends an invocation are given by a schedule
      ([Schedule], [possible], [observed]), counted in effects of the main
      path; the callback of the timer runs beside the main path;
    - names of buckets and keys are well formed: the validation of their
      syntax by the SDK (which refuses an empty key, for one, before any
      request) is not modelled;
    - debugging output ([print] of the event, of pages and of keys) is left
      out; only the exceptions that the handlers log are recorded. *)

From stdpp Require Import gmap strings list sorting.

Open Scope string_scope.
Open Scope list_scope.

(** ** Python values and exceptions *)

(** A resource property as CloudFormation passes it: a string or a list of
    strings. *)
Inductive PropValue : Type :=
| PStr (s : string)
| PList (l : list string).

Inductive Exn : Type :=
| KeyError (key : string)
| NameError (name : string)
| TypeError
| ParamValidationError
| ClientError (code : string).

(** The name of the class of an exception; all of them derive from
    [Exception]. *)
Definition exn_class (e : Exn) : string :=
  match e with
  | KeyError _ => "KeyError"
  | NameError _ => "NameError"
  | TypeError => "TypeError"
  | ParamValidationError => "ParamValidationError"
  | ClientError _ => "ClientError"
  end.

Definition isinstance (e : Exn) (cls : string) : bool :=
  String.eqb cls "Exception" || String.eqb cls (exn_class e).

Definition builtins : list string :=
  ["Exception"; "KeyError"; "NameError"; "TypeError"].

(** ** The lifecycle event and the invocation context *)

Record Event : Type := {
  RequestType : string;
  ResourceProperties : gmap string PropValue;
  StackId : string;
  RequestId : string;
  LogicalResourceId : string;
  ResponseURL : string
}.

Record Context : Type := {
  log_stream_name : string;
  remaining_time_in_millis : Z
}.

(** The JSON body PUT to the callback address. *)
Record Response : Type := {
  rsp_url : string;
  rsp_Status : string;
  rsp_Reason : string;
  rsp_PhysicalResourceId : string;
  rsp_StackId : string;
  rsp_RequestId : string;
  rsp_LogicalResourceId : string
}.

(** ** The object store *)

Inductive VersionId : Type :=
| NullVersion
| Vid (n : nat).

Inductive Versioning : Type :=
| Unversioned
| Enabled
| Suspended.

Inductive Payload : Type :=
| Data (body : string)
| DeleteMarker.

Record Revision : Type := {
  rkey : string;
  rvid : VersionId;
  rpayload : Payload
}.

(** A bucket: its versioning status and its revisions in listing order, the
    newest revision of a key before the older ones. *)
Record Bucket : Type := {
  versioning : Versioning;
  revisions : list Revision;
  next_vid : nat
}.

#[global] Instance VersionId_eq_dec : EqDecision VersionId.
Proof. solve_decision. Defined.
#[global] Instance Versioning_eq_dec : EqDecision Versioning.
Proof. solve_decision. Defined.
#[global] Instance Payload_eq_dec : EqDecision Payload.
Proof. solve_decision. Defined.
#[global] Instance Revision_eq_dec : EqDecision Revision.
Proof. solve_decision. Defined.
#[global] Instance PropValue_eq_dec : EqDecision PropValue.
Proof. solve_decision. Defined.

(** The value of the [Status] entry of a versioning configuration; a bucket
    that never had versioning has no such entry. *)
Definition versioning_status (v : Versioning) : option string :=
  match v with
  | Unversioned => None
  | Enabled => Some "Enabled"
  | Suspended => Some "Suspended"
  end.

Definition is_marker (r : Revision) : bool :=
  match rpayload r with DeleteMarker => true | Data _ => false end.

Definition ident (r : Revision) : string * VersionId := (rkey r, rvid r).

(** Permanent removal of the revision [(k, v)]. *)
Definition drop_revision (k : string) (v : VersionId) (rs : list Revision)
  : list Revision :=
  filter (λ r, ident r ≠ (k, v)) rs.

(** A write without a version id: a fresh revision in a bucket with
    versioning enabled, a replacement of the null revision otherwise. *)
Definition write_revision (k : string) (p : Payload) (bk : Bucket) : Bucket :=
  match versioning bk with
  | Enabled =>
      {| versioning := Enabled;
         revisions := {| rkey := k; rvid := Vid (next_vid bk); rpayload := p |}
                        :: revisions bk;
         next_vid := S (next_vid bk) |}
  | v =>
      {| versioning := v;
         revisions := {| rkey := k; rvid := NullVersion; rpayload := p |}
                        :: drop_revision k NullVersion (revisions bk);
         next_vid := next_vid bk |}
  end.

(** Removal of a key without a version id: the object goes away in a bucket
    that never had versioning; a delete marker is written otherwise. *)
Definition remove_key (k : string) (bk : Bucket) : Bucket :=
  match versioning bk with
  | Unversioned =>
      {| versioning := Unversioned;
         revisions := drop_revision k NullVersion (revisions bk);
         next_vid := next_vid bk |}
  | _ => write_revision k DeleteMarker bk
  end.

(** Removal of one revision by key and version id. *)
Definition remove_revision (k : string) (v : VersionId) (bk : Bucket) : Bucket :=
  {| versioning := versioning bk;
     revisions := drop_revision k v (revisions bk);
     next_vid := next_vid bk |}.

Definition set_versioning (v : Versioning) (bk : Bucket) : Bucket :=
  {| versioning := v; revisions := revisions bk; next_vid := next_vid bk |}.

(** The current object at a key: the body of its newest revision, unless
    that is a delete marker. *)
Definition newest (k : string) (rs : list Revision) : option Revision :=
  head (filter (λ r, rkey r = k) rs).

Definition current_object (k : string) (rs : list Revision) : option string :=
  match newest k rs with
  | Some r => match rpayload r with Data body => Some body | DeleteMarker => None end
  | None => None
  end.

(** The keys of the current objects, in listing order. *)
Definition current_keys (rs : list Revision) : list string :=
  filter (λ k, is_Some (current_object k rs)) (remove_dups (rkey <$> rs)).

(** ** Pagination *)

Fixpoint slices {A} (fuel n : nat) (l : list A) : list (list A) :=
  match l with
  | [] => []
  | _ :: _ =>
      match fuel with
      | 0 => [l]
      | S fuel' => take (S n) l :: slices fuel' n (drop (S n) l)
      end
  end.

(** The pages of a listing with at most [max_keys] entries each (at least
    one entry per page); an empty listing still has one, empty, page. *)
Definition paginate {A} (max_keys : nat) (l : list A) : list (list A) :=
  match slices (length l) (pred max_keys) l with
  | [] => [[]]
  | ps => ps
  end.

Definition nonempty {A} (l : list A) : option (list A) :=
  match l with [] => None | _ => Some l end.

Record VersionsPage : Type := {
  DeleteMarkers : option (list (string * VersionId));
  Versions : option (list (string * VersionId))
}.

Definition versions_page (rs : list Revision) : VersionsPage :=
  {| DeleteMarkers := nonempty (ident <$> filter (λ r, is_marker r = true) rs);
     Versions := nonempty (ident <$> filter (λ r, is_marker r = false) rs) |}.

Record ObjectsPage : Type := {
  Contents : option (list string)
}.

Definition objects_page (ks : list string) : ObjectsPage :=
  {| Contents := nonempty ks |}.

(** ** Effects and the world *)

Inductive Effect : Type :=
| BucketLoad (b : PropValue)
| GetBucketVersioning (b : string)
| PutBucketVersioning (b : string) (v : Versioning)
| ListObjectVersions (b : string)
| ListObjectsV2 (b : string)
| DeleteObject (b key : string) (vid : option VersionId)
| CopyObject (src_bucket src_key dst_bucket dst_key : string)
| DeleteObjects (b : string) (keys : list string)
| TimerStart (delay_ms : Z) (event : Event) (context : Context)
| TimerCancel
| HttpPut (r : Response)
| LogError (e : Exn).

Record World : Type := MkWorld {
  s3 : gmap string Bucket;
  trace : list Effect;
  (** page size of the listings (1000 in the service) *)
  max_keys : nat;
  (** whether [Bucket.load] of the SDK raises [ClientError] for a bucket it
      does not find (older releases do, newer ones return silently) *)
  load_raises : bool
}.

Definition with_s3 (f : gmap string Bucket → gmap string Bucket) (w : World) : World :=
  MkWorld (f (s3 w)) (trace w) (max_keys w) (load_raises w).

Definition with_trace (f : list Effect → list Effect) (w : World) : World :=
  MkWorld (s3 w) (f (trace w)) (max_keys w) (load_raises w).

(** ** The monad: state, with exceptions that keep the state *)

Definition M (A : Type) : Type := World → (Exn + A) * World.

Definition ret {A} (a : A) : M A := λ w, (inr a, w).

Definition raise {A} (e : Exn) : M A := λ w, (inl e, w).

Definition bind {A B} (m : M A) (k : A → M B) : M B :=
  λ w, match m w with
       | (inr a, w') => k a w'
       | (inl e, w') => (inl e, w')
       end.

Declare Scope py_scope.
Delimit Scope py_scope with py.
Notation "'do' x <- m ; k" := (bind m (λ x, k))
  (at level 10, x name, m at level 100, k at level 200) : py_scope.
Notation "'do_' m ; k" := (bind m (λ _, k))
  (at level 10, m at level 100, k at level 200) : py_scope.
Open Scope py_scope.

Definition emit (e : Effect) : M unit :=
  λ w, (inr tt, with_trace (λ t, t ++ [e]) w).

Definition get_s3 : M (gmap string Bucket) := λ w, (inr (s3 w), w).

Definition get_max_keys : M nat := λ w, (inr (max_keys w), w).

Definition get_load_raises : M bool := λ w, (inr (load_raises w), w).

Definition modify_s3 (f : gmap string Bucket → gmap string Bucket) : M unit :=
  λ w, (inr tt, with_s3 f w).

(** [try: body / except cls: handler], in a module whose global names are
    [globals].  The class name is looked up only when an exception reaches
    the clause; an unbound name raises [NameError] in its place. *)
Definition try_except {A} (globals : list string) (body : M A) (cls : string)
    (handler : Exn → M A) : M A :=
  λ w, match body w with
       | (inr a, w') => (inr a, w')
       | (inl e, w') =>
           if bool_decide (cls ∈ globals ++ builtins) then
             if isinstance e cls then handler e w' else (inl e, w')
           else (inl (NameError cls), w')
       end.

(** [for x in l: body x] *)
Fixpoint for_each {A} (l : list A) (body : A → M unit) : M unit :=
  match l with
  | [] => ret tt
  | x :: l' => do_ body x; for_each l' body
  end.

(** [d[k]] on a dictionary *)
Definition subscript (d : gmap string PropValue) (k : string) : M PropValue :=
  match d !! k with
  | Some v => ret v
  | None => raise (KeyError k)
  end.

(** A string here is the UTF-8 encoding of the Python [str] it stands for;
    a character of the [str] (a code point) is a leading byte together
    with the continuation bytes, of the form [10xxxxxx], that follow
    it. *)
Definition is_continuation (c : Ascii.ascii) : bool :=
  match c with
  | Ascii.Ascii _ _ _ _ _ _ false true => true
  | _ => false
  end.

Definition continues (s : string) : bool :=
  match s with
  | String c _ => is_continuation c
  | EmptyString => false
  end.

(** The characters of a string, each as a string of length one in
    Python's count. *)
Fixpoint code_points (s : string) : list string :=
  match s with
  | EmptyString => []
  | String c s' =>
      match code_points s' with
      | p :: ps =>
          if continues p then String c p :: ps
          else String c EmptyString :: p :: ps
      | [] => [String c EmptyString]
      end
  end.

(** Iteration over a value: the elements of a list, the characters of a
    string. *)
Definition py_iter (v : PropValue) : list string :=
  match v with
  | PList l => l
  | PStr s => code_points s
  end.

(** [prefix + o] where [o] is a string *)
Definition py_add (prefix : PropValue) (o : string) : M string :=
  match prefix with
  | PStr p => ret (p +:+ o)
  | PList _ => raise TypeError
  end.

(** [[f x for x in l]] *)
Fixpoint list_comp {A B} (f : A → M B) (l : list A) : M (list B) :=
  match l with
  | [] => ret []
  | x :: l' => do y <- f x; do ys <- list_comp f l'; ret (y :: ys)
  end.

(** [try: body / finally: final], where [final] reads a local variable that
    [body] may have assigned: [final] runs on the value [body] returns, or
    on the initial value [init] when [body] raises, and the exception is
    raised again afterwards. *)
Definition try_finally {A} (init : A) (body : M A) (final : A → M unit) : M unit :=
  λ w, match body w with
       | (inr a, w') => final a w'
       | (inl e, w') =>
           match final init w' with
           | (inr _, w'') => (inl e, w'')
           | (inl e', w'') => (inl e', w'')
           end
       end.

(** ** The SDK: the calls of the S3 client that the programs use *)

(** A parameter that the SDK validates to be a string before it sends the
    request. *)
Definition param_str (v : PropValue) : M string :=
  match v with
  | PStr s => ret s
  | PList _ => raise ParamValidationError
  end.

Definition the_bucket (b : string) : M Bucket :=
  λ w, match s3 w !! b with
       | Some bk => (inr bk, w)
       | None => (inl (ClientError "NoSuchBucket"), w)
       end.

Definition bucket_found (name : PropValue) (store : gmap string Bucket) : bool :=
  match name with
  | PStr b => bool_decide (is_Some (store !! b))
  | PList _ => false
  end.

Module s3_resource.

(** [s3.Bucket(name).load()] *)
Definition Bucket_load (name : PropValue) : M unit :=
  do_ emit (BucketLoad name);
  do store <- get_s3;
  do strict <- get_load_raises;
  if bucket_found name store || negb strict then ret tt
  else raise (ClientError "404").

End s3_resource.

Module s3_client.

Definition get_bucket_versioning (Bucket : PropValue) : M (option string) :=
  do b <- param_str Bucket;
  do_ emit (GetBucketVersioning b);
  do bk <- the_bucket b;
  ret (versioning_status (versioning bk)).

Definition put_bucket_versioning (Bucket : PropValue) (Status : Versioning)
  : M unit :=
  do b <- param_str Bucket;
  do_ emit (PutBucketVersioning b Status);
  do bk <- the_bucket b;
  modify_s3 (<[b := set_versioning Status bk]>).

Definition delete_object (Bucket : PropValue) (Key : string)
    (VersionId : option VersionId) : M unit :=
  do b <- param_str Bucket;
  do_ emit (DeleteObject b Key VersionId);
  do bk <- the_bucket b;
  modify_s3 (<[b := match VersionId with
                    | Some v => remove_revision Key v bk
                    | None => remove_key Key bk
                    end]>).

Definition copy_object (CopySource_Bucket : PropValue) (CopySource_Key : string)
    (Bucket : PropValue) (Key : string) : M unit :=
  do sb <- param_str CopySource_Bucket;
  do db <- param_str Bucket;
  do_ emit (CopyObject sb CopySource_Key db Key);
  do src <- the_bucket sb;
  do dst <- the_bucket db;
  match current_object CopySource_Key (revisions src) with
  | None => raise (ClientError "NoSuchKey")
  | Some body => modify_s3 (<[db := write_revision Key (Data body) dst]>)
  end.

(** The batch removal of [Delete['Objects']], one key after the other.
    The store refuses a batch without any key ([MalformedXML]). *)
Definition delete_objects (Bucket : PropValue) (Keys : list string) : M unit :=
  do b <- param_str Bucket;
  do_ emit (DeleteObjects b Keys);
  do bk <- the_bucket b;
  match Keys with
  | [] => raise (ClientError "MalformedXML")
  | _ :: _ => modify_s3 (<[b := foldl (λ bk k, remove_key k bk) bk Keys]>)
  end.

(** [for page in get_paginator('list_object_versions').paginate(Bucket=..)]:
    one request per page. *)
Definition for_version_pages (Bucket : PropValue)
    (body : VersionsPage → M unit) : M unit :=
  do b <- param_str Bucket;
  do store <- get_s3;
  do page_size <- get_max_keys;
  match store !! b with
  | None => do_ emit (ListObjectVersions b); raise (ClientError "NoSuchBucket")
  | Some bk =>
      for_each (versions_page <$> paginate page_size (revisions bk))
        (λ page, do_ emit (ListObjectVersions b); body page)
  end.

(** [for page in get_paginator('list_objects_v2').paginate(Bucket=..)] *)
Definition for_object_pages (Bucket : PropValue)
    (body : ObjectsPage → M unit) : M unit :=
  do b <- param_str Bucket;
  do store <- get_s3;
  do page_size <- get_max_keys;
  match store !! b with
  | None => do_ emit (ListObjectsV2 b); raise (ClientError "NoSuchBucket")
  | Some bk =>
      for_each (objects_page <$> paginate page_size (current_keys (revisions bk)))
        (λ page, do_ emit (ListObjectsV2 b); body page)
  end.

End s3_client.

(** The module [cfnresponse] that the Lambda runtime provides to inline
    code: [send] PUTs the status to the callback address of the event. *)
Module cfnresponse.

Definition SUCCESS : string := "SUCCESS".
Definition FAILED : string := "FAILED".

Definition responseBody (event : Event) (context : Context)
    (responseStatus : string) : Response :=
  {| rsp_url := ResponseURL event;
     rsp_Status := responseStatus;
     rsp_Reason := "See the details in CloudWatch Log Stream: "
                     +:+ log_stream_name context;
     rsp_PhysicalResourceId := log_stream_name context;
     rsp_StackId := StackId event;
     rsp_RequestId := RequestId event;
     rsp_LogicalResourceId := LogicalResourceId event |}.

Definition send (event : Event) (context : Context) (responseStatus : string)
  : M unit :=
  emit (HttpPut (responseBody event context responseStatus)).

End cfnresponse.

(** ** CleanUpBucketonDeleteLambda *)

Module CleanUpBucketonDeleteLambda.

(** The names bound in the module: its three imports ([json], [boto3],
    [urllib3]) and its three functions. *)
Definition globals : list string :=
  ["json"; "boto3"; "urllib3"; "empty_bucket"; "lambda_handler"; "sendResponse"].

(** The loop over the entries of one page, which [empty_bucket] has twice:
    for the delete markers of the page and for its versions. *)
Definition delete_listed (bucket_name : PropValue)
    (entries : list (string * VersionId)) : M unit :=
  for_each entries
    (λ entry, s3_client.delete_object bucket_name entry.1 (Some entry.2)).

Definition empty_bucket (bucket_name : PropValue) : M unit :=
  do found <- try_except globals
                (do_ s3_resource.Bucket_load bucket_name; ret true)
                "ClientError"
                (λ _, ret false);
  if found then
    do version_status <- s3_client.get_bucket_versioning bucket_name;
    let status := default "" version_status in
    do_ (if String.eqb status "Enabled"
         then s3_client.put_bucket_versioning bucket_name Suspended
         else ret tt);
    do_ s3_client.for_version_pages bucket_name (λ page,
          do_ match DeleteMarkers page with
              | Some delete_markers => delete_listed bucket_name delete_markers
              | None => ret tt
              end;
          match Versions page with
          | Some versions => delete_listed bucket_name versions
          | None => ret tt
          end);
    s3_client.for_object_pages bucket_name (λ page,
      match Contents page with
      | Some contents =>
          for_each contents (λ key, s3_client.delete_object bucket_name key None)
      | None => ret tt
      end)
  else ret tt.

Definition response_body (event : Event) (context : Context) (status : string)
  : Response :=
  {| rsp_url := ResponseURL event;
     rsp_Status := status;
     rsp_Reason := "Log stream name: " +:+ log_stream_name context;
     rsp_PhysicalResourceId := log_stream_name context;
     rsp_StackId := StackId event;
     rsp_RequestId := RequestId event;
     rsp_LogicalResourceId := LogicalResourceId event |}.

Definition sendResponse (event : Event) (context : Context) (status : string)
  : M unit :=
  emit (HttpPut (response_body event context status)).

(** The first two statements of the [try] suite of [lambda_handler]. *)
Definition drain (event : Event) : M unit :=
  do bucket <- subscript (ResourceProperties event) "inputBucketName";
  if String.eqb (RequestType event) "Delete"
  then empty_bucket bucket
  else ret tt.

Definition lambda_handler (event : Event) (context : Context) : M unit :=
  try_except globals
    (do_ drain event;
     sendResponse event context "SUCCESS")
    "Exception"
    (λ e, do_ emit (LogError e); sendResponse event context "FAILED").

End CleanUpBucketonDeleteLambda.

(** ** CopyZipsFunction *)

Module CopyZipsFunction.

Definition globals : list string :=
  ["json"; "logging"; "threading"; "boto3"; "cfnresponse";
   "copy_objects"; "delete_objects"; "timeout"; "handler"].

Definition copy_objects (source_bucket dest_bucket prefix objects : PropValue)
  : M unit :=
  for_each (py_iter objects) (λ o,
    do key <- py_add prefix o;
    s3_client.copy_object source_bucket key dest_bucket key).

Definition delete_objects (bucket prefix objects : PropValue) : M unit :=
  do keys <- list_comp (py_add prefix) (py_iter objects);
  s3_client.delete_objects bucket keys.


(** The [try] suite of [handler]. *)
Definition transfer (event : Event) : M unit :=
  do source_bucket <- subscript (ResourceProperties event) "SourceBucket";
  do dest_bucket <- subscript (ResourceProperties event) "DestBucket";
  do prefix <- subscript (ResourceProperties event) "Prefix";
  do objects <- subscript (ResourceProperties event) "Objects";
  if String.eqb (RequestType event) "Delete"
  then delete_objects dest_bucket prefix objects
  else copy_objects source_bucket dest_bucket prefix objects.

(** The local variable [status] is [SUCCESS] unless the [except] clause
    assigns [FAILED]; the [finally] clause cancels the timer and sends
    it. *)
Definition handler (event : Event) (context : Context) : M unit :=
  do_ emit (TimerStart (remaining_time_in_millis context - 500) event context);
  try_finally cfnresponse.SUCCESS
    (try_except globals
       (do_ transfer event; ret cfnresponse.SUCCESS)
       "Exception"
       (λ e, do_ emit (LogError e); ret cfnresponse.FAILED))
    (λ status, do_ emit TimerCancel; cfnresponse.send event context status).

End CopyZipsFunction.

(** ** Reading a trace *)

(** A fresh invocation: the world with an empty trace. *)
Definition fresh (store : gmap string Bucket) (page : nat) (strict : bool) : World :=
  MkWorld store [] page strict.

Definition is_request (e : Effect) : bool :=
  match e with
  | TimerStart _ _ _ | TimerCancel | HttpPut _ | LogError _ => false
  | _ => true
  end.

(** The requests sent to the object store, in order. *)
Definition requests (t : list Effect) : list Effect :=
  filter (λ e, is_request e = true) t.

Definition is_deletion (e : Effect) : bool :=
  match e with
  | DeleteObject _ _ _ | DeleteObjects _ _ => true
  | _ => false
  end.

(** The removal requests sent to the object store, in order. *)
Definition deletions (t : list Effect) : list Effect :=
  filter (λ e, is_deletion e = true) t.

Definition response_of (e : Effect) : option Response :=
  match e with HttpPut r => Some r | _ => None end.

(** The responses sent to the callback address, in order. *)
Definition responses (t : list Effect) : list Response :=
  omap response_of t.

Definition statuses (t : list Effect) : list string :=
  rsp_Status <$> responses t.

Definition logged_of (e : Effect) : option Exn :=
  match e with LogError x => Some x | _ => None end.

(** The exceptions that the handlers have logged, in order. *)
Definition logged (t : list Effect) : list Exn := omap logged_of t.

(** Effects that neither touch a timer nor answer CloudFormation. *)
Definition is_silent (e : Effect) : bool :=
  match e with
  | TimerStart _ _ _ | TimerCancel | HttpPut _ => false
  | _ => true
  end.

(** ** The custom resources of the template *)

(** The two custom resource types of the template and the function that
    the [ServiceToken] of each names. *)
Inductive ResourceType : Type :=
| Custom_CopyZips
| Custom_emptybucket.

Definition ServiceToken (r : ResourceType) : Event → Context → M unit :=
  match r with
  | Custom_CopyZips => CopyZipsFunction.handler
  | Custom_emptybucket => CleanUpBucketonDeleteLambda.lambda_handler
  end.

(** The properties each function reads from the event before it does
    anything else. *)
Definition required_properties (r : ResourceType) : list string :=
  match r with
  | Custom_CopyZips => ["SourceBucket"; "DestBucket"; "Prefix"; "Objects"]
  | Custom_emptybucket => ["inputBucketName"]
  end.

(** The resource properties of [CopyZips]. *)
Record TransferRequest : Type := {
  source : string;
  destination : string;
  key_prefix : string;
  names : list string
}.

Definition carries (event : Event) (q : TransferRequest) : Prop :=
  ResourceProperties event !! "SourceBucket" = Some (PStr (source q)) ∧
  ResourceProperties event !! "DestBucket" = Some (PStr (destination q)) ∧
  ResourceProperties event !! "Prefix" = Some (PStr (key_prefix q)) ∧
  ResourceProperties event !! "Objects" = Some (PList (names q)).

(** The keys [prefix + name] of a transfer, in the order of its names. *)
Definition keys_of (q : TransferRequest) : list string :=
  (λ o, key_prefix q +:+ o) <$> names q.

(** The resource property of [CleanUpBucketonDelete]. *)
Definition names_bucket (event : Event) (b : string) : Prop :=
  ResourceProperties event !! "inputBucketName" = Some (PStr b).

Inductive Kind : Type :=
| Create
| Update
| Delete.

Definition kind_name (k : Kind) : string :=
  match k with
  | Create => "Create"
  | Update => "Update"
  | Delete => "Delete"
  end.

(** The routing in the words of the specification: [Create] and [Update]
    take the copy path of the copier and nothing for the drainer; [Delete]
    takes the delete-by-name path of the copier or the full-empty path of
    the drainer, by the type of the resource. *)
Definition spec_route (r : ResourceType) (k : Kind) (q : TransferRequest)
    (b : string) : M unit :=
  match r, k with
  | Custom_CopyZips, Delete =>
      CopyZipsFunction.delete_objects
        (PStr (destination q)) (PStr (key_prefix q)) (PList (names q))
  | Custom_CopyZips, _ =>
      CopyZipsFunction.copy_objects
        (PStr (source q)) (PStr (destination q)) (PStr (key_prefix q))
        (PList (names q))
  | Custom_emptybucket, Delete =>
      CleanUpBucketonDeleteLambda.empty_bucket (PStr b)
  | Custom_emptybucket, _ => ret tt
  end.

(** ** The requests and the result of a drain *)

(** The removal of the listed revisions, one after the other. *)
Definition remove_all (entries : list (string * VersionId)) (bk : Bucket) : Bucket :=
  foldl (λ bk entry, remove_revision entry.1 entry.2 bk) bk entries.

(** The entries of one page of the version listing, in the order in which
    [empty_bucket] removes them. *)
Definition page_entries (page : list Revision) : list (string * VersionId) :=
  (ident <$> filter (λ r, is_marker r = true) page)
    ++ (ident <$> filter (λ r, is_marker r = false) page).

Definition delete_version (b : string) (entry : string * VersionId) : Effect :=
  DeleteObject b entry.1 (Some entry.2).

(** One page of the version listing: the listing request, the removals of
    its delete markers, then the removals of its versions. *)
Definition page_requests (b : string) (page : list Revision) : list Effect :=
  ListObjectVersions b
    :: (delete_version b <$> (ident <$> filter (λ r, is_marker r = true) page))
    ++ (delete_version b <$> (ident <$> filter (λ r, is_marker r = false) page)).

Definition drain_requests (b : string) (page_size : nat) (bk : Bucket)
  : list Effect :=
  [BucketLoad (PStr b); GetBucketVersioning b]
    ++ (match versioning bk with
        | Enabled => [PutBucketVersioning b Suspended]
        | _ => []
        end)
    ++ concat (page_requests b <$> paginate page_size (revisions bk))
    ++ [ListObjectsV2 b].

(** The bucket once drained. *)
Definition drained (bk : Bucket) : Bucket :=
  {| versioning := match versioning bk with Enabled => Suspended | v => v end;
     revisions := [];
     next_vid := next_vid bk |}.

(** ** The requests and the result of a transfer *)

Definition copy_request (q : TransferRequest) (o : string) : Effect :=
  CopyObject (source q) (key_prefix q +:+ o) (destination q) (key_prefix q +:+ o).

(** What one [copy_object] from [(sb, k)] to [(db, k)] does to a store. *)
Definition copy_result (sb db k : string) (st : gmap string Bucket)
  : Exn + gmap string Bucket :=
  match st !! sb, st !! db with
  | Some src, Some dst =>
      match current_object k (revisions src) with
      | Some body => inr (<[db := write_revision k (Data body) dst]> st)
      | None => inl (ClientError "NoSuchKey")
      end
  | _, _ => inl (ClientError "NoSuchBucket")
  end.

(** The removal of the listed keys, one after the other. *)
Definition remove_keys (ks : list string) (bk : Bucket) : Bucket :=
  foldl (λ bk k, remove_key k bk) bk ks.

(** A destination bucket that has grown out of [bk0] by copies to the keys
    [ks]: still never versioned, and its revisions are those of [bk0]
    preceded by null revisions at keys of [ks]. *)
Definition grown_from (ks : list string) (bk0 bk : Bucket) : Prop :=
  versioning bk = Unversioned ∧
  next_vid bk = next_vid bk0 ∧
  ∃ new, revisions bk = new ++ revisions bk0 ∧
         Forall (λ r, rkey r ∈ ks ∧ rvid r = NullVersion) new.

(** ** The end of a run

    What a handler adds to the trace once its storage work has returned or
    raised. *)

Definition logged_exception (r : Exn + unit) : list Effect :=
  match r with
  | inr _ => []
  | inl e => [LogError e]
  end.

Definition copier_status (r : Exn + unit) : string :=
  match r with
  | inr _ => cfnresponse.SUCCESS
  | inl _ => cfnresponse.FAILED
  end.

Definition copier_tail (event : Event) (context : Context) (r : Exn + unit)
  : list Effect :=
  logged_exception r
    ++ [TimerCancel; HttpPut (cfnresponse.responseBody event context (copier_status r))].

Definition drainer_status (r : Exn + unit) : string :=
  match r with
  | inr _ => "SUCCESS"
  | inl _ => "FAILED"
  end.

Definition drainer_tail (event : Event) (context : Context) (r : Exn + unit)
  : list Effect :=
  logged_exception r
    ++ [HttpPut (CleanUpBucketonDeleteLambda.response_body event context
                   (drainer_status r))].

(** ** The time budget and the timer thread

    The trace of a run lists the effects of the main path of an
    invocation when it runs to its end.  Two things happen besides it, at
    moments that the code does not choose:

    - [threading.Timer] waits in a thread of its own and, unless [cancel]
      comes first, fires: it runs [timeout] on the arguments it was given,
      while the main path goes on;
    - the runtime ends the invocation, both threads of it, when the time
      budget is used up.

    A schedule fixes these moments, each counted in effects that the main
    path has performed by then. *)







(** ** Computations that only talk to the object store

    A computation is [storage_only] when its result, the store it leaves
    and the effects it adds depend on the store and the configuration
    only, and all the effects it adds are requests to the object store: no
    timer operation, no log entry, no response to CloudFormation. *)
Definition storage_only {A} (m : M A) : Prop :=
  ∀ st mk lr, ∃ r st' d,
    Forall (λ e, is_request e = true) d ∧
    ∀ t, m (MkWorld st t mk lr) = (r, MkWorld st' (t ++ d) mk lr).

(** ** Sample inputs *)

Definition sample_context : Context :=
  {| log_stream_name := "2021/03/01/[$LATEST]abcdef";
     remaining_time_in_millis := 900000 |}.

Definition sample_event (kind : string) (props : gmap string PropValue) : Event :=
  {| RequestType := kind;
     ResourceProperties := props;
     StackId := "arn:aws:cloudformation:stack/emr";
     RequestId := "request-1";
     LogicalResourceId := "resource";
     ResponseURL := "https://cloudformation.example/callback" |}.

Definition object (k body : string) : Revision :=
  {| rkey := k; rvid := NullVersion; rpayload := Data body |}.

Definition plain_bucket (rs : list Revision) : Bucket :=
  {| versioning := Unversioned; revisions := rs; next_vid := 0 |}.

(** The two bootstrap scripts in the source bucket, and a destination bucket
    that holds something else. *)
Definition sample_store : gmap string Bucket :=
  {[ "src" := plain_bucket [object "artifacts/a.sh" "A"; object "artifacts/b.sh" "B"];
     "dst" := plain_bucket [object "readme.txt" "R"] ]}.

Definition sample_transfer : gmap string PropValue :=
  {[ "SourceBucket" := PStr "src";
     "DestBucket" := PStr "dst";
     "Prefix" := PStr "artifacts/";
     "Objects" := PList ["a.sh"; "b.sh"] ]}.

Definition sample_request : TransferRequest :=
  {| source := "src"; destination := "dst"; key_prefix := "artifacts/";
     names := ["a.sh"; "b.sh"] |}.

(** A store in which the destination already holds an object at one of the
    keys of the sample request. *)
Definition sample_store_taken : gmap string Bucket :=
  {[ "src" := plain_bucket [object "artifacts/a.sh" "A"; object "artifacts/b.sh" "B"];
     "dst" := plain_bucket [object "artifacts/a.sh" "OLD"] ]}.

(** A request with a name that the source does not hold. *)
Definition sample_transfer_missing : gmap string PropValue :=
  {[ "SourceBucket" := PStr "src";
     "DestBucket" := PStr "dst";
     "Prefix" := PStr "artifacts/";
     "Objects" := PList ["a.sh"; "c.sh"; "b.sh"] ]}.

Definition sample_request_missing : TransferRequest :=
  {| source := "src"; destination := "dst"; key_prefix := "artifacts/";
     names := ["a.sh"; "c.sh"; "b.sh"] |}.

(** A request whose source and destination are the same bucket. *)
Definition sample_alias : gmap string PropValue :=
  {[ "SourceBucket" := PStr "src";
     "DestBucket" := PStr "src";
     "Prefix" := PStr "artifacts/";
     "Objects" := PList ["a.sh"; "b.sh"] ]}.

Definition sample_drain : gmap string PropValue :=
  {[ "inputBucketName" := PStr "dst" ]}.

Definition sample_delete_drain : Event := sample_event "Delete" sample_drain.

(** A bucket with versioning enabled: a key under a delete marker, with an
    older version, and a key with one version. *)
Definition sample_versioned : Bucket :=
  {| versioning := Enabled;
     revisions := [ {| rkey := "a.sh"; rvid := Vid 2; rpayload := DeleteMarker |};
                    {| rkey := "a.sh"; rvid := Vid 1; rpayload := Data "old" |};
                    {| rkey := "b.sh"; rvid := Vid 0; rpayload := Data "B" |} ];
     next_vid := 3 |}.

Definition sample_versioned_store : gmap string Bucket :=
  {[ "dst" := sample_versioned ]}.

(** ** The result of a copy run *)

(** What [copy_objects] does to a store: the copies of the names one after
    the other, up to the first that fails. *)
Fixpoint copy_all (sb db p : string) (objs : list string)
    (st : gmap string Bucket) : (Exn + unit) * gmap string Bucket :=
  match objs with
  | [] => (inr tt, st)
  | o :: objs' =>
      match copy_result sb db (p +:+ o) st with
      | inr st' => copy_all sb db p objs' st'
      | inl e => (inl e, st)
      end
  end.

(** The names for which [copy_objects] sends a request: every name in its
    turn, up to and including the first whose copy fails. *)
Fixpoint attempted (sb db p : string) (objs : list string)
    (st : gmap string Bucket) : list string :=
  match objs with
  | [] => []
  | o :: objs' =>
      o :: match copy_result sb db (p +:+ o) st with
           | inr st' => attempted sb db p objs' st'
           | inl _ => []
           end
  end.

(** The bucket [src] holds a current object at [p + o] for every name
    [o]. *)
Definition all_present (p : string) (objs : list string) (src : Bucket) : Prop :=
  Forall (λ o, is_Some (current_object (p +:+ o) (revisions src))) objs.

(** The destination bucket after the copies out of another bucket [src]:
    one write per name, up to the first name that [src] does not hold. *)
Fixpoint written (src : Bucket) (p : string) (objs : list string) (dst : Bucket)
  : Bucket :=
  match objs with
  | [] => dst
  | o :: objs' =>
      match current_object (p +:+ o) (revisions src) with
      | Some body => written src p objs' (write_revision (p +:+ o) (Data body) dst)
      | None => dst
      end
  end.

(** The revisions of a bucket without versioning after the same writes. *)
Fixpoint written_plain (src : Bucket) (p : string) (objs : list string)
    (rs : list Revision) : list Revision :=
  match objs with
  | [] => rs
  | o :: objs' =>
      match current_object (p +:+ o) (revisions src) with
      | Some body =>
          written_plain src p objs'
            ({| rkey := p +:+ o; rvid := NullVersion; rpayload := Data body |}
               :: drop_revision (p +:+ o) NullVersion rs)
      | None => rs
      end
  end.

(** The keys that these writes reach. *)
Fixpoint written_keys (src : Bucket) (p : string) (objs : list string)
  : list string :=
  match objs with
  | [] => []
  | o :: objs' =>
      match current_object (p +:+ o) (revisions src) with
      | Some _ => (p +:+ o) :: written_keys src p objs'
      | None => []
      end
  end.

(** A bucket that never had versioning holds null revisions only. *)
Definition null_only (bk : Bucket) : Prop :=
  Forall (λ r, rvid r = NullVersion) (revisions bk).

(** A request with nothing to copy, from a bucket that does not exist. *)
Definition sample_transfer_empty : gmap string PropValue :=
  {[ "SourceBucket" := PStr "nowhere";
     "DestBucket" := PStr "dst";
     "Prefix" := PStr "artifacts/";
     "Objects" := PList [] ]}.

Definition sample_request_empty : TransferRequest :=
  {| source := "nowhere"; destination := "dst"; key_prefix := "artifacts/";
     names := [] |}.

(** A request whose [Objects] is one string. *)
Definition sample_transfer_string : gmap string PropValue :=
  {[ "SourceBucket" := PStr "src";
     "DestBucket" := PStr "dst";
     "Prefix" := PStr "artifacts/";
     "Objects" := PStr "a.sh" ]}.

(** A request whose [Prefix] is a list. *)
Definition sample_transfer_prefix_list : gmap string PropValue :=
  {[ "SourceBucket" := PStr "src";
     "DestBucket" := PStr "dst";
     "Prefix" := PList ["artifacts/"];
     "Objects" := PList ["a.sh"] ]}.

(** A request for a destination bucket that does not exist. *)
Definition sample_transfer_nowhere : gmap string PropValue :=
  {[ "SourceBucket" := PStr "src";
     "DestBucket" := PStr "nowhere";
     "Prefix" := PStr "artifacts/";
     "Objects" := PList ["a.sh"; "b.sh"] ]}.

Definition sample_request_nowhere : TransferRequest :=
  {| source := "src"; destination := "nowhere"; key_prefix := "artifacts/";
     names := ["a.sh"; "b.sh"] |}.

(** A store whose destination holds the two scripts and something else. *)
Definition sample_store_copied : gmap string Bucket :=
  {[ "src" := plain_bucket [object "artifacts/a.sh" "A"; object "artifacts/b.sh" "B"];
     "dst" := plain_bucket [object "artifacts/b.sh" "B"; object "artifacts/a.sh" "A";
                            object "readme.txt" "R"] ]}.

(** The buckets that a request names.  [Bucket.load()] asks for the list
    of the buckets of the account and looks the name up in the answer: its
    request names no bucket. *)
Definition targets (e : Effect) : list string :=
  match e with
  | BucketLoad _ => []
  | GetBucketVersioning b => [b]
  | PutBucketVersioning b _ => [b]
  | ListObjectVersions b => [b]
  | ListObjectsV2 b => [b]
  | DeleteObject b _ _ => [b]
  | CopyObject sb _ db _ => [sb; db]
  | DeleteObjects b _ => [b]
  | TimerStart _ _ _ | TimerCancel | HttpPut _ | LogError _ => []
  end.

(** * The notebook workshop/03_TimeSeries/00_forecasting_with_deepAR.ipynb

    The notebook prepares one time series per client for the DeepAR
    algorithm.  Two pieces of it are plain Python over data that Spark
    hands over: the integer encoding of the clients ([client_encoder]) and
    the function [prep_deep_ar], which Spark applies to the rows of each
    client as a grouped-map pandas UDF.

    What is modelled of pandas: a data frame is the list of its rows, each
    with its index label; the frame that a grouped-map UDF receives for a
    group holds the rows of the group in the order in which they arrive,
    labelled 0, 1, 2, ...; [sort_values] reorders the rows and every row
    keeps its label; [df.loc[label, column]] selects by label, not by
    position, and raises [KeyError] when no row has the label.  A date is
    a number of time units; the values are the readings, which
    [prep_deep_ar] only moves around, so their type is left open, and so
    is the rendering [str] of a date as a string. *)

Module forecasting_with_deepAR.

(** [dict(pairs)]: a later pair replaces an earlier pair with the same
    key. *)
Definition dict {V} (pairs : list (string * V)) : gmap string V :=
  foldl (λ d kv, <[kv.1 := kv.2]> d) ∅ pairs.

(** [client_encoder = dict(zip(client_list, range(len(client_list))))] *)
Definition client_encoder (client_list : list string) : gmap string nat :=
  dict (zip client_list (seq 0 (length client_list))).

Section prep.
Context {V : Type} (str : Z → string).

Record Reading : Type := {
  date : Z;
  client : string;
  value : V
}.

Definition DataFrame : Type := list (nat * Reading).

(** The frame that the UDF receives for the rows of a group. *)
Definition group_frame (rows : list Reading) : DataFrame :=
  zip (seq 0 (length rows)) rows.

Fixpoint insert_by_date (r : nat * Reading) (df : DataFrame) : DataFrame :=
  match df with
  | [] => [r]
  | x :: df' =>
      if bool_decide (date r.2 ≤ date x.2)%Z then r :: x :: df'
      else x :: insert_by_date r df'
  end.

(** [df.sort_values(by="date")] *)
Definition sort_values (df : DataFrame) : DataFrame :=
  foldr insert_by_date [] df.

(** [df.loc[0, column]], for the columns of one row *)
Definition loc_0 (df : DataFrame) : Exn + Reading :=
  match list_find (λ r, r.1 = 0) df with
  | Some (_, (_, row)) => inr row
  | None => inl (KeyError "0")
  end.

(** The one row of the frame that [prep_deep_ar] returns. *)
Record DeepAR : Type := {
  target : list V;
  cat : list nat;
  start : string
}.

(** The global [client_encoder] that the function reads is its first
    argument here. *)
Definition prep_deep_ar (client_encoder : gmap string nat) (df : DataFrame)
  : Exn + DeepAR :=
  let df := sort_values df in
  match loc_0 df with
  | inl e => inl e
  | inr row =>
      let client_name := client row in
      let targets := (λ r, value r.2) <$> df in
      match client_encoder !! client_name with
      | None => inl (KeyError client_name)
      | Some code =>
          match loc_0 df with
          | inl e => inl e
          | inr row' =>
              inr {| target := targets; cat := [code]; start := str (date row') |}
          end
      end
  end.

End prep.

End forecasting_with_deepAR.

(** Sample inputs of the notebook: two clients, a rendering of three hours,
    and the two readings of a client in the order in which they arrive,
    the later one first. *)
Definition sample_clients : list string := ["MT_001"; "MT_002"].

Definition sample_str (d : Z) : string :=
  match d with
  | 1%Z => "2014-01-01 01:00:00"
  | 2%Z => "2014-01-01 02:00:00"
  | _ => "2014-01-01 00:00:00"
  end.

Definition sample_first_reading : @forecasting_with_deepAR.Reading Z :=
  {| forecasting_with_deepAR.date := 2;
     forecasting_with_deepAR.client := "MT_002";
     forecasting_with_deepAR.value := 20%Z |}.

Definition sample_later_readings : list (@forecasting_with_deepAR.Reading Z) :=
  [ {| forecasting_with_deepAR.date := 1;
       forecasting_with_deepAR.client := "MT_002";
       forecasting_with_deepAR.value := 10%Z |} ].

(** Sample schedules.  The run of the sample [Create] has five effects
    (the start of the timer, two copies, the cancel, the response); the
    run of the sample drain has more than three. *)





(** * Properties *)

(** ** The monad *)

Lemma requests_all d :
  Forall (λ e, is_request e = true) d → requests d = d.
Proof.
  unfold requests. induction 1 as [|e d He _ IH]; [reflexivity|].
  rewrite filter_cons_True by exact He. by rewrite IH.
Qed.

Lemma requests_app t1 t2 : requests (t1 ++ t2) = requests t1 ++ requests t2.
Proof. apply filter_app. Qed.

Lemma responses_app t1 t2 : responses (t1 ++ t2) = responses t1 ++ responses t2.
Proof. apply omap_app. Qed.

Lemma logged_app t1 t2 : logged (t1 ++ t2) = logged t1 ++ logged t2.
Proof. apply omap_app. Qed.

Lemma request_silent d :
  Forall (λ e, is_request e = true) d → Forall (λ e, is_silent e = true) d.
Proof. intros H. eapply Forall_impl; [exact H|]. intros e. by destruct e. Qed.

Lemma responses_silent d :
  Forall (λ e, is_silent e = true) d → responses d = [].
Proof.
  induction 1 as [|e d He _ IH]; [reflexivity|].
  unfold responses in *. destruct e; simpl in *; try discriminate; exact IH.
Qed.


Lemma logged_requests d :
  Forall (λ e, is_request e = true) d → logged d = [].
Proof.
  induction 1 as [|e d He _ IH]; [reflexivity|].
  unfold logged in *. destruct e; simpl in *; try discriminate; exact IH.
Qed.

Lemma silent_logged_exception r :
  Forall (λ e, is_silent e = true) (logged_exception r).
Proof. destruct r; repeat constructor. Qed.

Lemma storage_only_ret {A} (a : A) : storage_only (ret a).
Proof.
  intros st mk lr. exists (inr a), st, []. split; [constructor|].
  intros t. by rewrite app_nil_r.
Qed.

Lemma storage_only_raise {A} (e : Exn) : storage_only (@raise A e).
Proof.
  intros st mk lr. exists (inl e), st, []. split; [constructor|].
  intros t. by rewrite app_nil_r.
Qed.

Lemma storage_only_bind {A B} (m : M A) (k : A → M B) :
  storage_only m → (∀ a, storage_only (k a)) → storage_only (bind m k).
Proof.
  intros Hm Hk st mk lr.
  destruct (Hm st mk lr) as (r & st1 & d1 & Hd1 & Hrun1).
  destruct r as [e|a].
  - exists (inl e), st1, d1. split; [exact Hd1|].
    intros t. unfold bind. by rewrite Hrun1.
  - destruct (Hk a st1 mk lr) as (r2 & st2 & d2 & Hd2 & Hrun2).
    exists r2, st2, (d1 ++ d2). split; [by apply Forall_app|].
    intros t. unfold bind. rewrite Hrun1, Hrun2. by rewrite app_assoc.
Qed.

Lemma storage_only_try_except {A} globals (body : M A) cls (handler : Exn → M A) :
  storage_only body → (∀ e, storage_only (handler e)) →
  storage_only (try_except globals body cls handler).
Proof.
  intros Hm Hk st mk lr.
  destruct (Hm st mk lr) as (r & st1 & d1 & Hd1 & Hrun1).
  destruct r as [e|a].
  - destruct (bool_decide (cls ∈ globals ++ builtins)) eqn:Hcls.
    + destruct (isinstance e cls) eqn:Hinst.
      * destruct (Hk e st1 mk lr) as (r2 & st2 & d2 & Hd2 & Hrun2).
        exists r2, st2, (d1 ++ d2). split; [by apply Forall_app|].
        intros t. unfold try_except.
        rewrite Hrun1, Hcls, Hinst, Hrun2. by rewrite app_assoc.
      * exists (inl e), st1, d1. split; [exact Hd1|].
        intros t. unfold try_except. by rewrite Hrun1, Hcls, Hinst.
    + exists (inl (NameError cls)), st1, d1. split; [exact Hd1|].
      intros t. unfold try_except. by rewrite Hrun1, Hcls.
  - exists (inr a), st1, d1. split; [exact Hd1|].
    intros t. unfold try_except. by rewrite Hrun1.
Qed.

Lemma storage_only_list_comp {A B} (f : A → M B) (l : list A) :
  (∀ x, storage_only (f x)) → storage_only (list_comp f l).
Proof.
  intros Hf. induction l as [|x l IH]; simpl.
  - apply storage_only_ret.
  - apply storage_only_bind; [apply Hf|]. intros y.
    apply storage_only_bind; [exact IH|]. intros ys. apply storage_only_ret.
Qed.

Lemma storage_only_for_each {A} (l : list A) (body : A → M unit) :
  (∀ x, storage_only (body x)) → storage_only (for_each l body).
Proof.
  intros Hf. induction l as [|x l IH]; simpl.
  - apply storage_only_ret.
  - apply storage_only_bind; [apply Hf|]. intros _. exact IH.
Qed.

Lemma storage_only_emit (e : Effect) :
  is_request e = true → storage_only (emit e).
Proof.
  intros He st mk lr. exists (inr tt), st, [e]. split; [by repeat constructor|].
  reflexivity.
Qed.

Lemma storage_only_get_s3 : storage_only get_s3.
Proof.
  intros st mk lr. exists (inr st), st, []. split; [constructor|].
  intros t. unfold get_s3. simpl. by rewrite app_nil_r.
Qed.

Lemma storage_only_get_max_keys : storage_only get_max_keys.
Proof.
  intros st mk lr. exists (inr mk), st, []. split; [constructor|].
  intros t. unfold get_max_keys. simpl. by rewrite app_nil_r.
Qed.

Lemma storage_only_get_load_raises : storage_only get_load_raises.
Proof.
  intros st mk lr. exists (inr lr), st, []. split; [constructor|].
  intros t. unfold get_load_raises. simpl. by rewrite app_nil_r.
Qed.

Lemma storage_only_modify_s3 f : storage_only (modify_s3 f).
Proof.
  intros st mk lr. exists (inr tt), (f st), []. split; [constructor|].
  intros t. unfold modify_s3, with_s3. simpl. by rewrite app_nil_r.
Qed.

Lemma storage_only_the_bucket b : storage_only (the_bucket b).
Proof.
  intros st mk lr. unfold the_bucket. simpl. destruct (st !! b) as [bk|].
  - exists (inr bk), st, []. split; [constructor|]. intros t. by rewrite app_nil_r.
  - exists (inl (ClientError "NoSuchBucket")), st, []. split; [constructor|].
    intros t. by rewrite app_nil_r.
Qed.

Lemma storage_only_param_str v : storage_only (param_str v).
Proof. destruct v; [apply storage_only_ret | apply storage_only_raise]. Qed.

Lemma storage_only_py_add p o : storage_only (py_add p o).
Proof. destruct p; [apply storage_only_ret | apply storage_only_raise]. Qed.

Lemma storage_only_subscript d k : storage_only (subscript d k).
Proof.
  unfold subscript. destruct (d !! k); [apply storage_only_ret | apply storage_only_raise].
Qed.

Create HintDb storage discriminated.
#[local] Hint Resolve storage_only_ret storage_only_raise storage_only_get_s3
  storage_only_get_max_keys storage_only_get_load_raises storage_only_modify_s3
  storage_only_the_bucket storage_only_param_str storage_only_py_add
  storage_only_subscript : storage.

(** Decomposes a goal [storage_only m] along the structure of [m]. *)
Ltac storage_step :=
  lazymatch goal with
  | |- storage_only (bind _ _) => apply storage_only_bind; [|intros ?]
  | |- storage_only (try_except _ _ _ _) => apply storage_only_try_except; [|intros ?]
  | |- storage_only (for_each _ _) => apply storage_only_for_each; intros ?
  | |- storage_only (list_comp _ _) => apply storage_only_list_comp; intros ?
  | |- storage_only (emit _) => apply storage_only_emit; reflexivity
  | |- storage_only (if ?c then _ else _) => destruct c
  | |- storage_only (match ?x with _ => _ end) => destruct x
  | |- storage_only _ => solve [auto with storage]
  end.

Ltac storage := repeat storage_step.

Lemma storage_only_Bucket_load name : storage_only (s3_resource.Bucket_load name).
Proof. unfold s3_resource.Bucket_load. storage. Qed.

Lemma storage_only_get_bucket_versioning v :
  storage_only (s3_client.get_bucket_versioning v).
Proof. unfold s3_client.get_bucket_versioning. storage. Qed.

Lemma storage_only_put_bucket_versioning v s :
  storage_only (s3_client.put_bucket_versioning v s).
Proof. unfold s3_client.put_bucket_versioning. storage. Qed.

Lemma storage_only_delete_object v k vid :
  storage_only (s3_client.delete_object v k vid).
Proof. unfold s3_client.delete_object. storage. Qed.

Lemma storage_only_copy_object sv sk dv dk :
  storage_only (s3_client.copy_object sv sk dv dk).
Proof. unfold s3_client.copy_object. storage. Qed.

Lemma storage_only_delete_objects_call v ks :
  storage_only (s3_client.delete_objects v ks).
Proof. unfold s3_client.delete_objects. storage. Qed.

Lemma storage_only_for_version_pages v body :
  (∀ p, storage_only (body p)) → storage_only (s3_client.for_version_pages v body).
Proof. intros H. unfold s3_client.for_version_pages. storage. Qed.

Lemma storage_only_for_object_pages v body :
  (∀ p, storage_only (body p)) → storage_only (s3_client.for_object_pages v body).
Proof. intros H. unfold s3_client.for_object_pages. storage. Qed.

#[local] Hint Resolve storage_only_Bucket_load storage_only_get_bucket_versioning
  storage_only_put_bucket_versioning storage_only_delete_object
  storage_only_copy_object storage_only_delete_objects_call : storage.

Lemma storage_only_copy_objects sv dv pv ov :
  storage_only (CopyZipsFunction.copy_objects sv dv pv ov).
Proof. unfold CopyZipsFunction.copy_objects. storage. Qed.

Lemma storage_only_delete_objects dv pv ov :
  storage_only (CopyZipsFunction.delete_objects dv pv ov).
Proof. unfold CopyZipsFunction.delete_objects. storage. Qed.

Lemma storage_only_delete_listed v l :
  storage_only (CleanUpBucketonDeleteLambda.delete_listed v l).
Proof. unfold CleanUpBucketonDeleteLambda.delete_listed. storage. Qed.

#[local] Hint Resolve storage_only_delete_listed : storage.

Lemma storage_only_empty_bucket v :
  storage_only (CleanUpBucketonDeleteLambda.empty_bucket v).
Proof.
  unfold CleanUpBucketonDeleteLambda.empty_bucket. storage.
  - apply storage_only_for_version_pages. intros p. storage.
  - apply storage_only_for_object_pages. intros p. storage.
Qed.

Lemma storage_only_transfer ev : storage_only (CopyZipsFunction.transfer ev).
Proof.
  unfold CopyZipsFunction.transfer. storage.
  - apply storage_only_delete_objects.
  - apply storage_only_copy_objects.
Qed.

Lemma storage_only_drain ev : storage_only (CleanUpBucketonDeleteLambda.drain ev).
Proof.
  unfold CleanUpBucketonDeleteLambda.drain. storage.
  apply storage_only_empty_bucket.
Qed.

(** A storage-only computation run in a fresh world tells how it runs after
    any trace. *)
Lemma storage_only_fresh {A} (m : M A) st mk lr :
  storage_only m →
  Forall (λ e, is_request e = true) (trace (m (fresh st mk lr)).2) ∧
  ∀ t, m (MkWorld st t mk lr)
       = ((m (fresh st mk lr)).1,
          MkWorld (s3 (m (fresh st mk lr)).2) (t ++ trace (m (fresh st mk lr)).2) mk lr).
Proof.
  intros Hm. destruct (Hm st mk lr) as (r & st' & d & Hd & Hrun).
  unfold fresh. rewrite (Hrun []). simpl. split; [exact Hd|].
  intros t. apply Hrun.
Qed.

(** ** The shape of every run of the two handlers *)

Lemma handler_run ev ctx st mk lr :
  CopyZipsFunction.handler ev ctx (fresh st mk lr)
  = (inr tt,
     MkWorld (s3 (CopyZipsFunction.transfer ev (fresh st mk lr)).2)
       (TimerStart (remaining_time_in_millis ctx - 500) ev ctx
          :: trace (CopyZipsFunction.transfer ev (fresh st mk lr)).2
          ++ copier_tail ev ctx (CopyZipsFunction.transfer ev (fresh st mk lr)).1)
       mk lr).
Proof.
  destruct (storage_only_fresh _ st mk lr (storage_only_transfer ev)) as [_ Hrun].
  destruct (CopyZipsFunction.transfer ev (fresh st mk lr)) as [r w1]. simpl in *.
  unfold CopyZipsFunction.handler, try_finally, try_except, bind, emit, with_trace, fresh.
  simpl. rewrite Hrun.
  destruct r as [e|[]]; simpl;
    unfold cfnresponse.send, emit, with_trace, copier_tail; simpl;
    by rewrite <- ?app_assoc.
Qed.

Lemma lambda_handler_run ev ctx st mk lr :
  CleanUpBucketonDeleteLambda.lambda_handler ev ctx (fresh st mk lr)
  = (inr tt,
     MkWorld (s3 (CleanUpBucketonDeleteLambda.drain ev (fresh st mk lr)).2)
       (trace (CleanUpBucketonDeleteLambda.drain ev (fresh st mk lr)).2
          ++ drainer_tail ev ctx (CleanUpBucketonDeleteLambda.drain ev (fresh st mk lr)).1)
       mk lr).
Proof.
  destruct (storage_only_fresh _ st mk lr (storage_only_drain ev)) as [_ Hrun].
  destruct (CleanUpBucketonDeleteLambda.drain ev (fresh st mk lr)) as [r w1]. simpl in *.
  unfold CleanUpBucketonDeleteLambda.lambda_handler, try_except, bind, fresh.
  rewrite Hrun.
  destruct r as [e|[]]; simpl;
    unfold CleanUpBucketonDeleteLambda.sendResponse, emit, with_trace, drainer_tail;
    simpl; by rewrite <- ?app_assoc.
Qed.

(** ** Missing resource properties *)

Lemma transfer_missing ev k w :
  k ∈ required_properties Custom_CopyZips →
  ResourceProperties ev !! k = None →
  ∃ k', CopyZipsFunction.transfer ev w = (inl (KeyError k'), w).
Proof.
  intros Hk Hnone. unfold CopyZipsFunction.transfer, subscript, bind.
  destruct (ResourceProperties ev !! "SourceBucket") eqn:H1; [|by eexists].
  destruct (ResourceProperties ev !! "DestBucket") eqn:H2; [|by eexists].
  destruct (ResourceProperties ev !! "Prefix") eqn:H3; [|by eexists].
  destruct (ResourceProperties ev !! "Objects") eqn:H4; [|by eexists].
  simpl in Hk. repeat (apply elem_of_cons in Hk as [->|Hk]); try congruence.
  by apply elem_of_nil in Hk.
Qed.

Lemma drain_missing ev k w :
  k ∈ required_properties Custom_emptybucket →
  ResourceProperties ev !! k = None →
  CleanUpBucketonDeleteLambda.drain ev w = (inl (KeyError k), w).
Proof.
  intros Hk Hnone. simpl in Hk. apply list_elem_of_singleton in Hk as ->.
  unfold CleanUpBucketonDeleteLambda.drain, subscript, bind. by rewrite Hnone.
Qed.

(** C10. An event that lacks one of the resource properties a function
    requires makes that function report [FAILED] without having sent any
    request to the object store: the store is as it was. *)
Theorem missing_property_no_storage_effect r ev ctx st mk lr k :
  k ∈ required_properties r →
  ResourceProperties ev !! k = None →
  statuses (trace (ServiceToken r ev ctx (fresh st mk lr)).2) = ["FAILED"] ∧
  requests (trace (ServiceToken r ev ctx (fresh st mk lr)).2) = [] ∧
  s3 (ServiceToken r ev ctx (fresh st mk lr)).2 = st.
Proof.
  intros Hk Hnone. destruct r; simpl.
  - destruct (transfer_missing ev k (fresh st mk lr) Hk Hnone) as [k' Hrun].
    rewrite handler_run, Hrun. simpl. done.
  - rewrite lambda_handler_run, (drain_missing ev k _ Hk Hnone). simpl. done.
Qed.

Lemma missing_property_witness :
  "Prefix" ∈ required_properties Custom_CopyZips ∧
  ResourceProperties
    (sample_event "Create" (delete "Prefix" sample_transfer)) !! "Prefix" = None ∧
  statuses (trace (ServiceToken Custom_CopyZips
                     (sample_event "Create" (delete "Prefix" sample_transfer))
                     sample_context (fresh sample_store 1000 false)).2) = ["FAILED"] ∧
  requests (trace (ServiceToken Custom_CopyZips
                     (sample_event "Create" (delete "Prefix" sample_transfer))
                     sample_context (fresh sample_store 1000 false)).2) = [] ∧
  s3 (ServiceToken Custom_CopyZips
        (sample_event "Create" (delete "Prefix" sample_transfer))
        sample_context (fresh sample_store 1000 false)).2 = sample_store.
Proof.
  assert (H1 : "Prefix" ∈ required_properties Custom_CopyZips)
    by (simpl; set_solver).
  assert (H2 : ResourceProperties
            (sample_event "Create" (delete "Prefix" sample_transfer)) !! "Prefix" = None)
    by reflexivity.
  split; [exact H1|]. split; [exact H2|].
  exact (missing_property_no_storage_effect Custom_CopyZips
           (sample_event "Create" (delete "Prefix" sample_transfer))
           sample_context sample_store 1000 false "Prefix" H1 H2).
Defined.

(** ** The response of the main path, the timer thread and the time budget *)












(** ** Routing *)

Lemma transfer_carries ev q w :
  carries ev q →
  CopyZipsFunction.transfer ev w
  = (if String.eqb (RequestType ev) "Delete"
     then CopyZipsFunction.delete_objects
            (PStr (destination q)) (PStr (key_prefix q)) (PList (names q))
     else CopyZipsFunction.copy_objects
            (PStr (source q)) (PStr (destination q)) (PStr (key_prefix q))
            (PList (names q))) w.
Proof.
  intros (H1 & H2 & H3 & H4).
  unfold CopyZipsFunction.transfer, subscript, bind. by rewrite H1, H2, H3, H4.
Qed.

Lemma drain_names ev b w :
  names_bucket ev b →
  CleanUpBucketonDeleteLambda.drain ev w
  = (if String.eqb (RequestType ev) "Delete"
     then CleanUpBucketonDeleteLambda.empty_bucket (PStr b)
     else ret tt) w.
Proof.
  intros H. unfold CleanUpBucketonDeleteLambda.drain, subscript, bind.
  unfold names_bucket in H. by rewrite H.
Qed.

Lemma requests_copier_tail ev ctx r : requests (copier_tail ev ctx r) = [].
Proof. by destruct r. Qed.

Lemma requests_drainer_tail ev ctx r : requests (drainer_tail ev ctx r) = [].
Proof. by destruct r. Qed.

(** What the copier does to the object store is what its [try] suite
    does. *)
Lemma handler_storage ev ctx st mk lr :
  requests (trace (CopyZipsFunction.handler ev ctx (fresh st mk lr)).2)
  = trace (CopyZipsFunction.transfer ev (fresh st mk lr)).2 ∧
  s3 (CopyZipsFunction.handler ev ctx (fresh st mk lr)).2
  = s3 (CopyZipsFunction.transfer ev (fresh st mk lr)).2.
Proof.
  rewrite handler_run. simpl. split; [|reflexivity].
  change (requests (trace (CopyZipsFunction.transfer ev (fresh st mk lr)).2
                      ++ copier_tail ev ctx (CopyZipsFunction.transfer ev (fresh st mk lr)).1)
          = trace (CopyZipsFunction.transfer ev (fresh st mk lr)).2).
  rewrite requests_app, requests_copier_tail, app_nil_r.
  apply requests_all, storage_only_fresh, storage_only_transfer.
Qed.

Lemma lambda_handler_storage ev ctx st mk lr :
  requests (trace (CleanUpBucketonDeleteLambda.lambda_handler ev ctx (fresh st mk lr)).2)
  = trace (CleanUpBucketonDeleteLambda.drain ev (fresh st mk lr)).2 ∧
  s3 (CleanUpBucketonDeleteLambda.lambda_handler ev ctx (fresh st mk lr)).2
  = s3 (CleanUpBucketonDeleteLambda.drain ev (fresh st mk lr)).2.
Proof.
  rewrite lambda_handler_run. simpl. split; [|reflexivity].
  rewrite requests_app, requests_drainer_tail, app_nil_r.
  apply requests_all, storage_only_fresh, storage_only_drain.
Qed.

(** C7. Each resource type is served by its own function, and that
    function chooses by the kind of the event: for the copier, [Create] and
    [Update] do exactly what [copy_objects] does and [Delete] exactly what
    [delete_objects] does; for the drainer, [Delete] does exactly what
    [empty_bucket] does, and [Create] and [Update] send no request, leave
    the store as it was and report [SUCCESS].  No request other than those
    of the chosen path reaches the object store. *)
Theorem dispatcher_routes r kind ev ctx q b st mk lr :
  RequestType ev = kind_name kind →
  match r with
  | Custom_CopyZips => carries ev q
  | Custom_emptybucket => names_bucket ev b
  end →
  requests (trace (ServiceToken r ev ctx (fresh st mk lr)).2)
  = trace (spec_route r kind q b (fresh st mk lr)).2 ∧
  s3 (ServiceToken r ev ctx (fresh st mk lr)).2
  = s3 (spec_route r kind q b (fresh st mk lr)).2 ∧
  (r = Custom_emptybucket → kind ≠ Delete →
   requests (trace (ServiceToken r ev ctx (fresh st mk lr)).2) = [] ∧
   s3 (ServiceToken r ev ctx (fresh st mk lr)).2 = st ∧
   statuses (trace (ServiceToken r ev ctx (fresh st mk lr)).2) = ["SUCCESS"]).
Proof.
  intros Hkind Hprops. destruct r; simpl.
  - destruct (handler_storage ev ctx st mk lr) as [-> ->].
    rewrite (transfer_carries ev q _ Hprops), Hkind.
    split; [|split; [|discriminate]]; by destruct kind.
  - destruct (lambda_handler_storage ev ctx st mk lr) as [Hreq Hs3].
    rewrite Hreq, Hs3.
    split; [|split].
    + rewrite (drain_names ev b _ Hprops), Hkind. by destruct kind.
    + rewrite (drain_names ev b _ Hprops), Hkind. by destruct kind.
    + intros _ Hnd. rewrite lambda_handler_run.
      rewrite (drain_names ev b _ Hprops), Hkind.
      destruct kind; try done.
Qed.

(** ** Pagination *)

Lemma slices_concat {A} fuel n (l : list A) : concat (slices fuel n l) = l.
Proof.
  revert l. induction fuel as [|fuel IH]; intros [|x l]; try reflexivity.
  - simpl. by rewrite app_nil_r.
  - cbn [slices concat]. rewrite IH. apply take_drop.
Qed.

Lemma paginate_concat {A} n (l : list A) : concat (paginate n l) = l.
Proof.
  unfold paginate. pose proof (slices_concat (length l) (pred n) l) as H.
  destruct (slices (length l) (pred n) l); [|exact H].
  simpl in *. exact H.
Qed.

Lemma paginate_nil {A} n : paginate n (@nil A) = [[]].
Proof. reflexivity. Qed.

Lemma paginate_covers {A} n (l : list A) x :
  x ∈ l → ∃ page, page ∈ paginate n l ∧ x ∈ page.
Proof.
  intros Hx. rewrite <- (paginate_concat n l) in Hx.
  apply list_elem_of_In, in_concat in Hx as (page & Hpage & Hx).
  exists page. by rewrite !list_elem_of_In.
Qed.

(** ** Running the calls of the SDK *)

Lemma bind_run {A B} (m : M A) (k : A → M B) w a w' :
  m w = (inr a, w') → bind m k w = k a w'.
Proof. intros H. unfold bind. by rewrite H. Qed.

Lemma delete_version_run b k v st t mk lr bk :
  st !! b = Some bk →
  s3_client.delete_object (PStr b) k (Some v) (MkWorld st t mk lr)
  = (inr tt, MkWorld (<[b := remove_revision k v bk]> st)
               (t ++ [DeleteObject b k (Some v)]) mk lr).
Proof.
  intros H. unfold s3_client.delete_object, bind, the_bucket. simpl. by rewrite H.
Qed.

Lemma delete_listed_run b entries : ∀ st t mk lr bk,
  st !! b = Some bk →
  CleanUpBucketonDeleteLambda.delete_listed (PStr b) entries (MkWorld st t mk lr)
  = (inr tt, MkWorld (<[b := remove_all entries bk]> st)
               (t ++ (delete_version b <$> entries)) mk lr).
Proof.
  induction entries as [|[k v] entries IH]; intros st t mk lr bk H.
  - simpl. unfold ret. by rewrite insert_id, app_nil_r.
  - unfold CleanUpBucketonDeleteLambda.delete_listed in *. cbn [for_each].
    erewrite bind_run by (by apply delete_version_run).
    erewrite IH by apply lookup_insert_eq.
    rewrite insert_insert_eq, <- app_assoc. reflexivity.
Qed.

Lemma delete_listed_maybe b entries w :
  match nonempty entries with
  | Some l => CleanUpBucketonDeleteLambda.delete_listed (PStr b) l
  | None => ret tt
  end w
  = CleanUpBucketonDeleteLambda.delete_listed (PStr b) entries w.
Proof. by destruct entries. Qed.

Lemma remove_all_app l1 l2 bk :
  remove_all (l1 ++ l2) bk = remove_all l2 (remove_all l1 bk).
Proof. apply foldl_app. Qed.

Lemma version_page_run b page st t mk lr bk :
  st !! b = Some bk →
  (do_ emit (ListObjectVersions b);
   do_ match DeleteMarkers (versions_page page) with
       | Some delete_markers =>
           CleanUpBucketonDeleteLambda.delete_listed (PStr b) delete_markers
       | None => ret tt
       end;
   match Versions (versions_page page) with
   | Some versions => CleanUpBucketonDeleteLambda.delete_listed (PStr b) versions
   | None => ret tt
   end) (MkWorld st t mk lr)
  = (inr tt, MkWorld (<[b := remove_all (page_entries page) bk]> st)
               (t ++ page_requests b page) mk lr).
Proof.
  intros H. unfold versions_page. cbn [DeleteMarkers Versions].
  erewrite bind_run by reflexivity.
  erewrite bind_run
    by (rewrite delete_listed_maybe; apply delete_listed_run; exact H).
  rewrite delete_listed_maybe.
  erewrite delete_listed_run by apply lookup_insert_eq.
  rewrite insert_insert_eq. unfold page_entries, page_requests.
  cbn [s3 trace max_keys load_raises].
  rewrite remove_all_app, <- !app_assoc. reflexivity.
Qed.

Lemma version_loop_run b mk lr pages : ∀ st t bk,
  st !! b = Some bk →
  for_each (versions_page <$> pages)
    (λ page,
       do_ emit (ListObjectVersions b);
       do_ match DeleteMarkers page with
           | Some delete_markers =>
               CleanUpBucketonDeleteLambda.delete_listed (PStr b) delete_markers
           | None => ret tt
           end;
       match Versions page with
       | Some versions => CleanUpBucketonDeleteLambda.delete_listed (PStr b) versions
       | None => ret tt
       end) (MkWorld st t mk lr)
  = (inr tt, MkWorld (<[b := remove_all (concat (page_entries <$> pages)) bk]> st)
               (t ++ concat (page_requests b <$> pages)) mk lr).
Proof.
  induction pages as [|page pages IH]; intros st t bk H.
  - simpl. unfold ret. by rewrite insert_id, app_nil_r.
  - cbn [fmap list_fmap for_each concat].
    erewrite bind_run by (by apply version_page_run).
    erewrite IH by apply lookup_insert_eq.
    rewrite insert_insert_eq, remove_all_app, <- app_assoc. reflexivity.
Qed.

(** ** What is left of a bucket *)

Lemma remove_all_versioning l bk : versioning (remove_all l bk) = versioning bk.
Proof.
  revert bk. induction l as [|e l IH]; intros bk; [reflexivity|].
  cbn [remove_all foldl]. fold (remove_all l (remove_revision e.1 e.2 bk)).
  by rewrite IH.
Qed.

Lemma remove_all_next_vid l bk : next_vid (remove_all l bk) = next_vid bk.
Proof.
  revert bk. induction l as [|e l IH]; intros bk; [reflexivity|].
  cbn [remove_all foldl]. fold (remove_all l (remove_revision e.1 e.2 bk)).
  by rewrite IH.
Qed.

Lemma elem_of_remove_all l : ∀ bk r,
  r ∈ revisions (remove_all l bk) ↔ r ∈ revisions bk ∧ ident r ∉ l.
Proof.
  induction l as [|e l IH]; intros bk r.
  - simpl. split; [intros H; split; [exact H|apply not_elem_of_nil] | by intros [H _]].
  - cbn [remove_all foldl]. fold (remove_all l (remove_revision e.1 e.2 bk)).
    rewrite IH. unfold remove_revision, drop_revision. cbn [revisions].
    rewrite list_elem_of_filter, not_elem_of_cons.
    destruct e as [k v]. simpl. tauto.
Qed.

Lemma remove_all_listed l bk :
  (∀ r, r ∈ revisions bk → ident r ∈ l) →
  remove_all l bk
  = {| versioning := versioning bk; revisions := []; next_vid := next_vid bk |}.
Proof.
  intros Hall.
  assert (revisions (remove_all l bk) = []) as Hnil.
  { apply elem_of_nil_inv. intros r [Hr Hnot]%elem_of_remove_all.
    apply Hnot, Hall, Hr. }
  pose proof (remove_all_versioning l bk) as Hv.
  pose proof (remove_all_next_vid l bk) as Hn.
  destruct (remove_all l bk). simpl in *. by subst.
Qed.

Lemma page_entries_covers page r : r ∈ page → ident r ∈ page_entries page.
Proof.
  intros Hr. unfold page_entries. apply elem_of_app.
  destruct (is_marker r) eqn:Hm; [left|right];
    apply list_elem_of_fmap_2, list_elem_of_filter; by split.
Qed.

Lemma listing_covers n rs r :
  r ∈ rs → ident r ∈ concat (page_entries <$> paginate n rs).
Proof.
  intros Hr. destruct (paginate_covers n rs r Hr) as (page & Hpage & Hin).
  apply list_elem_of_In, in_concat. exists (page_entries page). split.
  - apply list_elem_of_In, list_elem_of_fmap_2, Hpage.
  - apply list_elem_of_In, page_entries_covers, Hin.
Qed.

(** ** [empty_bucket] on a bucket that exists *)

Lemma for_version_pages_run b body st t mk lr bk :
  st !! b = Some bk →
  s3_client.for_version_pages (PStr b) body (MkWorld st t mk lr)
  = for_each (versions_page <$> paginate mk (revisions bk))
      (λ page, do_ emit (ListObjectVersions b); body page) (MkWorld st t mk lr).
Proof.
  intros H. unfold s3_client.for_version_pages, bind, param_str, ret, get_s3, get_max_keys.
  cbn [s3 max_keys]. by rewrite H.
Qed.

Lemma for_object_pages_run b body st t mk lr bk :
  st !! b = Some bk →
  s3_client.for_object_pages (PStr b) body (MkWorld st t mk lr)
  = for_each (objects_page <$> paginate mk (current_keys (revisions bk)))
      (λ page, do_ emit (ListObjectsV2 b); body page) (MkWorld st t mk lr).
Proof.
  intros H. unfold s3_client.for_object_pages, bind, param_str, ret, get_s3, get_max_keys.
  cbn [s3 max_keys]. by rewrite H.
Qed.

Lemma status_is_enabled v :
  String.eqb (default "" (versioning_status v)) "Enabled"
  = match v with Enabled => true | _ => false end.
Proof. by destruct v. Qed.

Lemma empty_bucket_run b st t mk lr bk :
  st !! b = Some bk →
  CleanUpBucketonDeleteLambda.empty_bucket (PStr b) (MkWorld st t mk lr)
  = (inr tt, MkWorld (<[b := drained bk]> st) (t ++ drain_requests b mk bk) mk lr).
Proof.
  intros H. unfold CleanUpBucketonDeleteLambda.empty_bucket.
  assert (Hload : try_except CleanUpBucketonDeleteLambda.globals
            (do_ s3_resource.Bucket_load (PStr b); ret true) "ClientError"
            (λ _, ret false) (MkWorld st t mk lr)
          = (inr true, MkWorld st (t ++ [BucketLoad (PStr b)]) mk lr)).
  { unfold try_except, s3_resource.Bucket_load, bind, emit, get_s3, get_load_raises,
      with_trace, bucket_found. simpl.
    rewrite bool_decide_eq_true_2 by (rewrite H; eauto). reflexivity. }
  erewrite bind_run by exact Hload. cbn beta iota.
  assert (Hget : s3_client.get_bucket_versioning (PStr b)
                   (MkWorld st (t ++ [BucketLoad (PStr b)]) mk lr)
                 = (inr (versioning_status (versioning bk)),
                    MkWorld st (t ++ [BucketLoad (PStr b); GetBucketVersioning b]) mk lr)).
  { unfold s3_client.get_bucket_versioning, bind, the_bucket, emit, with_trace. simpl.
    rewrite H, <- app_assoc. reflexivity. }
  erewrite bind_run by exact Hget. cbn beta zeta.
  rewrite status_is_enabled.
  set (bk1 := match versioning bk with
              | Enabled => set_versioning Suspended bk
              | _ => bk
              end).
  set (t1 := t ++ [BucketLoad (PStr b); GetBucketVersioning b]
               ++ match versioning bk with
                  | Enabled => [PutBucketVersioning b Suspended]
                  | _ => []
                  end).
  assert (Hput : (if match versioning bk with Enabled => true | _ => false end
                  then s3_client.put_bucket_versioning (PStr b) Suspended
                  else ret tt)
                   (MkWorld st (t ++ [BucketLoad (PStr b); GetBucketVersioning b]) mk lr)
                 = (inr tt, MkWorld (<[b := bk1]> st) t1 mk lr)).
  { subst bk1 t1. destruct (versioning bk).
    - unfold ret. by rewrite insert_id, app_nil_r.
    - unfold s3_client.put_bucket_versioning, bind, the_bucket, emit, with_trace. simpl.
      rewrite H. unfold modify_s3, with_s3. simpl. by rewrite <- app_assoc.
    - unfold ret. by rewrite insert_id, app_nil_r. }
  erewrite bind_run by exact Hput.
  assert (Hrevs : revisions bk1 = revisions bk) by (subst bk1; by destruct (versioning bk)).
  assert (Hpages : s3_client.for_version_pages (PStr b)
            (λ page,
               do_ match DeleteMarkers page with
                   | Some delete_markers =>
                       CleanUpBucketonDeleteLambda.delete_listed (PStr b) delete_markers
                   | None => ret tt
                   end;
               match Versions page with
               | Some versions =>
                   CleanUpBucketonDeleteLambda.delete_listed (PStr b) versions
               | None => ret tt
               end) (MkWorld (<[b := bk1]> st) t1 mk lr)
          = (inr tt,
             MkWorld (<[b := drained bk]> st)
               (t1 ++ concat (page_requests b <$> paginate mk (revisions bk))) mk lr)).
  { erewrite for_version_pages_run by apply lookup_insert_eq. rewrite Hrevs.
    erewrite version_loop_run by apply lookup_insert_eq.
    rewrite insert_insert_eq. f_equal. f_equal. f_equal.
    rewrite remove_all_listed.
    - subst bk1. unfold drained. destruct (versioning bk) eqn:Hv; simpl; by rewrite ?Hv.
    - intros r Hr. rewrite Hrevs in Hr. by apply listing_covers. }
  erewrite bind_run by exact Hpages.
  erewrite for_object_pages_run by apply lookup_insert_eq.
  unfold drained at 1. cbn [revisions]. unfold current_keys. simpl.
  unfold bind, emit, with_trace, ret. simpl. f_equal. f_equal.
  subst t1. unfold drain_requests. by rewrite <- !app_assoc.
Qed.

Lemma drain_delete_run ev b st mk lr bk :
  RequestType ev = "Delete" →
  names_bucket ev b →
  st !! b = Some bk →
  CleanUpBucketonDeleteLambda.drain ev (fresh st mk lr)
  = (inr tt, MkWorld (<[b := drained bk]> st) (drain_requests b mk bk) mk lr).
Proof.
  intros Hkind Hname Hbk. rewrite (drain_names ev b _ Hname), Hkind. simpl.
  unfold fresh. by rewrite (empty_bucket_run b st [] mk lr bk Hbk).
Qed.

Lemma lambda_handler_delete_run ev ctx b st mk lr bk :
  RequestType ev = "Delete" →
  names_bucket ev b →
  st !! b = Some bk →
  CleanUpBucketonDeleteLambda.lambda_handler ev ctx (fresh st mk lr)
  = (inr tt,
     MkWorld (<[b := drained bk]> st)
       (drain_requests b mk bk
          ++ [HttpPut (CleanUpBucketonDeleteLambda.response_body ev ctx "SUCCESS")])
       mk lr).
Proof.
  intros Hkind Hname Hbk.
  by rewrite lambda_handler_run, (drain_delete_run ev b st mk lr bk).
Qed.

Lemma drain_requests_are_requests b mk bk :
  Forall (λ e, is_request e = true) (drain_requests b mk bk).
Proof.
  pose proof (storage_only_fresh _ {[b := bk]} mk false
                (storage_only_empty_bucket (PStr b))) as [H _].
  unfold fresh in H.
  rewrite (empty_bucket_run b {[b := bk]} [] mk false bk) in H
    by apply lookup_singleton_eq.
  exact H.
Qed.

Lemma drained_idem bk : drained (drained bk) = drained bk.
Proof. unfold drained. simpl. by destruct (versioning bk). Qed.

Lemma deletions_app t1 t2 : deletions (t1 ++ t2) = deletions t1 ++ deletions t2.
Proof. apply filter_app. Qed.

Lemma drain_requests_empty b mk bk :
  revisions bk = [] → deletions (drain_requests b mk bk) = [].
Proof.
  intros H. unfold drain_requests. rewrite H, paginate_nil.
  by destruct (versioning bk).
Qed.

(** C4. Draining a bucket with versioning enabled, whatever current
    objects, older versions and delete markers it holds, reports [SUCCESS]
    and leaves the bucket with versioning suspended and without any
    revision: no version, no delete marker and no current object.  The
    requests sent are those of [drain_requests]: page after page of the
    version listing, the removals of the delete markers of the page and
    then the removals of its versions. *)
Theorem drain_versioned_bucket ev ctx st mk lr b bk :
  RequestType ev = "Delete" →
  names_bucket ev b →
  st !! b = Some bk →
  versioning bk = Enabled →
  ∃ bk',
    s3 (CleanUpBucketonDeleteLambda.lambda_handler ev ctx (fresh st mk lr)).2 !! b
    = Some bk' ∧
    versioning bk' = Suspended ∧
    revisions bk' = [] ∧
    length (filter (λ r, is_marker r = false) (revisions bk')) = 0 ∧
    length (filter (λ r, is_marker r = true) (revisions bk')) = 0 ∧
    length (current_keys (revisions bk')) = 0 ∧
    requests (trace (CleanUpBucketonDeleteLambda.lambda_handler ev ctx (fresh st mk lr)).2)
    = [BucketLoad (PStr b); GetBucketVersioning b; PutBucketVersioning b Suspended]
        ++ concat (page_requests b <$> paginate mk (revisions bk))
        ++ [ListObjectsV2 b] ∧
    statuses (trace (CleanUpBucketonDeleteLambda.lambda_handler ev ctx (fresh st mk lr)).2)
    = ["SUCCESS"].
Proof.
  intros Hkind Hname Hbk Hv.
  rewrite (lambda_handler_delete_run ev ctx b st mk lr bk Hkind Hname Hbk).
  cbn [snd s3 trace].
  exists (drained bk). rewrite lookup_insert_eq.
  assert (Hd : drained bk
               = {| versioning := Suspended; revisions := []; next_vid := next_vid bk |})
    by (unfold drained; by rewrite Hv).
  rewrite Hd. cbn [versioning revisions].
  do 6 (split; [reflexivity|]). split.
  - rewrite requests_app, (requests_all _ (drain_requests_are_requests b mk bk)).
    unfold drain_requests. rewrite Hv. cbn [requests filter list_filter is_request].
    by rewrite app_nil_r.
  - unfold statuses. rewrite responses_app.
    rewrite (responses_silent _ (request_silent _ (drain_requests_are_requests b mk bk))).
    reflexivity.
Qed.

(** C3. Draining an existing bucket twice in a row: both runs report
    [SUCCESS], the bucket is empty after the first run, the second run
    sends no removal and leaves the store as the first run left it; and a
    run on a bucket that is empty already sends no removal either. *)
Theorem drain_idempotent ev ctx st mk lr b bk :
  RequestType ev = "Delete" →
  names_bucket ev b →
  st !! b = Some bk →
  let first :=
    (CleanUpBucketonDeleteLambda.lambda_handler ev ctx (fresh st mk lr)).2 in
  let second :=
    (CleanUpBucketonDeleteLambda.lambda_handler ev ctx (fresh (s3 first) mk lr)).2 in
  statuses (trace first) = ["SUCCESS"] ∧
  revisions <$> s3 first !! b = Some [] ∧
  statuses (trace second) = ["SUCCESS"] ∧
  s3 second = s3 first ∧
  deletions (trace second) = [] ∧
  (revisions bk = [] → deletions (trace first) = []).
Proof.
  intros Hkind Hname Hbk. cbv zeta.
  rewrite (lambda_handler_delete_run ev ctx b st mk lr bk Hkind Hname Hbk).
  cbn [snd s3 trace].
  rewrite (lambda_handler_delete_run ev ctx b (<[b := drained bk]> st) mk lr (drained bk)
             Hkind Hname (lookup_insert_eq _ _ _)).
  cbn [snd s3 trace].
  assert (Hst : ∀ bk0, statuses (drain_requests b mk bk0
                  ++ [HttpPut (CleanUpBucketonDeleteLambda.response_body ev ctx "SUCCESS")])
                = ["SUCCESS"]).
  { intros bk0. unfold statuses. rewrite responses_app.
    rewrite (responses_silent _ (request_silent _ (drain_requests_are_requests b mk bk0))).
    reflexivity. }
  split; [apply Hst|]. split; [by rewrite lookup_insert_eq|].
  split; [apply Hst|]. split; [by rewrite insert_insert_eq, drained_idem|].
  split.
  - rewrite deletions_app, drain_requests_empty by reflexivity. reflexivity.
  - intros Hempty. rewrite deletions_app, drain_requests_empty by exact Hempty.
    reflexivity.
Qed.

(** C5, on the code: a [Delete] for a bucket that does not exist is
    reported as [FAILED].  When [Bucket.load] raises [ClientError], the
    clause [except ClientError] cannot be entered, because the module never
    imports that name, and a [NameError] reaches [lambda_handler]; when
    [Bucket.load] returns silently, the next request raises [ClientError]
    with code [NoSuchBucket], which nothing catches before
    [lambda_handler]. *)
Theorem drain_missing_bucket_reports_failed ev ctx st mk lr b :
  RequestType ev = "Delete" →
  names_bucket ev b →
  st !! b = None →
  statuses (trace (CleanUpBucketonDeleteLambda.lambda_handler ev ctx (fresh st mk lr)).2)
  = ["FAILED"] ∧
  logged (trace (CleanUpBucketonDeleteLambda.lambda_handler ev ctx (fresh st mk lr)).2)
  = [if lr then NameError "ClientError" else ClientError "NoSuchBucket"] ∧
  s3 (CleanUpBucketonDeleteLambda.lambda_handler ev ctx (fresh st mk lr)).2 = st.
Proof.
  intros Hkind Hname Hbk.
  rewrite lambda_handler_run, (drain_names ev b _ Hname), Hkind. simpl.
  unfold CleanUpBucketonDeleteLambda.empty_bucket, try_except, s3_resource.Bucket_load,
    s3_client.get_bucket_versioning, bind, emit, get_s3, get_load_raises, the_bucket,
    with_trace, bucket_found, fresh.
  simpl. rewrite bool_decide_eq_false_2 by (rewrite Hbk; by intros [? ?]).
  destruct lr; simpl; [done|]. rewrite Hbk. simpl. done.
Qed.

Lemma drain_versioned_bucket_witness :
  RequestType sample_delete_drain = "Delete" ∧
  names_bucket sample_delete_drain "dst" ∧
  sample_versioned_store !! "dst" = Some sample_versioned ∧
  versioning sample_versioned = Enabled ∧
  ∃ bk',
    s3 (CleanUpBucketonDeleteLambda.lambda_handler sample_delete_drain sample_context
          (fresh sample_versioned_store 2 true)).2 !! "dst"
    = Some bk' ∧
    versioning bk' = Suspended ∧
    revisions bk' = [] ∧
    length (filter (λ r, is_marker r = false) (revisions bk')) = 0 ∧
    length (filter (λ r, is_marker r = true) (revisions bk')) = 0 ∧
    length (current_keys (revisions bk')) = 0 ∧
    requests (trace (CleanUpBucketonDeleteLambda.lambda_handler sample_delete_drain
                       sample_context (fresh sample_versioned_store 2 true)).2)
    = [BucketLoad (PStr "dst"); GetBucketVersioning "dst";
       PutBucketVersioning "dst" Suspended]
        ++ concat (page_requests "dst" <$> paginate 2 (revisions sample_versioned))
        ++ [ListObjectsV2 "dst"] ∧
    statuses (trace (CleanUpBucketonDeleteLambda.lambda_handler sample_delete_drain
                       sample_context (fresh sample_versioned_store 2 true)).2)
    = ["SUCCESS"].
Proof.
  assert (H1 : RequestType sample_delete_drain = "Delete") by reflexivity.
  assert (H2 : names_bucket sample_delete_drain "dst") by reflexivity.
  assert (H3 : sample_versioned_store !! "dst" = Some sample_versioned) by reflexivity.
  assert (H4 : versioning sample_versioned = Enabled) by reflexivity.
  do 4 (split; [assumption|]).
  exact (drain_versioned_bucket sample_delete_drain sample_context
           sample_versioned_store 2 true "dst" sample_versioned H1 H2 H3 H4).
Defined.

(** The requests of that run: the delete marker of the first page goes
    before the version of the same page. *)
Example sample_drain_requests :
  requests (trace (CleanUpBucketonDeleteLambda.lambda_handler sample_delete_drain
                     sample_context (fresh sample_versioned_store 2 true)).2)
  = [BucketLoad (PStr "dst"); GetBucketVersioning "dst";
     PutBucketVersioning "dst" Suspended;
     ListObjectVersions "dst";
     DeleteObject "dst" "a.sh" (Some (Vid 2));
     DeleteObject "dst" "a.sh" (Some (Vid 1));
     ListObjectVersions "dst";
     DeleteObject "dst" "b.sh" (Some (Vid 0));
     ListObjectsV2 "dst"].
Proof. vm_compute. reflexivity. Qed.

Lemma drain_idempotent_witness :
  RequestType sample_delete_drain = "Delete" ∧
  names_bucket sample_delete_drain "dst" ∧
  sample_store !! "dst" = Some (plain_bucket [object "readme.txt" "R"]) ∧
  statuses (trace (CleanUpBucketonDeleteLambda.lambda_handler sample_delete_drain
                     sample_context (fresh sample_store 1000 false)).2)
  = ["SUCCESS"] ∧
  revisions <$>
    s3 (CleanUpBucketonDeleteLambda.lambda_handler sample_delete_drain sample_context
          (fresh sample_store 1000 false)).2 !! "dst"
  = Some [].
Proof.
  assert (H1 : RequestType sample_delete_drain = "Delete") by reflexivity.
  assert (H2 : names_bucket sample_delete_drain "dst") by reflexivity.
  assert (H3 : sample_store !! "dst" = Some (plain_bucket [object "readme.txt" "R"]))
    by reflexivity.
  do 3 (split; [assumption|]).
  pose proof (drain_idempotent sample_delete_drain sample_context sample_store 1000 false
                "dst" (plain_bucket [object "readme.txt" "R"]) H1 H2 H3) as (Ha & Hb & _).
  split; [exact Ha | exact Hb].
Defined.

Lemma drain_missing_bucket_witness :
  RequestType sample_delete_drain = "Delete" ∧
  names_bucket sample_delete_drain "dst" ∧
  (∅ : gmap string Bucket) !! "dst" = None ∧
  statuses (trace (CleanUpBucketonDeleteLambda.lambda_handler sample_delete_drain
                     sample_context (fresh ∅ 1000 true)).2)
  = ["FAILED"] ∧
  statuses (trace (CleanUpBucketonDeleteLambda.lambda_handler sample_delete_drain
                     sample_context (fresh ∅ 1000 false)).2)
  = ["FAILED"].
Proof.
  assert (H1 : RequestType sample_delete_drain = "Delete") by reflexivity.
  assert (H2 : names_bucket sample_delete_drain "dst") by reflexivity.
  assert (H3 : (∅ : gmap string Bucket) !! "dst" = None) by reflexivity.
  do 3 (split; [assumption|]).
  split.
  - exact (proj1 (drain_missing_bucket_reports_failed sample_delete_drain sample_context
                    ∅ 1000 true "dst" H1 H2 H3)).
  - exact (proj1 (drain_missing_bucket_reports_failed sample_delete_drain sample_context
                    ∅ 1000 false "dst" H1 H2 H3)).
Defined.

Lemma dispatcher_routes_witness :
  RequestType (sample_event "Delete" sample_transfer) = kind_name Delete ∧
  carries (sample_event "Delete" sample_transfer) sample_request ∧
  requests (trace (ServiceToken Custom_CopyZips (sample_event "Delete" sample_transfer)
                     sample_context (fresh sample_store 1000 false)).2)
  = trace (spec_route Custom_CopyZips Delete sample_request "" (fresh sample_store 1000 false)).2.
Proof.
  assert (H1 : RequestType (sample_event "Delete" sample_transfer) = kind_name Delete)
    by reflexivity.
  assert (H2 : carries (sample_event "Delete" sample_transfer) sample_request)
    by (repeat split; reflexivity).
  do 2 (split; [assumption|]).
  exact (proj1 (dispatcher_routes Custom_CopyZips Delete
                  (sample_event "Delete" sample_transfer) sample_context
                  sample_request "" sample_store 1000 false H1 H2)).
Defined.

(** ** The two paths of the copier *)

Lemma copy_object_run sb db k st t mk lr :
  s3_client.copy_object (PStr sb) k (PStr db) k (MkWorld st t mk lr)
  = match copy_result sb db k st with
    | inr st' => (inr tt, MkWorld st' (t ++ [CopyObject sb k db k]) mk lr)
    | inl e => (inl e, MkWorld st (t ++ [CopyObject sb k db k]) mk lr)
    end.
Proof.
  unfold s3_client.copy_object, copy_result, bind, the_bucket, emit, with_trace. simpl.
  destruct (st !! sb) as [src|]; simpl; [|reflexivity].
  destruct (st !! db) as [dst|]; simpl; [|reflexivity].
  by destruct (current_object k (revisions src)).
Qed.

Lemma copy_step_run q o st t mk lr :
  (do key <- py_add (PStr (key_prefix q)) o;
   s3_client.copy_object (PStr (source q)) key (PStr (destination q)) key)
    (MkWorld st t mk lr)
  = match copy_result (source q) (destination q) (key_prefix q +:+ o) st with
    | inr st' => (inr tt, MkWorld st' (t ++ [copy_request q o]) mk lr)
    | inl e => (inl e, MkWorld st (t ++ [copy_request q o]) mk lr)
    end.
Proof. unfold bind, py_add, ret. apply copy_object_run. Qed.

Lemma list_comp_py_add p objs w :
  list_comp (py_add (PStr p)) objs w = (inr ((λ o, p +:+ o) <$> objs), w).
Proof.
  induction objs as [|o objs IH]; [reflexivity|].
  cbn [list_comp]. unfold bind at 1. cbn [py_add ret].
  unfold bind at 1. by rewrite IH.
Qed.

Lemma delete_objects_run q st t mk lr :
  CopyZipsFunction.delete_objects
    (PStr (destination q)) (PStr (key_prefix q)) (PList (names q)) (MkWorld st t mk lr)
  = match st !! destination q with
    | Some dst =>
        match names q with
        | [] =>
            (inl (ClientError "MalformedXML"),
             MkWorld st (t ++ [DeleteObjects (destination q) (keys_of q)]) mk lr)
        | _ :: _ =>
            (inr tt,
             MkWorld (<[destination q := remove_keys (keys_of q) dst]> st)
               (t ++ [DeleteObjects (destination q) (keys_of q)]) mk lr)
        end
    | None =>
        (inl (ClientError "NoSuchBucket"),
         MkWorld st (t ++ [DeleteObjects (destination q) (keys_of q)]) mk lr)
    end.
Proof.
  unfold CopyZipsFunction.delete_objects. cbn [py_iter].
  erewrite bind_run by apply list_comp_py_add.
  unfold s3_client.delete_objects, bind, the_bucket, emit, with_trace, keys_of. simpl.
  destruct (st !! destination q); [|reflexivity]. by destruct (names q).
Qed.

(** Whatever the outcome, the batch removal sends its one request, and the
    store is as the removal of the keys leaves it. *)
Lemma delete_objects_store q st t mk lr :
  trace (CopyZipsFunction.delete_objects (PStr (destination q)) (PStr (key_prefix q))
           (PList (names q)) (MkWorld st t mk lr)).2
  = t ++ [DeleteObjects (destination q) (keys_of q)] ∧
  s3 (CopyZipsFunction.delete_objects (PStr (destination q)) (PStr (key_prefix q))
        (PList (names q)) (MkWorld st t mk lr)).2
  = match st !! destination q with
    | Some dst => <[destination q := remove_keys (keys_of q) dst]> st
    | None => st
    end.
Proof.
  rewrite delete_objects_run. destruct (st !! destination q) as [dst|] eqn:Hdst;
    [|by split].
  unfold keys_of. destruct (names q); [|by split].
  split; [reflexivity|]. simpl. by rewrite insert_id.
Qed.

(** The copy path sends the copy requests in the order of the names and
    stops after the first one that fails. *)
Lemma copy_objects_run q objs : ∀ st t mk lr,
  ∃ n st' r,
    CopyZipsFunction.copy_objects (PStr (source q)) (PStr (destination q))
      (PStr (key_prefix q)) (PList objs) (MkWorld st t mk lr)
    = (r, MkWorld st' (t ++ take n (copy_request q <$> objs)) mk lr) ∧
    (n ≤ length objs)%nat ∧
    (r = inr tt → n = length objs).
Proof.
  unfold CopyZipsFunction.copy_objects. cbn [py_iter].
  induction objs as [|o objs IH]; intros st t mk lr.
  - exists 0, st, (inr tt). simpl. unfold ret. by rewrite app_nil_r.
  - cbn [for_each]. unfold bind at 1. rewrite copy_step_run.
    destruct (copy_result (source q) (destination q) (key_prefix q +:+ o) st)
      as [e|st1].
    + exists 1, st, (inl e). cbn [fmap list_fmap take length]. rewrite take_0.
      split; [reflexivity|]. split; [lia|]. intros ?; discriminate.
    + destruct (IH st1 (t ++ [copy_request q o]) mk lr) as (n & st' & r & Hrun & Hn & Hr).
      exists (S n), st', r. rewrite Hrun. cbn [fmap list_fmap take length].
      rewrite <- app_assoc. split; [reflexivity|]. split; [lia|].
      intros Hok. f_equal. by apply Hr.
Qed.

Lemma handler_responses ev ctx st mk lr :
  responses (trace (CopyZipsFunction.handler ev ctx (fresh st mk lr)).2)
  = [cfnresponse.responseBody ev ctx
       (copier_status (CopyZipsFunction.transfer ev (fresh st mk lr)).1)].
Proof.
  rewrite handler_run. cbn [snd trace].
  change (TimerStart ?d ev ctx :: ?l) with ([TimerStart d ev ctx] ++ l).
  unfold copier_tail. rewrite !responses_app.
  rewrite (responses_silent (trace _))
    by apply request_silent, storage_only_fresh, storage_only_transfer.
  rewrite (responses_silent (logged_exception _)) by apply silent_logged_exception.
  reflexivity.
Qed.

Lemma handler_statuses ev ctx st mk lr :
  statuses (trace (CopyZipsFunction.handler ev ctx (fresh st mk lr)).2)
  = [copier_status (CopyZipsFunction.transfer ev (fresh st mk lr)).1].
Proof. unfold statuses. by rewrite handler_responses. Qed.

Lemma handler_logged ev ctx st mk lr :
  logged (trace (CopyZipsFunction.handler ev ctx (fresh st mk lr)).2)
  = match (CopyZipsFunction.transfer ev (fresh st mk lr)).1 with
    | inl e => [e]
    | inr _ => []
    end.
Proof.
  rewrite handler_run. cbn [snd trace].
  change (TimerStart ?d ev ctx :: ?l) with ([TimerStart d ev ctx] ++ l).
  rewrite !logged_app, (logged_requests (trace _))
    by apply storage_only_fresh, storage_only_transfer.
  by destruct (CopyZipsFunction.transfer ev (fresh st mk lr)).1.
Qed.

Lemma not_delete kind : kind ≠ "Delete" → String.eqb kind "Delete" = false.
Proof. intros H. by apply String.eqb_neq. Qed.

(** The requests of the copy path are the copies of the names that
    [attempted] lists; its result and the store it leaves are those of
    [copy_all]. *)
Lemma copy_objects_attempted q objs : ∀ st t mk lr,
  CopyZipsFunction.copy_objects (PStr (source q)) (PStr (destination q))
    (PStr (key_prefix q)) (PList objs) (MkWorld st t mk lr)
  = ((copy_all (source q) (destination q) (key_prefix q) objs st).1,
     MkWorld (copy_all (source q) (destination q) (key_prefix q) objs st).2
       (t ++ (copy_request q
                <$> attempted (source q) (destination q) (key_prefix q) objs st))
       mk lr).
Proof.
  unfold CopyZipsFunction.copy_objects. cbn [py_iter].
  induction objs as [|o objs IH]; intros st t mk lr.
  - simpl. unfold ret. by rewrite app_nil_r.
  - cbn [for_each copy_all attempted]. unfold bind at 1. rewrite copy_step_run.
    destruct (copy_result (source q) (destination q) (key_prefix q +:+ o) st)
      as [e|st1]; [reflexivity|].
    rewrite IH. cbn [fmap list_fmap]. by rewrite <- app_assoc.
Qed.

(** Either every copy succeeds, or there is a first name whose copy
    fails. *)
Lemma copy_all_cases sb db p objs : ∀ st,
  ((copy_all sb db p objs st).1 = inr tt ∧ attempted sb db p objs st = objs)
  ∨ ∃ pre o post e,
      objs = pre ++ o :: post ∧
      (copy_all sb db p pre st).1 = inr tt ∧
      copy_result sb db (p +:+ o) (copy_all sb db p pre st).2 = inl e ∧
      (copy_all sb db p objs st).1 = inl e ∧
      (copy_all sb db p objs st).2 = (copy_all sb db p pre st).2 ∧
      attempted sb db p objs st = pre ++ [o].
Proof.
  induction objs as [|o objs IH]; intros st; [by left|].
  cbn [copy_all attempted].
  destruct (copy_result sb db (p +:+ o) st) as [e|st1] eqn:Hstep.
  - right. exists [], o, objs, e. by repeat split.
  - destruct (IH st1) as [[Hok Hatt]|(pre & o' & post & e & -> & Hpre & Ho & Hr & Hs & Hatt)].
    + left. by rewrite Hok, Hatt.
    + right. exists (o :: pre), o', post, e. cbn [copy_all]. rewrite Hstep.
      by rewrite Hatt.
Qed.

(** C8, as amended.  On [Create] and [Update] the copier sends one copy
    request per name, in the order of the names of the request, and stops
    after the first one that fails: either every copy succeeds, the
    requests are the copies of all the names in their order and the run
    reports [SUCCESS]; or there is a first name [o] whose copy fails, the
    requests are the copies of the names before [o], in their order, and
    then the copy of [o], and the run reports [FAILED].  On [Delete] it
    sends one single batch request for all the names; the keys of the
    batch are in the order of the names, and the store removes them in that
    order.  The keys are taken to be well formed (not empty). *)
Theorem transfer_requests_in_order ev ctx q st mk lr :
  carries ev q →
  Forall (λ k, k ≠ "") (keys_of q) →
  (RequestType ev ≠ "Delete" →
   ((copy_all (source q) (destination q) (key_prefix q) (names q) st).1 = inr tt ∧
    statuses (trace (CopyZipsFunction.handler ev ctx (fresh st mk lr)).2) = ["SUCCESS"] ∧
    requests (trace (CopyZipsFunction.handler ev ctx (fresh st mk lr)).2)
    = copy_request q <$> names q)
   ∨ ∃ pre o post e,
       names q = pre ++ o :: post ∧
       (copy_all (source q) (destination q) (key_prefix q) pre st).1 = inr tt ∧
       copy_result (source q) (destination q) (key_prefix q +:+ o)
         (copy_all (source q) (destination q) (key_prefix q) pre st).2 = inl e ∧
       statuses (trace (CopyZipsFunction.handler ev ctx (fresh st mk lr)).2) = ["FAILED"] ∧
       requests (trace (CopyZipsFunction.handler ev ctx (fresh st mk lr)).2)
       = copy_request q <$> (pre ++ [o])) ∧
  (RequestType ev = "Delete" →
   requests (trace (CopyZipsFunction.handler ev ctx (fresh st mk lr)).2)
   = [DeleteObjects (destination q) (keys_of q)] ∧
   ∀ dst, st !! destination q = Some dst →
          s3 (CopyZipsFunction.handler ev ctx (fresh st mk lr)).2
          = <[destination q := remove_keys (keys_of q) dst]> st).
Proof.
  intros Hq _.
  destruct (handler_storage ev ctx st mk lr) as [Hreq Hs3].
  rewrite Hreq, Hs3, handler_statuses.
  rewrite (transfer_carries ev q _ Hq). split.
  - intros Hkind. rewrite (not_delete _ Hkind). unfold fresh.
    rewrite copy_objects_attempted. cbn [fst snd trace app].
    destruct (copy_all_cases (source q) (destination q) (key_prefix q) (names q) st)
      as [[Hok Hatt]|(pre & o & post & e & Hnames & Hpre & Ho & Hr & _ & Hatt)].
    + left. by rewrite Hok, Hatt.
    + right. exists pre, o, post, e. by rewrite Hr, Hatt.
  - intros Hkind. rewrite Hkind. cbn [String.eqb Ascii.eqb Bool.eqb]. unfold fresh.
    destruct (delete_objects_store q st [] mk lr) as [-> ->].
    split; [reflexivity|]. by intros dst ->.
Qed.

Lemma transfer_requests_in_order_witness :
  carries (sample_event "Create" sample_transfer) sample_request ∧
  Forall (λ k, k ≠ "") (keys_of sample_request) ∧
  RequestType (sample_event "Create" sample_transfer) ≠ "Delete" ∧
  (((copy_all (source sample_request) (destination sample_request)
       (key_prefix sample_request) (names sample_request) sample_store).1 = inr tt ∧
    statuses (trace (CopyZipsFunction.handler (sample_event "Create" sample_transfer)
                       sample_context (fresh sample_store 1000 false)).2) = ["SUCCESS"] ∧
    requests (trace (CopyZipsFunction.handler (sample_event "Create" sample_transfer)
                       sample_context (fresh sample_store 1000 false)).2)
    = copy_request sample_request <$> names sample_request)
   ∨ ∃ pre o post e,
       names sample_request = pre ++ o :: post ∧
       (copy_all (source sample_request) (destination sample_request)
          (key_prefix sample_request) pre sample_store).1 = inr tt ∧
       copy_result (source sample_request) (destination sample_request)
         (key_prefix sample_request +:+ o)
         (copy_all (source sample_request) (destination sample_request)
            (key_prefix sample_request) pre sample_store).2 = inl e ∧
       statuses (trace (CopyZipsFunction.handler (sample_event "Create" sample_transfer)
                          sample_context (fresh sample_store 1000 false)).2)
       = ["FAILED"] ∧
       requests (trace (CopyZipsFunction.handler (sample_event "Create" sample_transfer)
                          sample_context (fresh sample_store 1000 false)).2)
       = copy_request sample_request <$> (pre ++ [o])).
Proof.
  assert (H1 : carries (sample_event "Create" sample_transfer) sample_request)
    by (repeat split; reflexivity).
  assert (H2 : RequestType (sample_event "Create" sample_transfer) ≠ "Delete")
    by discriminate.
  assert (H0 : Forall (λ k, k ≠ "") (keys_of sample_request))
    by (repeat constructor; discriminate).
  split; [assumption|]. split; [exact H0|]. split; [assumption|].
  exact (proj1 (transfer_requests_in_order (sample_event "Create" sample_transfer)
                  sample_context sample_request sample_store 1000 false H1 H0) H2).
Defined.

(** C8 as stated fails on [Delete]: for the two names of the sample
    request the copier sends one request to the object store, not one per
    name. *)
Lemma delete_is_one_request :
  requests (trace (CopyZipsFunction.handler (sample_event "Delete" sample_transfer)
                     sample_context (fresh sample_store 1000 false)).2)
  = [DeleteObjects "dst" ["artifacts/a.sh"; "artifacts/b.sh"]] ∧
  length (requests (trace (CopyZipsFunction.handler (sample_event "Delete" sample_transfer)
                             sample_context (fresh sample_store 1000 false)).2))
  ≠ length (names sample_request).
Proof. split; [vm_compute; reflexivity | vm_compute; discriminate]. Qed.

(** ** What the delete-by-name path touches *)

Lemma filter_key_drop k k' v rs :
  k' ≠ k →
  filter (λ r, rkey r = k') (drop_revision k v rs) = filter (λ r, rkey r = k') rs.
Proof.
  intros Hne. unfold drop_revision. rewrite list_filter_filter.
  apply list_filter_iff. intros r. unfold ident. split; [by intros [? _]|].
  intros Hr. split; [exact Hr|]. intros [= Hk _]. congruence.
Qed.

Lemma remove_key_other k k' bk :
  k' ≠ k →
  filter (λ r, rkey r = k') (revisions (remove_key k bk))
  = filter (λ r, rkey r = k') (revisions bk).
Proof.
  intros Hne. unfold remove_key, write_revision.
  destruct (versioning bk); cbn [revisions].
  - by apply filter_key_drop.
  - rewrite filter_cons_False by (simpl; congruence). reflexivity.
  - rewrite filter_cons_False by (simpl; congruence). by apply filter_key_drop.
Qed.

Lemma remove_keys_other ks k' : ∀ bk,
  k' ∉ ks →
  filter (λ r, rkey r = k') (revisions (remove_keys ks bk))
  = filter (λ r, rkey r = k') (revisions bk).
Proof.
  induction ks as [|k ks IH]; intros bk Hnot; [reflexivity|].
  apply not_elem_of_cons in Hnot as [Hne Hnot].
  cbn [remove_keys foldl]. fold (remove_keys ks (remove_key k bk)).
  rewrite IH by exact Hnot. by apply remove_key_other.
Qed.

(** C9, as amended.  On [Delete] the only request the copier sends is the
    batch removal addressed to the destination bucket; every other bucket
    is as it was, so the source bucket is unchanged whenever it is not the
    destination bucket itself; and in the destination bucket the revisions
    of every key that is not [prefix + name] for a listed name are as they
    were. *)
Theorem delete_path_frame ev ctx q st mk lr :
  RequestType ev = "Delete" →
  carries ev q →
  source q ≠ destination q →
  s3 (CopyZipsFunction.handler ev ctx (fresh st mk lr)).2 !! source q = st !! source q ∧
  requests (trace (CopyZipsFunction.handler ev ctx (fresh st mk lr)).2)
  = [DeleteObjects (destination q) (keys_of q)] ∧
  (∀ b, b ≠ destination q →
        s3 (CopyZipsFunction.handler ev ctx (fresh st mk lr)).2 !! b = st !! b) ∧
  (∀ dst, st !! destination q = Some dst →
     ∃ dst',
       s3 (CopyZipsFunction.handler ev ctx (fresh st mk lr)).2 !! destination q
       = Some dst' ∧
       ∀ k, k ∉ keys_of q →
            filter (λ r, rkey r = k) (revisions dst')
            = filter (λ r, rkey r = k) (revisions dst)).
Proof.
  intros Hkind Hq Hne.
  destruct (handler_storage ev ctx st mk lr) as [Hreq Hs3].
  rewrite Hreq, Hs3, (transfer_carries ev q _ Hq), Hkind.
  cbn [String.eqb Ascii.eqb Bool.eqb]. unfold fresh.
  destruct (delete_objects_store q st [] mk lr) as [-> ->].
  assert (Hother : ∀ b, b ≠ destination q →
            match st !! destination q with
            | Some dst => <[destination q := remove_keys (keys_of q) dst]> st
            | None => st
            end !! b = st !! b).
  { intros b Hb. destruct (st !! destination q); [|reflexivity].
    by rewrite lookup_insert_ne. }
  split; [by apply Hother|]. split; [reflexivity|].
  split; [exact Hother|].
  intros dst Hdst. rewrite Hdst.
  exists (remove_keys (keys_of q) dst). split; [apply lookup_insert_eq|].
  intros k Hk. by apply remove_keys_other.
Qed.

Lemma delete_path_frame_witness :
  RequestType (sample_event "Delete" sample_transfer) = "Delete" ∧
  carries (sample_event "Delete" sample_transfer) sample_request ∧
  source sample_request ≠ destination sample_request ∧
  s3 (CopyZipsFunction.handler (sample_event "Delete" sample_transfer) sample_context
        (fresh sample_store 1000 false)).2 !! source sample_request
  = sample_store !! source sample_request.
Proof.
  assert (H1 : RequestType (sample_event "Delete" sample_transfer) = "Delete")
    by reflexivity.
  assert (H2 : carries (sample_event "Delete" sample_transfer) sample_request)
    by (repeat split; reflexivity).
  assert (H3 : source sample_request ≠ destination sample_request) by discriminate.
  do 3 (split; [assumption|]).
  exact (proj1 (delete_path_frame (sample_event "Delete" sample_transfer) sample_context
                  sample_request sample_store 1000 false H1 H2 H3)).
Defined.

(** C9 as stated fails when the request names one bucket as source and as
    destination: the [Delete] removes the two objects from it, so the
    source bucket is not as it was. *)
Lemma delete_changes_aliased_source :
  sample_store !! "src"
  = Some (plain_bucket [object "artifacts/a.sh" "A"; object "artifacts/b.sh" "B"]) ∧
  s3 (CopyZipsFunction.handler (sample_event "Delete" sample_alias) sample_context
        (fresh sample_store 1000 false)).2 !! "src"
  = Some (plain_bucket []) ∧
  s3 (CopyZipsFunction.handler (sample_event "Delete" sample_alias) sample_context
        (fresh sample_store 1000 false)).2 !! "src"
  ≠ sample_store !! "src".
Proof.
  split; [reflexivity|]. split; [vm_compute; reflexivity|].
  vm_compute. discriminate.
Qed.

(** ** Copy, then delete by name *)

Lemma filter_all {A} (P : A → Prop) `{∀ x, Decision (P x)} (l : list A) :
  Forall P l → filter P l = l.
Proof.
  induction 1 as [|x l Hx _ IH]; [reflexivity|].
  by rewrite filter_cons_True, IH.
Qed.

Lemma filter_none {A} (P : A → Prop) `{∀ x, Decision (P x)} (l : list A) :
  Forall (λ x, ¬ P x) l → filter P l = [].
Proof.
  induction 1 as [|x l Hx _ IH]; [reflexivity|].
  by rewrite filter_cons_False, IH.
Qed.

Lemma drop_revision_absent k v rs :
  Forall (λ r, rkey r ≠ k) rs → drop_revision k v rs = rs.
Proof.
  intros H. apply filter_all. eapply Forall_impl; [exact H|].
  intros r Hr [= Hk _]. by apply Hr.
Qed.

Lemma remove_keys_unversioned ks : ∀ bk,
  versioning bk = Unversioned →
  versioning (remove_keys ks bk) = Unversioned ∧
  next_vid (remove_keys ks bk) = next_vid bk ∧
  revisions (remove_keys ks bk)
  = filter (λ r, ¬ (rkey r ∈ ks ∧ rvid r = NullVersion)) (revisions bk).
Proof.
  induction ks as [|k ks IH]; intros bk Hv.
  - split; [exact Hv|]. split; [reflexivity|]. simpl. symmetry. apply filter_all.
    apply Forall_forall. intros r _ [Hr _]. by apply elem_of_nil in Hr.
  - cbn [remove_keys foldl]. fold (remove_keys ks (remove_key k bk)).
    assert (Hstep : remove_key k bk
                    = {| versioning := Unversioned;
                         revisions := drop_revision k NullVersion (revisions bk);
                         next_vid := next_vid bk |})
      by (unfold remove_key; by rewrite Hv).
    rewrite Hstep.
    destruct (IH {| versioning := Unversioned;
                    revisions := drop_revision k NullVersion (revisions bk);
                    next_vid := next_vid bk |} eq_refl) as (Hv' & Hn' & Hr').
    split; [exact Hv'|]. split; [exact Hn'|]. rewrite Hr'. cbn [revisions].
    unfold drop_revision. rewrite list_filter_filter. apply list_filter_iff.
    intros r. split.
    + intros [Hks Hk] [Hin Hnull]. apply elem_of_cons in Hin as [Heq|Hin].
      * apply Hk. unfold ident. by f_equal.
      * by apply Hks.
    + intros Hnot. split.
      * intros [Hin Hnull]. apply Hnot. split; [by right | exact Hnull].
      * unfold ident. intros [= Heq Hnull]. apply Hnot.
        split; [apply elem_of_cons; left; exact Heq | exact Hnull].
Qed.

(** The destination bucket [bk0] of a transfer with keys [ks]: it never had
    versioning and holds no revision at any of the keys. *)
Section RoundTrip.
Context (ks : list string) (bk0 : Bucket).
Hypothesis plain : versioning bk0 = Unversioned.
Hypothesis free : Forall (λ r, rkey r ∉ ks) (revisions bk0).

Lemma grown_from_start : grown_from ks bk0 bk0.
Proof. split; [exact plain|]. split; [reflexivity|]. by exists []. Qed.

Lemma write_revision_grown bk k body :
  k ∈ ks →
  grown_from ks bk0 bk →
  grown_from ks bk0 (write_revision k (Data body) bk).
Proof.
  intros Hk (Hv & Hn & new & Hrevs & Hnew).
  unfold write_revision. rewrite Hv. split; [reflexivity|]. split; [exact Hn|].
  cbn [revisions]. rewrite Hrevs.
  exists ({| rkey := k; rvid := NullVersion; rpayload := Data body |}
            :: drop_revision k NullVersion new).
  split.
  - unfold drop_revision at 1. rewrite filter_app.
    fold (drop_revision k NullVersion new).
    fold (drop_revision k NullVersion (revisions bk0)).
    rewrite (drop_revision_absent k NullVersion (revisions bk0)); [reflexivity|].
    eapply Forall_impl; [exact free|]. intros r Hr Heq. apply Hr. by rewrite Heq.
  - constructor; [by split|].
    apply Forall_forall. intros r [_ Hr]%list_elem_of_filter.
    revert r Hr. by apply Forall_forall.
Qed.

Lemma remove_keys_grown bk : grown_from ks bk0 bk → remove_keys ks bk = bk0.
Proof.
  intros (Hv & Hn & new & Hrevs & Hnew).
  destruct (remove_keys_unversioned ks bk Hv) as (Hv' & Hn' & Hr').
  rewrite Hrevs, filter_app in Hr'.
  rewrite filter_none, filter_all in Hr'.
  - destruct (remove_keys ks bk), bk0. simpl in *. congruence.
  - eapply Forall_impl; [exact free|]. intros r Hr [Hin _]. by apply Hr.
  - eapply Forall_impl; [exact Hnew|]. intros r Hr Hnot. by apply Hnot.
Qed.
End RoundTrip.

Lemma copy_objects_grown q mk lr dst objs :
  Forall (λ r, rkey r ∉ keys_of q) (revisions dst) →
  (∀ o, o ∈ objs → key_prefix q +:+ o ∈ keys_of q) →
  ∀ st t bk,
    st !! destination q = Some bk →
    grown_from (keys_of q) dst bk →
    ∃ bk',
      s3 (CopyZipsFunction.copy_objects (PStr (source q)) (PStr (destination q))
            (PStr (key_prefix q)) (PList objs) (MkWorld st t mk lr)).2
      = <[destination q := bk']> st ∧
      grown_from (keys_of q) dst bk'.
Proof.
  intros Hfree. unfold CopyZipsFunction.copy_objects. cbn [py_iter].
  induction objs as [|o objs IH]; intros Hkeys st t bk Hbk Hgrown.
  - exists bk. split; [|exact Hgrown]. simpl. by rewrite insert_id.
  - cbn [for_each]. unfold bind at 1. rewrite copy_step_run.
    unfold copy_result. rewrite Hbk.
    destruct (st !! source q) as [src|];
      [|exists bk; split; [simpl; by rewrite insert_id | exact Hgrown]].
    destruct (current_object (key_prefix q +:+ o) (revisions src)) as [body|];
      [|exists bk; split; [simpl; by rewrite insert_id | exact Hgrown]].
    destruct (IH (λ o' Ho', Hkeys o' (list_elem_of_further _ _ _ Ho'))
                (<[destination q := write_revision (key_prefix q +:+ o) (Data body) bk]> st)
                (t ++ [copy_request q o])
                (write_revision (key_prefix q +:+ o) (Data body) bk))
      as (bk' & Hs & Hg).
    + apply lookup_insert_eq.
    + apply write_revision_grown; [exact Hfree | | exact Hgrown].
      apply Hkeys. by left.
    + exists bk'. split; [|exact Hg]. rewrite Hs. apply insert_insert_eq.
Qed.

Lemma keys_of_names q o : o ∈ names q → key_prefix q +:+ o ∈ keys_of q.
Proof. intros Ho. unfold keys_of. by apply (list_elem_of_fmap_2 (λ o, key_prefix q +:+ o)). Qed.

(** C2, as amended.  A [Create] followed by a [Delete] for the same
    transfer request leaves the destination bucket exactly as it was before
    the [Create], and the whole store with it, provided that the bucket
    never had versioning and held no revision at any of the keys
    [prefix + name] of the request. *)
Theorem create_then_delete_restores evC evD ctx q st mk lr dst :
  RequestType evC = "Create" →
  RequestType evD = "Delete" →
  carries evC q →
  carries evD q →
  st !! destination q = Some dst →
  versioning dst = Unversioned →
  Forall (λ r, rkey r ∉ keys_of q) (revisions dst) →
  let created := (CopyZipsFunction.handler evC ctx (fresh st mk lr)).2 in
  let deleted := (CopyZipsFunction.handler evD ctx (fresh (s3 created) mk lr)).2 in
  s3 deleted !! destination q = st !! destination q ∧
  s3 deleted = st.
Proof.
  intros HkC HkD HqC HqD Hdst Hv Hfree. cbv zeta.
  assert (Hfinal :
    s3 (CopyZipsFunction.handler evD ctx
          (fresh (s3 (CopyZipsFunction.handler evC ctx (fresh st mk lr)).2) mk lr)).2
    = st); [|by rewrite Hfinal].
  destruct (handler_storage evC ctx st mk lr) as [_ HsC]. rewrite HsC.
  rewrite (transfer_carries evC q _ HqC), HkC. cbn [String.eqb Ascii.eqb Bool.eqb].
  destruct (copy_objects_grown q mk lr dst (names q) Hfree (keys_of_names q)
              st [] dst Hdst (grown_from_start _ _ Hv)) as (bk' & Hs & Hg).
  unfold fresh at 2. rewrite Hs.
  destruct (handler_storage evD ctx (<[destination q := bk']> st) mk lr) as [_ HsD].
  rewrite HsD, (transfer_carries evD q _ HqD), HkD.
  cbn [String.eqb Ascii.eqb Bool.eqb]. unfold fresh.
  destruct (delete_objects_store q (<[destination q := bk']> st) [] mk lr) as [_ ->].
  rewrite lookup_insert_eq.
  rewrite insert_insert_eq, (remove_keys_grown _ dst Hv Hfree bk' Hg).
  by apply insert_id.
Qed.

Lemma create_then_delete_restores_witness :
  RequestType (sample_event "Create" sample_transfer) = "Create" ∧
  RequestType (sample_event "Delete" sample_transfer) = "Delete" ∧
  carries (sample_event "Create" sample_transfer) sample_request ∧
  carries (sample_event "Delete" sample_transfer) sample_request ∧
  sample_store !! destination sample_request
  = Some (plain_bucket [object "readme.txt" "R"]) ∧
  versioning (plain_bucket [object "readme.txt" "R"]) = Unversioned ∧
  Forall (λ r, rkey r ∉ keys_of sample_request)
    (revisions (plain_bucket [object "readme.txt" "R"])) ∧
  s3 (CopyZipsFunction.handler (sample_event "Delete" sample_transfer) sample_context
        (fresh (s3 (CopyZipsFunction.handler (sample_event "Create" sample_transfer)
                      sample_context (fresh sample_store 1000 false)).2) 1000 false)).2
    !! destination sample_request
  = sample_store !! destination sample_request.
Proof.
  assert (H1 : RequestType (sample_event "Create" sample_transfer) = "Create")
    by reflexivity.
  assert (H2 : RequestType (sample_event "Delete" sample_transfer) = "Delete")
    by reflexivity.
  assert (H3 : carries (sample_event "Create" sample_transfer) sample_request)
    by (repeat split; reflexivity).
  assert (H4 : carries (sample_event "Delete" sample_transfer) sample_request)
    by (repeat split; reflexivity).
  assert (H5 : sample_store !! destination sample_request
               = Some (plain_bucket [object "readme.txt" "R"])) by reflexivity.
  assert (H6 : versioning (plain_bucket [object "readme.txt" "R"]) = Unversioned)
    by reflexivity.
  assert (H7 : Forall (λ r, rkey r ∉ keys_of sample_request)
                 (revisions (plain_bucket [object "readme.txt" "R"]))).
  { apply (bool_decide_unpack _). vm_compute. exact I. }
  do 7 (split; [assumption|]).
  exact (proj1 (create_then_delete_restores
                  (sample_event "Create" sample_transfer)
                  (sample_event "Delete" sample_transfer)
                  sample_context sample_request sample_store 1000 false
                  (plain_bucket [object "readme.txt" "R"]) H1 H2 H3 H4 H5 H6 H7)).
Defined.

(** C2 as stated fails when the destination already holds an object at one
    of the keys: the [Create] overwrites it and the [Delete] removes it, so
    the destination bucket ends without the object it had. *)
Lemma create_then_delete_loses_object :
  sample_store_taken !! "dst" = Some (plain_bucket [object "artifacts/a.sh" "OLD"]) ∧
  s3 (CopyZipsFunction.handler (sample_event "Delete" sample_transfer) sample_context
        (fresh (s3 (CopyZipsFunction.handler (sample_event "Create" sample_transfer)
                      sample_context (fresh sample_store_taken 1000 false)).2)
           1000 false)).2 !! "dst"
  = Some (plain_bucket []) ∧
  s3 (CopyZipsFunction.handler (sample_event "Delete" sample_transfer) sample_context
        (fresh (s3 (CopyZipsFunction.handler (sample_event "Create" sample_transfer)
                      sample_context (fresh sample_store_taken 1000 false)).2)
           1000 false)).2 !! "dst"
  ≠ sample_store_taken !! "dst".
Proof.
  split; [reflexivity|]. split; [vm_compute; reflexivity|].
  vm_compute. discriminate.
Qed.

(** ** A copy that fails *)

Lemma for_each_app {A} (l1 l2 : list A) (body : A → M unit) w :
  for_each (l1 ++ l2) body w
  = (do_ for_each l1 body; for_each l2 body) w.
Proof.
  revert w. induction l1 as [|x l1 IH]; intros w; [reflexivity|].
  cbn [app for_each]. unfold bind at 1 2 3.
  destruct (body x w) as [[e|[]] w1]; [reflexivity|]. rewrite IH. reflexivity.
Qed.

(** C6, as amended.  When the copies of the names before [o] succeed and
    the copy of [o] then fails with the exception [e], whatever the cause,
    the main path of the [Create] or [Update] run sends one response, with
    status [FAILED], and no other.  The response does not carry the error:
    its body is the same whatever [e] is, and its reason only points to the
    log stream; [e] is what the run writes to the log.  The requests it has
    sent are the copies of the names before [o] and the failed copy of
    [o], and none for the names after [o]; the store is as the copies
    before [o] left it.  The keys are taken to be well formed (not
    empty). *)
Theorem copy_failure_aborts ev ctx q st mk lr pre o post e :
  RequestType ev ≠ "Delete" →
  carries ev q →
  Forall (λ k, k ≠ "") (keys_of q) →
  names q = pre ++ o :: post →
  (CopyZipsFunction.copy_objects (PStr (source q)) (PStr (destination q))
     (PStr (key_prefix q)) (PList pre) (fresh st mk lr)).1 = inr tt →
  (CopyZipsFunction.copy_objects (PStr (source q)) (PStr (destination q))
     (PStr (key_prefix q)) (PList [o])
     (fresh (s3 (CopyZipsFunction.copy_objects (PStr (source q)) (PStr (destination q))
                   (PStr (key_prefix q)) (PList pre) (fresh st mk lr)).2) mk lr)).1
  = inl e →
  responses (trace (CopyZipsFunction.handler ev ctx (fresh st mk lr)).2)
  = [cfnresponse.responseBody ev ctx cfnresponse.FAILED] ∧
  logged (trace (CopyZipsFunction.handler ev ctx (fresh st mk lr)).2) = [e] ∧
  requests (trace (CopyZipsFunction.handler ev ctx (fresh st mk lr)).2)
  = copy_request q <$> (pre ++ [o]) ∧
  s3 (CopyZipsFunction.handler ev ctx (fresh st mk lr)).2
  = s3 (CopyZipsFunction.copy_objects (PStr (source q)) (PStr (destination q))
          (PStr (key_prefix q)) (PList pre) (fresh st mk lr)).2.
Proof.
  intros Hkind Hq _ Hnames Hpre Ho.
  destruct (handler_storage ev ctx st mk lr) as [Hreq Hs3].
  rewrite Hreq, Hs3, handler_responses, handler_logged.
  rewrite (transfer_carries ev q _ Hq), (not_delete _ Hkind), Hnames.
  destruct (copy_objects_run q pre st [] mk lr) as (n & st1 & r & Hrun & Hn & Hr).
  unfold fresh in *. rewrite Hrun in Hpre, Ho |- *. cbn [fst snd s3] in Hpre, Ho |- *.
  subst r. rewrite (Hr eq_refl), take_ge in Hrun by (by rewrite length_fmap).
  clear Hr Hn.
  assert (Hfail : copy_result (source q) (destination q) (key_prefix q +:+ o) st1 = inl e).
  { revert Ho. unfold CopyZipsFunction.copy_objects. cbn [py_iter for_each].
    unfold bind at 1. rewrite copy_step_run.
    destruct (copy_result (source q) (destination q) (key_prefix q +:+ o) st1);
      cbn; congruence. }
  assert (Hall : CopyZipsFunction.copy_objects (PStr (source q)) (PStr (destination q))
                   (PStr (key_prefix q)) (PList (pre ++ o :: post)) (MkWorld st [] mk lr)
                 = (inl e, MkWorld st1 (copy_request q <$> (pre ++ [o])) mk lr)).
  { unfold CopyZipsFunction.copy_objects in *. cbn [py_iter] in *.
    rewrite for_each_app. erewrite bind_run by exact Hrun.
    cbn [for_each]. unfold bind at 1. rewrite copy_step_run, Hfail.
    by rewrite fmap_app. }
  rewrite Hall. cbn [fst snd s3 trace copier_status]. done.
Qed.

Lemma copy_failure_aborts_witness :
  RequestType (sample_event "Create" sample_transfer_missing) ≠ "Delete" ∧
  carries (sample_event "Create" sample_transfer_missing) sample_request_missing ∧
  Forall (λ k, k ≠ "") (keys_of sample_request_missing) ∧
  names sample_request_missing = ["a.sh"] ++ "c.sh" :: ["b.sh"] ∧
  responses (trace (CopyZipsFunction.handler (sample_event "Create" sample_transfer_missing)
                      sample_context (fresh sample_store 1000 false)).2)
  = [cfnresponse.responseBody (sample_event "Create" sample_transfer_missing)
       sample_context cfnresponse.FAILED] ∧
  logged (trace (CopyZipsFunction.handler (sample_event "Create" sample_transfer_missing)
                   sample_context (fresh sample_store 1000 false)).2)
  = [ClientError "NoSuchKey"] ∧
  requests (trace (CopyZipsFunction.handler (sample_event "Create" sample_transfer_missing)
                     sample_context (fresh sample_store 1000 false)).2)
  = copy_request sample_request_missing <$> (["a.sh"] ++ ["c.sh"]).
Proof.
  assert (H1 : RequestType (sample_event "Create" sample_transfer_missing) ≠ "Delete")
    by discriminate.
  assert (H2 : carries (sample_event "Create" sample_transfer_missing)
                 sample_request_missing) by (repeat split; reflexivity).
  assert (H3 : names sample_request_missing = ["a.sh"] ++ "c.sh" :: ["b.sh"])
    by reflexivity.
  assert (H0 : Forall (λ k, k ≠ "") (keys_of sample_request_missing))
    by (repeat constructor; discriminate).
  split; [assumption|]. split; [assumption|]. split; [exact H0|].
  split; [assumption|].
  pose proof (copy_failure_aborts (sample_event "Create" sample_transfer_missing)
                sample_context sample_request_missing sample_store 1000 false
                ["a.sh"] "c.sh" ["b.sh"] (ClientError "NoSuchKey") H1 H2 H0 H3
                ltac:(vm_compute; reflexivity) ltac:(vm_compute; reflexivity))
    as (Ha & Hb & Hc & _).
  split; [exact Ha|]. split; [exact Hb | exact Hc].
Defined.

(** C6 as stated fails: the response does not tell the error.  The same
    request fails with [NoSuchKey] on the sample store, where the source
    bucket lacks the second object, and with [NoSuchBucket] on a store
    without any bucket; the two errors are logged, and the two responses
    are one and the same, with a reason that names the log stream only. *)
Lemma failed_response_hides_error :
  logged (trace (CopyZipsFunction.handler (sample_event "Create" sample_transfer_missing)
                   sample_context (fresh sample_store 1000 false)).2)
  = [ClientError "NoSuchKey"] ∧
  logged (trace (CopyZipsFunction.handler (sample_event "Create" sample_transfer_missing)
                   sample_context (fresh ∅ 1000 false)).2)
  = [ClientError "NoSuchBucket"] ∧
  responses (trace (CopyZipsFunction.handler
                      (sample_event "Create" sample_transfer_missing)
                      sample_context (fresh sample_store 1000 false)).2)
  = responses (trace (CopyZipsFunction.handler
                        (sample_event "Create" sample_transfer_missing)
                        sample_context (fresh ∅ 1000 false)).2) ∧
  rsp_Reason <$> responses (trace (CopyZipsFunction.handler
                                     (sample_event "Create" sample_transfer_missing)
                                     sample_context (fresh sample_store 1000 false)).2)
  = ["See the details in CloudWatch Log Stream: 2021/03/01/[$LATEST]abcdef"].
Proof. repeat split; vm_compute; reflexivity. Qed.

(** A source object that is missing is one cause of such a failure. *)
Lemma copy_of_missing_object q o st mk lr src dst :
  st !! source q = Some src →
  st !! destination q = Some dst →
  current_object (key_prefix q +:+ o) (revisions src) = None →
  (CopyZipsFunction.copy_objects (PStr (source q)) (PStr (destination q))
     (PStr (key_prefix q)) (PList [o]) (fresh st mk lr)).1
  = inl (ClientError "NoSuchKey").
Proof.
  intros Hsrc Hdst Hmissing.
  unfold CopyZipsFunction.copy_objects, fresh. cbn [py_iter for_each].
  unfold bind at 1. rewrite copy_step_run. unfold copy_result.
  by rewrite Hsrc, Hdst, Hmissing.
Qed.

(** ** The scenario of the two bootstrap scripts *)

Example sample_create_requests :
  requests (trace (CopyZipsFunction.handler (sample_event "Create" sample_transfer)
                     sample_context (fresh sample_store 1000 false)).2)
  = [CopyObject "src" "artifacts/a.sh" "dst" "artifacts/a.sh";
     CopyObject "src" "artifacts/b.sh" "dst" "artifacts/b.sh"].
Proof. vm_compute. reflexivity. Qed.

Example sample_create_store :
  s3 (CopyZipsFunction.handler (sample_event "Create" sample_transfer)
        sample_context (fresh sample_store 1000 false)).2 !! "dst"
  = Some (plain_bucket [object "artifacts/b.sh" "B"; object "artifacts/a.sh" "A";
                        object "readme.txt" "R"]).
Proof. vm_compute. reflexivity. Qed.

Example sample_delete_store :
  s3 (CopyZipsFunction.handler (sample_event "Delete" sample_transfer) sample_context
        (fresh (s3 (CopyZipsFunction.handler (sample_event "Create" sample_transfer)
                      sample_context (fresh sample_store 1000 false)).2) 1000 false)).2
    !! "dst"
  = Some (plain_bucket [object "readme.txt" "R"]).
Proof. vm_compute. reflexivity. Qed.

(** ** The copy path, bucket by bucket *)

Lemma newest_cons k r rs :
  newest k (r :: rs) = if decide (rkey r = k) then Some r else newest k rs.
Proof. unfold newest. rewrite filter_cons. by destruct (decide (rkey r = k)). Qed.

Lemma write_revision_versioning k pl bk :
  versioning (write_revision k pl bk) = versioning bk.
Proof. unfold write_revision. by destruct (versioning bk). Qed.

Lemma write_revision_other k k' pl bk :
  k' ≠ k →
  filter (λ r, rkey r = k') (revisions (write_revision k pl bk))
  = filter (λ r, rkey r = k') (revisions bk).
Proof.
  intros Hne. unfold write_revision.
  destruct (versioning bk); cbn [revisions];
    rewrite filter_cons_False by (simpl; congruence);
    first [by apply filter_key_drop | reflexivity].
Qed.

Lemma current_object_write k k' body bk :
  current_object k' (revisions (write_revision k (Data body) bk))
  = if decide (k' = k) then Some body else current_object k' (revisions bk).
Proof.
  destruct (decide (k' = k)) as [->|Hne].
  - unfold current_object, write_revision.
    destruct (versioning bk); cbn [revisions]; rewrite newest_cons; simpl;
      by rewrite decide_True.
  - unfold current_object, newest. by rewrite write_revision_other.
Qed.

Lemma for_each_cons {A} (x : A) l body w :
  for_each (x :: l) body w
  = match body x w with
    | (inr _, w') => for_each l body w'
    | (inl e, w') => (inl e, w')
    end.
Proof. reflexivity. Qed.

(** The store and the result of [copy_objects] are those of [copy_all]. *)
Lemma copy_objects_all q objs : ∀ st t mk lr,
  (CopyZipsFunction.copy_objects (PStr (source q)) (PStr (destination q))
     (PStr (key_prefix q)) (PList objs) (MkWorld st t mk lr)).1
  = (copy_all (source q) (destination q) (key_prefix q) objs st).1 ∧
  s3 (CopyZipsFunction.copy_objects (PStr (source q)) (PStr (destination q))
        (PStr (key_prefix q)) (PList objs) (MkWorld st t mk lr)).2
  = (copy_all (source q) (destination q) (key_prefix q) objs st).2.
Proof.
  unfold CopyZipsFunction.copy_objects. cbn [py_iter].
  induction objs as [|o objs IH]; intros st t mk lr; [by split|].
  rewrite for_each_cons, copy_step_run. cbn [copy_all].
  destruct (copy_result (source q) (destination q) (key_prefix q +:+ o) st)
    as [e|st1]; [by split|].
  apply IH.
Qed.

Lemma copy_result_other sb db k st st' b :
  copy_result sb db k st = inr st' → b ≠ db → st' !! b = st !! b.
Proof.
  unfold copy_result. intros H Hb.
  destruct (st !! sb) as [src|]; [|discriminate].
  destruct (st !! db) as [dst|]; [|discriminate].
  destruct (current_object k (revisions src)); [|discriminate].
  injection H as <-. by rewrite lookup_insert_ne.
Qed.

Lemma copy_all_other sb db p objs b : ∀ st,
  b ≠ db → (copy_all sb db p objs st).2 !! b = st !! b.
Proof.
  induction objs as [|o objs IH]; intros st Hb; [reflexivity|].
  cbn [copy_all].
  destruct (copy_result sb db (p +:+ o) st) as [e|st1] eqn:Hstep; [reflexivity|].
  rewrite IH by exact Hb. by eapply copy_result_other.
Qed.

Lemma copy_all_no_bucket sb db p objs st :
  st !! sb = None ∨ st !! db = None → (copy_all sb db p objs st).2 = st.
Proof.
  intros H. destruct objs as [|o objs]; [reflexivity|].
  cbn [copy_all]. unfold copy_result.
  destruct H as [-> | H]; [reflexivity|].
  rewrite H. by destruct (st !! sb).
Qed.

(** In the destination bucket the copies touch the keys [p + o] only, and
    never its versioning status. *)
Lemma copy_all_dest sb db p objs : ∀ st dst,
  st !! db = Some dst →
  ∃ dst',
    (copy_all sb db p objs st).2 !! db = Some dst' ∧
    versioning dst' = versioning dst ∧
    ∀ k, k ∉ (λ o, p +:+ o) <$> objs →
         filter (λ r, rkey r = k) (revisions dst')
         = filter (λ r, rkey r = k) (revisions dst).
Proof.
  induction objs as [|o objs IH]; intros st dst Hdst.
  - exists dst. by repeat split.
  - cbn [copy_all]. unfold copy_result. rewrite Hdst.
    destruct (st !! sb) as [src|]; [|exists dst; by repeat split].
    destruct (current_object (p +:+ o) (revisions src)) as [body|];
      [|exists dst; by repeat split].
    destruct (IH (<[db := write_revision (p +:+ o) (Data body) dst]> st)
                (write_revision (p +:+ o) (Data body) dst))
      as (dst' & Hl & Hv & Hk); [apply lookup_insert_eq|].
    exists dst'. split; [exact Hl|]. split.
    + by rewrite Hv, write_revision_versioning.
    + intros k Hnot. rewrite fmap_cons in Hnot.
      apply not_elem_of_cons in Hnot as [Hne Hnot].
      rewrite Hk by exact Hnot. by apply write_revision_other.
Qed.

(** The current objects of the two buckets after the copies, whether the
    source is another bucket or the destination itself. *)
Lemma copy_all_objects sb db p objs : ∀ st src dst,
  st !! sb = Some src →
  st !! db = Some dst →
  ∃ src' dst',
    (copy_all sb db p objs st).2 !! sb = Some src' ∧
    (copy_all sb db p objs st).2 !! db = Some dst' ∧
    (∀ k, current_object k (revisions src') = current_object k (revisions src)) ∧
    ((copy_all sb db p objs st).1 = inr tt ↔ all_present p objs src) ∧
    ((copy_all sb db p objs st).1 = inr tt →
     ∀ o, o ∈ objs →
          current_object (p +:+ o) (revisions dst')
          = current_object (p +:+ o) (revisions src)) ∧
    (∀ k, k ∉ (λ o, p +:+ o) <$> objs →
          current_object k (revisions dst') = current_object k (revisions dst)).
Proof.
  induction objs as [|o objs IH]; intros st src dst Hsrc Hdst.
  - exists src, dst. cbn [copy_all snd fst]. repeat split; try done.
    + intros _. constructor.
    + intros _ o Ho. by apply elem_of_nil in Ho.
  - cbn [copy_all]. unfold copy_result. rewrite Hsrc, Hdst.
    destruct (current_object (p +:+ o) (revisions src)) as [body|] eqn:Hbody.
    + set (dst1 := write_revision (p +:+ o) (Data body) dst).
      assert (∃ src1, <[db := dst1]> st !! sb = Some src1 ∧
                ∀ k, current_object k (revisions src1)
                     = current_object k (revisions src)) as (src1 & Hsrc1 & Hsame).
      { destruct (decide (sb = db)) as [->|Hne].
        - exists dst1. split; [apply lookup_insert_eq|].
          assert (src = dst) as -> by congruence.
          intros k. unfold dst1. rewrite current_object_write.
          destruct (decide (k = p +:+ o)) as [->|]; [by rewrite Hbody | reflexivity].
        - exists src. split; [by rewrite lookup_insert_ne | reflexivity]. }
      destruct (IH (<[db := dst1]> st) src1 dst1 Hsrc1 (lookup_insert_eq _ _ _))
        as (src' & dst' & Hs' & Hd' & Hcur & Hiff & Hobj & Hrest).
      assert (Hpres : all_present p objs src1 ↔ all_present p objs src).
      { unfold all_present. apply Forall_iff. intros o'. by rewrite Hsame. }
      exists src', dst'. split; [exact Hs'|]. split; [exact Hd'|].
      split; [intros k; by rewrite Hcur|]. split; [|split].
      * rewrite Hiff, Hpres. unfold all_present. rewrite Forall_cons.
        rewrite Hbody. split; [by split | by intros [_ ?]].
      * intros Hok o' Ho'.
        destruct (decide (p +:+ o' ∈ (λ o, p +:+ o) <$> objs)) as [Hin|Hnot].
        -- apply list_elem_of_fmap in Hin as (o'' & Heq & Hin).
           rewrite Heq, (Hobj Hok o'' Hin). apply Hsame.
        -- apply elem_of_cons in Ho' as [->|Ho'].
           ++ rewrite (Hrest _ Hnot). unfold dst1. rewrite current_object_write.
              by rewrite decide_True, Hbody.
           ++ exfalso. apply Hnot. by apply (list_elem_of_fmap_2 (λ o, p +:+ o)).
      * intros k Hnot. rewrite fmap_cons in Hnot.
        apply not_elem_of_cons in Hnot as [Hne Hnot].
        rewrite (Hrest k Hnot). unfold dst1. rewrite current_object_write.
        by rewrite decide_False.
    + exists src, dst. cbn [snd fst]. repeat split; try done.
      intros H. unfold all_present in H. apply Forall_cons in H as [Hsome _].
      rewrite Hbody in Hsome. by destruct Hsome.
Qed.

Lemma copy_all_distinct sb db p objs : ∀ st src dst,
  sb ≠ db →
  st !! sb = Some src →
  st !! db = Some dst →
  (copy_all sb db p objs st).2 = <[db := written src p objs dst]> st.
Proof.
  induction objs as [|o objs IH]; intros st src dst Hne Hsrc Hdst.
  - simpl. by rewrite insert_id.
  - cbn [copy_all written]. unfold copy_result. rewrite Hsrc, Hdst.
    destruct (current_object (p +:+ o) (revisions src)) as [body|];
      [|simpl; by rewrite insert_id].
    rewrite (IH _ src (write_revision (p +:+ o) (Data body) dst) Hne).
    + apply insert_insert_eq.
    + by rewrite lookup_insert_ne.
    + apply lookup_insert_eq.
Qed.

(** Whether the copies succeed depends on the source bucket only. *)
Lemma copy_all_result_same sb db p objs : ∀ st1 st2 src,
  sb ≠ db →
  st1 !! sb = Some src →
  st2 !! sb = Some src →
  is_Some (st1 !! db) →
  is_Some (st2 !! db) →
  (copy_all sb db p objs st1).1 = (copy_all sb db p objs st2).1.
Proof.
  induction objs as [|o objs IH]; intros st1 st2 src Hne H1 H2 [d1 Hd1] [d2 Hd2];
    [reflexivity|].
  cbn [copy_all]. unfold copy_result. rewrite H1, H2, Hd1, Hd2.
  destruct (current_object (p +:+ o) (revisions src)) as [body|]; [|reflexivity].
  apply (IH _ _ src Hne).
  - by rewrite lookup_insert_ne.
  - by rewrite lookup_insert_ne.
  - rewrite lookup_insert_eq. eauto.
  - rewrite lookup_insert_eq. eauto.
Qed.

Lemma written_plain_spec src p objs : ∀ dst,
  versioning dst = Unversioned →
  written src p objs dst
  = {| versioning := Unversioned;
       revisions := written_plain src p objs (revisions dst);
       next_vid := next_vid dst |}.
Proof.
  induction objs as [|o objs IH]; intros dst Hv.
  - destruct dst. simpl in *. by subst.
  - cbn [written written_plain].
    destruct (current_object (p +:+ o) (revisions src)) as [body|].
    + unfold write_revision. rewrite Hv. by rewrite IH.
    + destruct dst. simpl in *. by subst.
Qed.

(** The writes put their revisions in front of what the bucket held at
    other keys. *)
Lemma written_plain_split src p objs : ∀ rs,
  written_plain src p objs rs
  = written_plain src p objs []
      ++ filter (λ r, ident r ∉ (λ k, (k, NullVersion)) <$> written_keys src p objs) rs.
Proof.
  induction objs as [|o objs IH]; intros rs.
  - simpl. symmetry. apply filter_all, Forall_forall. intros r _ Hr.
    by apply elem_of_nil in Hr.
  - cbn [written_plain written_keys].
    destruct (current_object (p +:+ o) (revisions src)) as [body|].
    + rewrite IH. symmetry. rewrite IH. symmetry.
      change (drop_revision (p +:+ o) NullVersion []) with (@nil Revision).
      rewrite <- app_assoc. f_equal.
      change (?r :: drop_revision ?k ?v rs) with ([r] ++ drop_revision k v rs).
      rewrite filter_app. f_equal.
      unfold drop_revision. rewrite list_filter_filter. apply list_filter_iff.
      intros r. rewrite fmap_cons, not_elem_of_cons. tauto.
    + simpl. symmetry. apply filter_all, Forall_forall. intros r _ Hr.
      by apply elem_of_nil in Hr.
Qed.

Lemma written_plain_keys src p objs : ∀ J rs,
  Forall (λ r, ident r ∈ J ++ ((λ k, (k, NullVersion)) <$> written_keys src p objs)) rs →
  Forall (λ r, ident r ∈ J ++ ((λ k, (k, NullVersion)) <$> written_keys src p objs))
    (written_plain src p objs rs).
Proof.
  induction objs as [|o objs IH]; intros J rs Hrs; [exact Hrs|].
  cbn [written_plain written_keys] in *.
  destruct (current_object (p +:+ o) (revisions src)) as [body|]; [|exact Hrs].
  rewrite fmap_cons in *. rewrite cons_middle, app_assoc in *.
  apply IH. constructor.
  - unfold ident. simpl. apply elem_of_app. left. apply elem_of_app. right.
    apply list_elem_of_singleton. reflexivity.
  - apply Forall_forall. intros r [_ Hr]%list_elem_of_filter.
    revert r Hr. by apply Forall_forall.
Qed.

Lemma written_plain_idem src p objs rs :
  written_plain src p objs (written_plain src p objs rs)
  = written_plain src p objs rs.
Proof.
  rewrite (written_plain_split src p objs (written_plain _ _ _ rs)).
  rewrite (written_plain_split src p objs rs).
  rewrite filter_app, list_filter_filter.
  rewrite (filter_none _ (written_plain src p objs [])).
  - simpl. f_equal. apply list_filter_iff. intros r. tauto.
  - eapply Forall_impl; [apply (written_plain_keys src p objs []); constructor|].
    intros r Hr Hnot. by apply Hnot.
Qed.

Lemma written_idem src p objs dst :
  versioning dst = Unversioned →
  written src p objs (written src p objs dst) = written src p objs dst.
Proof.
  intros Hv. rewrite (written_plain_spec src p objs dst Hv).
  rewrite written_plain_spec by reflexivity. cbn [revisions next_vid].
  by rewrite written_plain_idem.
Qed.

(** ** Every run of the copier, by the kind of the event *)

Lemma handler_copy_run ev ctx q st mk lr :
  RequestType ev ≠ "Delete" →
  carries ev q →
  s3 (CopyZipsFunction.handler ev ctx (fresh st mk lr)).2
  = (copy_all (source q) (destination q) (key_prefix q) (names q) st).2 ∧
  statuses (trace (CopyZipsFunction.handler ev ctx (fresh st mk lr)).2)
  = [copier_status (copy_all (source q) (destination q) (key_prefix q) (names q) st).1] ∧
  logged (trace (CopyZipsFunction.handler ev ctx (fresh st mk lr)).2)
  = match (copy_all (source q) (destination q) (key_prefix q) (names q) st).1 with
    | inl e => [e]
    | inr _ => []
    end.
Proof.
  intros Hkind Hq.
  destruct (handler_storage ev ctx st mk lr) as [_ Hs3].
  rewrite Hs3, handler_statuses, handler_logged.
  rewrite (transfer_carries ev q _ Hq), (not_delete _ Hkind). unfold fresh.
  destruct (copy_objects_all q (names q) st [] mk lr) as [-> ->]. done.
Qed.

Lemma handler_delete_run ev ctx q st mk lr :
  RequestType ev = "Delete" →
  carries ev q →
  s3 (CopyZipsFunction.handler ev ctx (fresh st mk lr)).2
  = match st !! destination q with
    | Some dst => <[destination q := remove_keys (keys_of q) dst]> st
    | None => st
    end ∧
  statuses (trace (CopyZipsFunction.handler ev ctx (fresh st mk lr)).2)
  = [match st !! destination q, names q with
     | Some _, _ :: _ => cfnresponse.SUCCESS
     | _, _ => cfnresponse.FAILED
     end] ∧
  logged (trace (CopyZipsFunction.handler ev ctx (fresh st mk lr)).2)
  = match st !! destination q, names q with
    | Some _, _ :: _ => []
    | Some _, [] => [ClientError "MalformedXML"]
    | None, _ => [ClientError "NoSuchBucket"]
    end ∧
  requests (trace (CopyZipsFunction.handler ev ctx (fresh st mk lr)).2)
  = [DeleteObjects (destination q) (keys_of q)].
Proof.
  intros Hkind Hq.
  destruct (handler_storage ev ctx st mk lr) as [Hreq Hs3].
  rewrite Hreq, Hs3, handler_statuses, handler_logged.
  rewrite (transfer_carries ev q _ Hq), Hkind.
  cbn [String.eqb Ascii.eqb Bool.eqb]. unfold fresh.
  destruct (delete_objects_store q st [] mk lr) as [-> ->].
  rewrite delete_objects_run.
  destruct (st !! destination q); [|done]. by destruct (names q).
Qed.

(** A [Delete] with an empty list of objects: the batch without keys is
    sent and refused, the run logs the error and reports [FAILED], and the
    store is as it was. *)
Example delete_of_nothing_fails :
  requests (trace (CopyZipsFunction.handler (sample_event "Delete" sample_transfer_empty)
                     sample_context (fresh sample_store 1000 false)).2)
  = [DeleteObjects "dst" []] ∧
  logged (trace (CopyZipsFunction.handler (sample_event "Delete" sample_transfer_empty)
                   sample_context (fresh sample_store 1000 false)).2)
  = [ClientError "MalformedXML"] ∧
  statuses (trace (CopyZipsFunction.handler (sample_event "Delete" sample_transfer_empty)
                     sample_context (fresh sample_store 1000 false)).2)
  = ["FAILED"] ∧
  s3 (CopyZipsFunction.handler (sample_event "Delete" sample_transfer_empty)
        sample_context (fresh sample_store 1000 false)).2
  = sample_store.
Proof. repeat split; vm_compute; reflexivity. Qed.

(** ** What the copy path touches, and what it leaves in the destination *)

(** X1. On [Create] and [Update] the copier changes no bucket other than
    the destination; when the destination does not exist the whole store is
    as it was; and in the destination the versioning status is kept and the
    revisions of every key that is not [prefix + name] for a listed name are
    as they were. *)
Theorem copy_path_frame ev ctx q st mk lr :
  RequestType ev ≠ "Delete" →
  carries ev q →
  (∀ b, b ≠ destination q →
        s3 (CopyZipsFunction.handler ev ctx (fresh st mk lr)).2 !! b = st !! b) ∧
  (st !! destination q = None →
   s3 (CopyZipsFunction.handler ev ctx (fresh st mk lr)).2 = st) ∧
  (∀ dst, st !! destination q = Some dst →
     ∃ dst',
       s3 (CopyZipsFunction.handler ev ctx (fresh st mk lr)).2 !! destination q
       = Some dst' ∧
       versioning dst' = versioning dst ∧
       ∀ k, k ∉ keys_of q →
            filter (λ r, rkey r = k) (revisions dst')
            = filter (λ r, rkey r = k) (revisions dst)).
Proof.
  intros Hkind Hq.
  destruct (handler_copy_run ev ctx q st mk lr Hkind Hq) as (-> & _ & _).
  split; [|split].
  - intros b Hb. by apply copy_all_other.
  - intros Hnone. apply copy_all_no_bucket. by right.
  - intros dst Hdst. by apply copy_all_dest.
Qed.

Lemma copy_path_frame_witness :
  RequestType (sample_event "Create" sample_transfer) ≠ "Delete" ∧
  carries (sample_event "Create" sample_transfer) sample_request ∧
  s3 (CopyZipsFunction.handler (sample_event "Create" sample_transfer) sample_context
        (fresh sample_store 1000 false)).2 !! "src"
  = sample_store !! "src".
Proof.
  assert (H1 : RequestType (sample_event "Create" sample_transfer) ≠ "Delete")
    by discriminate.
  assert (H2 : carries (sample_event "Create" sample_transfer) sample_request)
    by (repeat split; reflexivity).
  do 2 (split; [assumption|]).
  apply (proj1 (copy_path_frame (sample_event "Create" sample_transfer) sample_context
                  sample_request sample_store 1000 false H1 H2)).
  discriminate.
Defined.

(** X2. When both buckets exist, a [Create] or [Update] reports [SUCCESS]
    exactly when the source bucket holds a current object at
    [prefix + name] for every listed name. *)
Theorem create_success_iff_present ev ctx q st mk lr src dst :
  RequestType ev ≠ "Delete" →
  carries ev q →
  st !! source q = Some src →
  st !! destination q = Some dst →
  statuses (trace (CopyZipsFunction.handler ev ctx (fresh st mk lr)).2)
  = [cfnresponse.SUCCESS]
  ↔ all_present (key_prefix q) (names q) src.
Proof.
  intros Hkind Hq Hsrc Hdst.
  destruct (handler_copy_run ev ctx q st mk lr Hkind Hq) as (_ & -> & _).
  destruct (copy_all_objects (source q) (destination q) (key_prefix q) (names q)
              st src dst Hsrc Hdst) as (_ & _ & _ & _ & _ & Hiff & _).
  rewrite <- Hiff.
  destruct (copy_all _ _ _ _ _).1 as [e|[]]; simpl; split; try done.
Qed.

Lemma create_success_iff_present_witness :
  RequestType (sample_event "Create" sample_transfer_missing) ≠ "Delete" ∧
  carries (sample_event "Create" sample_transfer_missing) sample_request_missing ∧
  sample_store !! source sample_request_missing
  = Some (plain_bucket [object "artifacts/a.sh" "A"; object "artifacts/b.sh" "B"]) ∧
  sample_store !! destination sample_request_missing
  = Some (plain_bucket [object "readme.txt" "R"]) ∧
  (statuses (trace (CopyZipsFunction.handler
                      (sample_event "Create" sample_transfer_missing) sample_context
                      (fresh sample_store 1000 false)).2)
   = [cfnresponse.SUCCESS]
   ↔ all_present (key_prefix sample_request_missing) (names sample_request_missing)
       (plain_bucket [object "artifacts/a.sh" "A"; object "artifacts/b.sh" "B"])).
Proof.
  assert (H1 : RequestType (sample_event "Create" sample_transfer_missing) ≠ "Delete")
    by discriminate.
  assert (H2 : carries (sample_event "Create" sample_transfer_missing)
                 sample_request_missing)
    by (repeat split; reflexivity).
  assert (H3 : sample_store !! source sample_request_missing
               = Some (plain_bucket [object "artifacts/a.sh" "A";
                                     object "artifacts/b.sh" "B"]))
    by reflexivity.
  assert (H4 : sample_store !! destination sample_request_missing
               = Some (plain_bucket [object "readme.txt" "R"]))
    by reflexivity.
  do 4 (split; [assumption|]).
  exact (create_success_iff_present (sample_event "Create" sample_transfer_missing)
           sample_context sample_request_missing sample_store 1000 false _ _
           H1 H2 H3 H4).
Defined.

(** X3. When both buckets exist and the source holds every listed object,
    then after a [Create] or [Update] the current object of the destination
    at [prefix + name] is the current object of the source at that key, for
    every listed name, and the current object at every other key of the
    destination is as it was.  This holds as well when the source and the
    destination are one bucket. *)
Theorem create_copies_objects ev ctx q st mk lr src dst :
  RequestType ev ≠ "Delete" →
  carries ev q →
  st !! source q = Some src →
  st !! destination q = Some dst →
  all_present (key_prefix q) (names q) src →
  ∃ dst',
    s3 (CopyZipsFunction.handler ev ctx (fresh st mk lr)).2 !! destination q
    = Some dst' ∧
    (∀ o, o ∈ names q →
          current_object (key_prefix q +:+ o) (revisions dst')
          = current_object (key_prefix q +:+ o) (revisions src)) ∧
    (∀ k, k ∉ keys_of q →
          current_object k (revisions dst') = current_object k (revisions dst)).
Proof.
  intros Hkind Hq Hsrc Hdst Hall.
  destruct (handler_copy_run ev ctx q st mk lr Hkind Hq) as (-> & _ & _).
  destruct (copy_all_objects (source q) (destination q) (key_prefix q) (names q)
              st src dst Hsrc Hdst) as (src' & dst' & _ & Hd' & _ & Hiff & Hobj & Hrest).
  exists dst'. split; [exact Hd'|]. split; [|exact Hrest].
  apply Hobj. by apply Hiff.
Qed.

Lemma create_copies_objects_witness :
  RequestType (sample_event "Create" sample_transfer) ≠ "Delete" ∧
  carries (sample_event "Create" sample_transfer) sample_request ∧
  sample_store_taken !! source sample_request
  = Some (plain_bucket [object "artifacts/a.sh" "A"; object "artifacts/b.sh" "B"]) ∧
  sample_store_taken !! destination sample_request
  = Some (plain_bucket [object "artifacts/a.sh" "OLD"]) ∧
  all_present (key_prefix sample_request) (names sample_request)
    (plain_bucket [object "artifacts/a.sh" "A"; object "artifacts/b.sh" "B"]) ∧
  ∃ dst',
    s3 (CopyZipsFunction.handler (sample_event "Create" sample_transfer) sample_context
          (fresh sample_store_taken 1000 false)).2 !! destination sample_request
    = Some dst' ∧
    (∀ o, o ∈ names sample_request →
          current_object (key_prefix sample_request +:+ o) (revisions dst')
          = current_object (key_prefix sample_request +:+ o)
              (revisions (plain_bucket [object "artifacts/a.sh" "A";
                                        object "artifacts/b.sh" "B"]))) ∧
    (∀ k, k ∉ keys_of sample_request →
          current_object k (revisions dst')
          = current_object k (revisions (plain_bucket [object "artifacts/a.sh" "OLD"]))).
Proof.
  assert (H1 : RequestType (sample_event "Create" sample_transfer) ≠ "Delete")
    by discriminate.
  assert (H2 : carries (sample_event "Create" sample_transfer) sample_request)
    by (repeat split; reflexivity).
  assert (H3 : sample_store_taken !! source sample_request
               = Some (plain_bucket [object "artifacts/a.sh" "A";
                                     object "artifacts/b.sh" "B"]))
    by reflexivity.
  assert (H4 : sample_store_taken !! destination sample_request
               = Some (plain_bucket [object "artifacts/a.sh" "OLD"]))
    by reflexivity.
  assert (H5 : all_present (key_prefix sample_request) (names sample_request)
                 (plain_bucket [object "artifacts/a.sh" "A";
                                object "artifacts/b.sh" "B"])).
  { repeat constructor; vm_compute; eauto. }
  do 5 (split; [assumption|]).
  exact (create_copies_objects (sample_event "Create" sample_transfer) sample_context
           sample_request sample_store_taken 1000 false _ _ H1 H2 H3 H4 H5).
Defined.

(** X4. A [Create] or [Update] that is run a second time on the store that
    the first run left, with a source bucket other than the destination and
    a destination that never had versioning, leaves the store exactly as
    the first run left it and reports the same status. *)
Theorem create_twice_same_store ev ctx q st mk lr :
  RequestType ev ≠ "Delete" →
  carries ev q →
  source q ≠ destination q →
  (∀ dst, st !! destination q = Some dst → versioning dst = Unversioned) →
  let once := (CopyZipsFunction.handler ev ctx (fresh st mk lr)).2 in
  let twice := (CopyZipsFunction.handler ev ctx (fresh (s3 once) mk lr)).2 in
  s3 twice = s3 once ∧
  statuses (trace twice) = statuses (trace once).
Proof.
  intros Hkind Hq Hne Hplain. cbv zeta.
  destruct (handler_copy_run ev ctx q st mk lr Hkind Hq) as (Hs1 & Ht1 & _).
  rewrite Hs1, Ht1.
  destruct (handler_copy_run ev ctx q
              (copy_all (source q) (destination q) (key_prefix q) (names q) st).2
              mk lr Hkind Hq) as (-> & -> & _).
  destruct (st !! source q) as [src|] eqn:Hsrc;
    [|by rewrite !(copy_all_no_bucket _ _ _ _ st) by (by left)].
  destruct (st !! destination q) as [dst|] eqn:Hdst;
    [|by rewrite !(copy_all_no_bucket _ _ _ _ st) by (by right)].
  rewrite (copy_all_distinct _ _ _ _ st src dst Hne Hsrc Hdst).
  split.
  - rewrite (copy_all_distinct _ _ _ _ _ src
               (written src (key_prefix q) (names q) dst) Hne).
    + rewrite insert_insert_eq. by rewrite written_idem by by apply Hplain.
    + by rewrite lookup_insert_ne.
    + apply lookup_insert_eq.
  - f_equal. f_equal.
    rewrite <- (copy_all_distinct _ _ _ _ st src dst Hne Hsrc Hdst).
    apply (copy_all_result_same _ _ _ _ _ _ src Hne).
    + rewrite copy_all_other by exact Hne. exact Hsrc.
    + exact Hsrc.
    + rewrite (copy_all_distinct _ _ _ _ st src dst Hne Hsrc Hdst).
      rewrite lookup_insert_eq. eauto.
    + eauto.
Qed.

Lemma create_twice_same_store_witness :
  RequestType (sample_event "Create" sample_transfer) ≠ "Delete" ∧
  carries (sample_event "Create" sample_transfer) sample_request ∧
  source sample_request ≠ destination sample_request ∧
  (∀ dst, sample_store_taken !! destination sample_request = Some dst →
          versioning dst = Unversioned) ∧
  s3 (CopyZipsFunction.handler (sample_event "Create" sample_transfer) sample_context
        (fresh (s3 (CopyZipsFunction.handler (sample_event "Create" sample_transfer)
                      sample_context (fresh sample_store_taken 1000 false)).2)
           1000 false)).2
  = s3 (CopyZipsFunction.handler (sample_event "Create" sample_transfer)
          sample_context (fresh sample_store_taken 1000 false)).2.
Proof.
  assert (H1 : RequestType (sample_event "Create" sample_transfer) ≠ "Delete")
    by discriminate.
  assert (H2 : carries (sample_event "Create" sample_transfer) sample_request)
    by (repeat split; reflexivity).
  assert (H3 : source sample_request ≠ destination sample_request) by discriminate.
  assert (H4 : ∀ dst, sample_store_taken !! destination sample_request = Some dst →
                      versioning dst = Unversioned).
  { intros dst [= <-]. reflexivity. }
  do 4 (split; [assumption|]).
  exact (proj1 (create_twice_same_store (sample_event "Create" sample_transfer)
                  sample_context sample_request sample_store_taken 1000 false
                  H1 H2 H3 H4)).
Defined.

(** ** Edge cases of the resource properties of the copier *)

Lemma transfer_properties ev sbv dbv pv ov w :
  ResourceProperties ev !! "SourceBucket" = Some sbv →
  ResourceProperties ev !! "DestBucket" = Some dbv →
  ResourceProperties ev !! "Prefix" = Some pv →
  ResourceProperties ev !! "Objects" = Some ov →
  CopyZipsFunction.transfer ev w
  = (if String.eqb (RequestType ev) "Delete"
     then CopyZipsFunction.delete_objects dbv pv ov
     else CopyZipsFunction.copy_objects sbv dbv pv ov) w.
Proof.
  intros H1 H2 H3 H4.
  unfold CopyZipsFunction.transfer, subscript, bind. by rewrite H1, H2, H3, H4.
Qed.

(** X5. A [Create] or [Update] with an empty list of objects sends no
    request at all, logs nothing, leaves the store as it was and reports
    [SUCCESS], whether or not the two buckets it names exist. *)
Theorem create_nothing_to_copy ev ctx q st mk lr :
  RequestType ev ≠ "Delete" →
  carries ev q →
  names q = [] →
  requests (trace (CopyZipsFunction.handler ev ctx (fresh st mk lr)).2) = [] ∧
  logged (trace (CopyZipsFunction.handler ev ctx (fresh st mk lr)).2) = [] ∧
  statuses (trace (CopyZipsFunction.handler ev ctx (fresh st mk lr)).2)
  = [cfnresponse.SUCCESS] ∧
  s3 (CopyZipsFunction.handler ev ctx (fresh st mk lr)).2 = st.
Proof.
  intros Hkind Hq Hnone.
  destruct (handler_storage ev ctx st mk lr) as [Hreq Hs3].
  rewrite Hreq, Hs3, handler_statuses, handler_logged.
  rewrite (transfer_carries ev q _ Hq), (not_delete _ Hkind), Hnone.
  by repeat split.
Qed.

Lemma create_nothing_to_copy_witness :
  RequestType (sample_event "Create" sample_transfer_empty) ≠ "Delete" ∧
  carries (sample_event "Create" sample_transfer_empty) sample_request_empty ∧
  names sample_request_empty = [] ∧
  statuses (trace (CopyZipsFunction.handler (sample_event "Create" sample_transfer_empty)
                     sample_context (fresh sample_store 1000 false)).2)
  = [cfnresponse.SUCCESS].
Proof.
  assert (H1 : RequestType (sample_event "Create" sample_transfer_empty) ≠ "Delete")
    by discriminate.
  assert (H2 : carries (sample_event "Create" sample_transfer_empty)
                 sample_request_empty)
    by (repeat split; reflexivity).
  assert (H3 : names sample_request_empty = []) by reflexivity.
  do 3 (split; [assumption|]).
  exact (proj1 (proj2 (proj2 (create_nothing_to_copy
           (sample_event "Create" sample_transfer_empty) sample_context
           sample_request_empty sample_store 1000 false H1 H2 H3)))).
Defined.

(** The characters of a string make up the string, and a character of
    more than one byte is one character. *)
Lemma code_points_concat s : String.concat "" (code_points s) = s.
Proof.
  induction s as [|c s IH]; [reflexivity|].
  cbn [code_points]. destruct (code_points s) as [|p ps]; [by subst|].
  destruct (continues p).
  - rewrite <- IH. cbn [String.concat]. by destruct ps.
  - rewrite <- IH. reflexivity.
Qed.

Example code_points_sample :
  code_points "a.sh" = ["a"; "."; "s"; "h"] ∧
  code_points "é.sh" = ["é"; "."; "s"; "h"].
Proof. split; reflexivity. Qed.

(** X6. When the property [Objects] is one string instead of a list, the
    copier takes each character of the string for an object name: a
    [Delete] sends one batch removal for the keys [prefix + c], a [Create]
    or [Update] sends the copy requests for the keys [prefix + c] in the
    order of the characters [c], all of them when every copy succeeds and
    otherwise up to and including the first that fails. *)
Theorem objects_string_by_character ev ctx sb db p s st mk lr :
  ResourceProperties ev !! "SourceBucket" = Some (PStr sb) →
  ResourceProperties ev !! "DestBucket" = Some (PStr db) →
  ResourceProperties ev !! "Prefix" = Some (PStr p) →
  ResourceProperties ev !! "Objects" = Some (PStr s) →
  let q := {| source := sb; destination := db; key_prefix := p;
              names := code_points s |} in
  let t := trace (CopyZipsFunction.handler ev ctx (fresh st mk lr)).2 in
  if String.eqb (RequestType ev) "Delete"
  then requests t = [DeleteObjects db (keys_of q)]
  else ((copy_all sb db p (names q) st).1 = inr tt ∧
        statuses t = [cfnresponse.SUCCESS] ∧
        requests t = copy_request q <$> names q)
       ∨ ∃ pre o post e,
           names q = pre ++ o :: post ∧
           (copy_all sb db p pre st).1 = inr tt ∧
           copy_result sb db (p +:+ o) (copy_all sb db p pre st).2 = inl e ∧
           statuses t = [cfnresponse.FAILED] ∧
           requests t = copy_request q <$> (pre ++ [o]).
Proof.
  intros H1 H2 H3 H4. cbv zeta.
  set (q := {| source := sb; destination := db; key_prefix := p;
               names := code_points s |}).
  destruct (handler_storage ev ctx st mk lr) as [Hreq _].
  rewrite Hreq, handler_statuses, (transfer_properties ev _ _ _ _ _ H1 H2 H3 H4).
  destruct (String.eqb (RequestType ev) "Delete").
  - change (CopyZipsFunction.delete_objects (PStr db) (PStr p) (PStr s))
      with (CopyZipsFunction.delete_objects (PStr (destination q))
              (PStr (key_prefix q)) (PList (names q))).
    unfold fresh. by destruct (delete_objects_store q st [] mk lr) as [-> _].
  - change (CopyZipsFunction.copy_objects (PStr sb) (PStr db) (PStr p) (PStr s))
      with (CopyZipsFunction.copy_objects (PStr (source q)) (PStr (destination q))
              (PStr (key_prefix q)) (PList (names q))).
    unfold fresh. rewrite copy_objects_attempted. cbn [fst snd trace app].
    destruct (copy_all_cases (source q) (destination q) (key_prefix q) (names q) st)
      as [[Hok Hatt]|(pre & o & post & e & Hnames & Hpre & Ho & Hr & _ & Hatt)].
    + left. by rewrite Hok, Hatt.
    + right. exists pre, o, post, e. by rewrite Hr, Hatt.
Qed.

Lemma objects_string_by_character_witness :
  ResourceProperties (sample_event "Delete" sample_transfer_string) !! "SourceBucket"
  = Some (PStr "src") ∧
  ResourceProperties (sample_event "Delete" sample_transfer_string) !! "DestBucket"
  = Some (PStr "dst") ∧
  ResourceProperties (sample_event "Delete" sample_transfer_string) !! "Prefix"
  = Some (PStr "artifacts/") ∧
  ResourceProperties (sample_event "Delete" sample_transfer_string) !! "Objects"
  = Some (PStr "a.sh") ∧
  requests (trace (CopyZipsFunction.handler (sample_event "Delete" sample_transfer_string)
                     sample_context (fresh sample_store 1000 false)).2)
  = [DeleteObjects "dst"
       ["artifacts/a"; "artifacts/."; "artifacts/s"; "artifacts/h"]].
Proof.
  do 4 (split; [reflexivity|]).
  exact (objects_string_by_character (sample_event "Delete" sample_transfer_string)
           sample_context "src" "dst" "artifacts/" "a.sh" sample_store 1000 false
           eq_refl eq_refl eq_refl eq_refl).
Defined.

(** X7. When the property [Prefix] is a list instead of a string and there
    is at least one object name, [prefix + o] raises [TypeError] for the
    first name: the copier sends no request on either path, logs the
    [TypeError], leaves the store as it was and reports [FAILED]. *)
Theorem prefix_list_type_error ev ctx sbv dbv l ov o os st mk lr :
  ResourceProperties ev !! "SourceBucket" = Some sbv →
  ResourceProperties ev !! "DestBucket" = Some dbv →
  ResourceProperties ev !! "Prefix" = Some (PList l) →
  ResourceProperties ev !! "Objects" = Some ov →
  py_iter ov = o :: os →
  requests (trace (CopyZipsFunction.handler ev ctx (fresh st mk lr)).2) = [] ∧
  logged (trace (CopyZipsFunction.handler ev ctx (fresh st mk lr)).2) = [TypeError] ∧
  statuses (trace (CopyZipsFunction.handler ev ctx (fresh st mk lr)).2)
  = [cfnresponse.FAILED] ∧
  s3 (CopyZipsFunction.handler ev ctx (fresh st mk lr)).2 = st.
Proof.
  intros H1 H2 H3 H4 Hiter.
  destruct (handler_storage ev ctx st mk lr) as [Hreq Hs3].
  rewrite Hreq, Hs3, handler_statuses, handler_logged.
  rewrite (transfer_properties ev _ _ _ _ _ H1 H2 H3 H4).
  destruct (String.eqb (RequestType ev) "Delete").
  - unfold CopyZipsFunction.delete_objects. rewrite Hiter. by repeat split.
  - unfold CopyZipsFunction.copy_objects. rewrite Hiter. by repeat split.
Qed.

Lemma prefix_list_type_error_witness :
  ResourceProperties (sample_event "Create" sample_transfer_prefix_list) !! "SourceBucket"
  = Some (PStr "src") ∧
  ResourceProperties (sample_event "Create" sample_transfer_prefix_list) !! "DestBucket"
  = Some (PStr "dst") ∧
  ResourceProperties (sample_event "Create" sample_transfer_prefix_list) !! "Prefix"
  = Some (PList ["artifacts/"]) ∧
  ResourceProperties (sample_event "Create" sample_transfer_prefix_list) !! "Objects"
  = Some (PList ["a.sh"]) ∧
  py_iter (PList ["a.sh"]) = ["a.sh"] ∧
  requests (trace (CopyZipsFunction.handler
                     (sample_event "Create" sample_transfer_prefix_list)
                     sample_context (fresh sample_store 1000 false)).2) = [].
Proof.
  do 5 (split; [reflexivity|]).
  exact (proj1 (prefix_list_type_error
                  (sample_event "Create" sample_transfer_prefix_list)
                  sample_context (PStr "src") (PStr "dst") ["artifacts/"]
                  (PList ["a.sh"]) "a.sh" [] sample_store 1000 false
                  eq_refl eq_refl eq_refl eq_refl eq_refl)).
Defined.

(** ** The delete-by-name path on its own *)

Lemma remove_keys_idem ks bk :
  versioning bk = Unversioned →
  remove_keys ks (remove_keys ks bk) = remove_keys ks bk.
Proof.
  intros Hv.
  destruct (remove_keys_unversioned ks bk Hv) as (Hv1 & Hn1 & Hr1).
  destruct (remove_keys_unversioned ks _ Hv1) as (Hv2 & Hn2 & Hr2).
  rewrite Hr1, list_filter_filter in Hr2.
  rewrite (list_filter_iff _ (λ r, ¬ (rkey r ∈ ks ∧ rvid r = NullVersion))) in Hr2
    by (intros r; tauto).
  rewrite <- Hr1 in Hr2.
  destruct (remove_keys ks (remove_keys ks bk)), (remove_keys ks bk).
  simpl in *. congruence.
Qed.

(** X8. A [Delete] that is run a second time on the store that the first
    run left, for a destination that never had versioning, leaves the store
    exactly as the first run left it and reports the same status. *)
Theorem delete_twice_same_store ev ctx q st mk lr :
  RequestType ev = "Delete" →
  carries ev q →
  (∀ dst, st !! destination q = Some dst → versioning dst = Unversioned) →
  let once := (CopyZipsFunction.handler ev ctx (fresh st mk lr)).2 in
  let twice := (CopyZipsFunction.handler ev ctx (fresh (s3 once) mk lr)).2 in
  s3 twice = s3 once ∧
  statuses (trace twice) = statuses (trace once).
Proof.
  intros Hkind Hq Hplain. cbv zeta.
  destruct (handler_delete_run ev ctx q st mk lr Hkind Hq) as (Hs1 & Ht1 & _).
  rewrite Hs1, Ht1.
  destruct (st !! destination q) as [dst|] eqn:Hdst.
  - destruct (handler_delete_run ev ctx q
                (<[destination q := remove_keys (keys_of q) dst]> st) mk lr Hkind Hq)
      as (-> & -> & _).
    rewrite lookup_insert_eq, insert_insert_eq.
    by rewrite remove_keys_idem by by apply Hplain.
  - destruct (handler_delete_run ev ctx q st mk lr Hkind Hq) as (-> & -> & _).
    by rewrite Hdst.
Qed.

Lemma delete_twice_same_store_witness :
  RequestType (sample_event "Delete" sample_transfer) = "Delete" ∧
  carries (sample_event "Delete" sample_transfer) sample_request ∧
  (∀ dst, sample_store_copied !! destination sample_request = Some dst →
          versioning dst = Unversioned) ∧
  s3 (CopyZipsFunction.handler (sample_event "Delete" sample_transfer) sample_context
        (fresh (s3 (CopyZipsFunction.handler (sample_event "Delete" sample_transfer)
                      sample_context (fresh sample_store_copied 1000 false)).2)
           1000 false)).2
  = s3 (CopyZipsFunction.handler (sample_event "Delete" sample_transfer)
          sample_context (fresh sample_store_copied 1000 false)).2.
Proof.
  assert (H1 : RequestType (sample_event "Delete" sample_transfer) = "Delete")
    by reflexivity.
  assert (H2 : carries (sample_event "Delete" sample_transfer) sample_request)
    by (repeat split; reflexivity).
  assert (H3 : ∀ dst, sample_store_copied !! destination sample_request = Some dst →
                      versioning dst = Unversioned).
  { intros dst [= <-]. reflexivity. }
  do 3 (split; [assumption|]).
  exact (proj1 (delete_twice_same_store (sample_event "Delete" sample_transfer)
                  sample_context sample_request sample_store_copied 1000 false
                  H1 H2 H3)).
Defined.

(** X9. A [Delete] for a list of at least one name, of which the
    destination, a bucket that never had versioning, holds none, leaves the
    whole store exactly as it was and still reports [SUCCESS]. *)
Theorem delete_absent_keys_noop ev ctx q st mk lr dst :
  RequestType ev = "Delete" →
  carries ev q →
  names q ≠ [] →
  st !! destination q = Some dst →
  versioning dst = Unversioned →
  Forall (λ r, rkey r ∉ keys_of q) (revisions dst) →
  s3 (CopyZipsFunction.handler ev ctx (fresh st mk lr)).2 = st ∧
  statuses (trace (CopyZipsFunction.handler ev ctx (fresh st mk lr)).2)
  = [cfnresponse.SUCCESS] ∧
  logged (trace (CopyZipsFunction.handler ev ctx (fresh st mk lr)).2) = [].
Proof.
  intros Hkind Hq Hnames Hdst Hv Hfree.
  destruct (handler_delete_run ev ctx q st mk lr Hkind Hq) as (-> & -> & -> & _).
  rewrite Hdst. split; [|by destruct (names q)].
  rewrite (remove_keys_grown _ dst Hv Hfree dst (grown_from_start _ _ Hv)).
  by apply insert_id.
Qed.

Lemma delete_absent_keys_noop_witness :
  RequestType (sample_event "Delete" sample_transfer) = "Delete" ∧
  carries (sample_event "Delete" sample_transfer) sample_request ∧
  names sample_request ≠ [] ∧
  sample_store !! destination sample_request
  = Some (plain_bucket [object "readme.txt" "R"]) ∧
  versioning (plain_bucket [object "readme.txt" "R"]) = Unversioned ∧
  Forall (λ r, rkey r ∉ keys_of sample_request)
    (revisions (plain_bucket [object "readme.txt" "R"])) ∧
  s3 (CopyZipsFunction.handler (sample_event "Delete" sample_transfer) sample_context
        (fresh sample_store 1000 false)).2 = sample_store.
Proof.
  assert (H1 : RequestType (sample_event "Delete" sample_transfer) = "Delete")
    by reflexivity.
  assert (H2 : carries (sample_event "Delete" sample_transfer) sample_request)
    by (repeat split; reflexivity).
  assert (H3 : sample_store !! destination sample_request
               = Some (plain_bucket [object "readme.txt" "R"])) by reflexivity.
  assert (H4 : versioning (plain_bucket [object "readme.txt" "R"]) = Unversioned)
    by reflexivity.
  assert (H5 : Forall (λ r, rkey r ∉ keys_of sample_request)
                 (revisions (plain_bucket [object "readme.txt" "R"]))).
  { apply (bool_decide_unpack _). vm_compute. exact I. }
  assert (H0 : names sample_request ≠ []) by discriminate.
  split; [assumption|]. split; [assumption|]. split; [exact H0|].
  do 3 (split; [assumption|]).
  exact (proj1 (delete_absent_keys_noop (sample_event "Delete" sample_transfer)
                  sample_context sample_request sample_store 1000 false _
                  H1 H2 H0 H3 H4 H5)).
Defined.

Lemma remove_key_versioning k bk : versioning (remove_key k bk) = versioning bk.
Proof.
  unfold remove_key. destruct (versioning bk) eqn:Hv; cbn [versioning]; try done;
    by rewrite write_revision_versioning.
Qed.

Lemma remove_key_null_only k bk :
  (versioning bk = Unversioned → null_only bk) →
  versioning (remove_key k bk) = Unversioned → null_only (remove_key k bk).
Proof.
  intros Hinv Hv'. rewrite remove_key_versioning in Hv'.
  specialize (Hinv Hv'). unfold remove_key, null_only in *. rewrite Hv'.
  cbn [revisions]. apply Forall_forall. intros r [_ Hr]%list_elem_of_filter.
  revert r Hr. by apply Forall_forall.
Qed.

Lemma remove_key_hides k bk :
  (versioning bk = Unversioned → null_only bk) →
  current_object k (revisions (remove_key k bk)) = None.
Proof.
  intros Hinv. unfold current_object, remove_key, write_revision.
  destruct (versioning bk) eqn:Hv; cbn [revisions].
  - unfold newest, drop_revision. rewrite list_filter_filter, filter_none; [done|].
    eapply Forall_impl; [exact (Hinv eq_refl)|].
    intros r Hnull [Hk Hne]. apply Hne. unfold ident. by rewrite Hk, Hnull.
  - rewrite newest_cons. simpl. by rewrite decide_True.
  - rewrite newest_cons. simpl. by rewrite decide_True.
Qed.

Lemma remove_keys_hide ks : ∀ bk k,
  (versioning bk = Unversioned → null_only bk) →
  k ∈ ks →
  current_object k (revisions (remove_keys ks bk)) = None.
Proof.
  induction ks as [|k0 ks IH]; intros bk k Hinv Hk; [by apply elem_of_nil in Hk|].
  cbn [remove_keys foldl]. fold (remove_keys ks (remove_key k0 bk)).
  destruct (decide (k ∈ ks)) as [Hin|Hnot].
  - apply IH; [by apply remove_key_null_only | exact Hin].
  - apply elem_of_cons in Hk as [->|Hk]; [|done].
    unfold current_object, newest. rewrite remove_keys_other by exact Hnot.
    by apply remove_key_hides.
Qed.

(** X10. After a [Delete] for a list of at least one name on an existing
    destination, no key [prefix + name] of a listed name has a current
    object in it, whatever the versioning status of the bucket, on
    condition that a bucket that never had versioning holds null revisions
    only; the run reports [SUCCESS]. *)
Theorem delete_hides_keys ev ctx q st mk lr dst :
  RequestType ev = "Delete" →
  carries ev q →
  names q ≠ [] →
  st !! destination q = Some dst →
  (versioning dst = Unversioned → null_only dst) →
  statuses (trace (CopyZipsFunction.handler ev ctx (fresh st mk lr)).2)
  = [cfnresponse.SUCCESS] ∧
  ∃ dst',
    s3 (CopyZipsFunction.handler ev ctx (fresh st mk lr)).2 !! destination q
    = Some dst' ∧
    ∀ k, k ∈ keys_of q → current_object k (revisions dst') = None.
Proof.
  intros Hkind Hq Hnames Hdst Hinv.
  destruct (handler_delete_run ev ctx q st mk lr Hkind Hq) as (-> & -> & _).
  rewrite Hdst. split; [by destruct (names q)|].
  exists (remove_keys (keys_of q) dst). split; [apply lookup_insert_eq|].
  intros k Hk. by apply remove_keys_hide.
Qed.

Lemma delete_hides_keys_witness :
  RequestType (sample_event "Delete" sample_transfer) = "Delete" ∧
  carries (sample_event "Delete" sample_transfer) sample_request ∧
  names sample_request ≠ [] ∧
  sample_store_copied !! destination sample_request
  = Some (plain_bucket [object "artifacts/b.sh" "B"; object "artifacts/a.sh" "A";
                        object "readme.txt" "R"]) ∧
  (versioning (plain_bucket [object "artifacts/b.sh" "B"; object "artifacts/a.sh" "A";
                             object "readme.txt" "R"]) = Unversioned →
   null_only (plain_bucket [object "artifacts/b.sh" "B"; object "artifacts/a.sh" "A";
                            object "readme.txt" "R"])) ∧
  statuses (trace (CopyZipsFunction.handler (sample_event "Delete" sample_transfer)
                     sample_context (fresh sample_store_copied 1000 false)).2)
  = [cfnresponse.SUCCESS].
Proof.
  assert (H1 : RequestType (sample_event "Delete" sample_transfer) = "Delete")
    by reflexivity.
  assert (H2 : carries (sample_event "Delete" sample_transfer) sample_request)
    by (repeat split; reflexivity).
  assert (H3 : sample_store_copied !! destination sample_request
               = Some (plain_bucket [object "artifacts/b.sh" "B";
                                     object "artifacts/a.sh" "A";
                                     object "readme.txt" "R"]))
    by reflexivity.
  assert (H4 : versioning (plain_bucket [object "artifacts/b.sh" "B";
                                         object "artifacts/a.sh" "A";
                                         object "readme.txt" "R"]) = Unversioned →
               null_only (plain_bucket [object "artifacts/b.sh" "B";
                                        object "artifacts/a.sh" "A";
                                        object "readme.txt" "R"]))
    by (intros _; repeat constructor).
  assert (H0 : names sample_request ≠ []) by discriminate.
  split; [assumption|]. split; [assumption|]. split; [exact H0|].
  do 2 (split; [assumption|]).
  exact (proj1 (delete_hides_keys (sample_event "Delete" sample_transfer)
                  sample_context sample_request sample_store_copied 1000 false _
                  H1 H2 H0 H3 H4)).
Defined.

(** X11. When the destination bucket does not exist, a [Delete], and a
    [Create] or [Update] with at least one name, report [FAILED] after
    exactly one request, log [NoSuchBucket] and leave the store as it
    was. *)
Theorem missing_destination_fails ev ctx q st mk lr :
  carries ev q →
  st !! destination q = None →
  RequestType ev = "Delete" ∨ names q ≠ [] →
  statuses (trace (CopyZipsFunction.handler ev ctx (fresh st mk lr)).2)
  = [cfnresponse.FAILED] ∧
  logged (trace (CopyZipsFunction.handler ev ctx (fresh st mk lr)).2)
  = [ClientError "NoSuchBucket"] ∧
  length (requests (trace (CopyZipsFunction.handler ev ctx (fresh st mk lr)).2)) = 1 ∧
  s3 (CopyZipsFunction.handler ev ctx (fresh st mk lr)).2 = st.
Proof.
  intros Hq Hnone Hwork.
  destruct (decide (RequestType ev = "Delete")) as [Hkind|Hkind].
  - destruct (handler_delete_run ev ctx q st mk lr Hkind Hq) as (-> & -> & -> & ->).
    by rewrite Hnone.
  - destruct Hwork as [?|Hnames]; [done|].
    destruct (handler_storage ev ctx st mk lr) as [Hreq Hs3].
    rewrite Hreq, Hs3, handler_statuses, handler_logged.
    rewrite (transfer_carries ev q _ Hq), (not_delete _ Hkind).
    destruct (names q) as [|o objs]; [done|].
    unfold CopyZipsFunction.copy_objects, fresh. cbn [py_iter].
    rewrite for_each_cons, copy_step_run. unfold copy_result. rewrite Hnone.
    by destruct (st !! source q).
Qed.

Lemma missing_destination_fails_witness :
  carries (sample_event "Create" sample_transfer_nowhere) sample_request_nowhere ∧
  sample_store !! destination sample_request_nowhere = None ∧
  (RequestType (sample_event "Create" sample_transfer_nowhere) = "Delete"
   ∨ names sample_request_nowhere ≠ []) ∧
  statuses (trace (CopyZipsFunction.handler
                     (sample_event "Create" sample_transfer_nowhere) sample_context
                     (fresh sample_store 1000 false)).2)
  = [cfnresponse.FAILED].
Proof.
  assert (H1 : carries (sample_event "Create" sample_transfer_nowhere)
                 sample_request_nowhere)
    by (repeat split; reflexivity).
  assert (H2 : sample_store !! destination sample_request_nowhere = None)
    by reflexivity.
  assert (H3 : RequestType (sample_event "Create" sample_transfer_nowhere) = "Delete"
               ∨ names sample_request_nowhere ≠ [])
    by (right; discriminate).
  do 3 (split; [assumption|]).
  exact (proj1 (missing_destination_fails
                  (sample_event "Create" sample_transfer_nowhere) sample_context
                  sample_request_nowhere sample_store 1000 false H1 H2 H3)).
Defined.

(** ** What a drain touches *)

Lemma elem_of_concat_fmap {A B} (f : A → list B) (l : list A) (y : B) :
  y ∈ concat (f <$> l) → ∃ x, x ∈ l ∧ y ∈ f x.
Proof.
  intros Hy. apply list_elem_of_In, in_concat in Hy as (ys & Hys & Hy).
  apply list_elem_of_In, list_elem_of_fmap in Hys as (x & -> & Hx).
  exists x. split; [exact Hx | by apply list_elem_of_In].
Qed.

Lemma page_requests_shape b page e :
  e ∈ page_requests b page →
  e = ListObjectVersions b ∨ ∃ k v, e = DeleteObject b k (Some v).
Proof.
  unfold page_requests. intros He.
  apply elem_of_cons in He as [->|He]; [by left|]. right.
  apply elem_of_app in He as [He|He];
    apply list_elem_of_fmap in He as ([k v] & -> & _); by exists k, v.
Qed.

Lemma drain_requests_shape b mk bk e :
  e ∈ drain_requests b mk bk →
  e ∈ [BucketLoad (PStr b); GetBucketVersioning b; ListObjectVersions b;
       ListObjectsV2 b]
  ∨ (e = PutBucketVersioning b Suspended ∧ versioning bk = Enabled)
  ∨ ∃ k v, e = DeleteObject b k (Some v).
Proof.
  unfold drain_requests. intros He.
  apply elem_of_app in He as [He|He].
  { left. apply elem_of_cons in He as [->|He]; [by left|].
    apply list_elem_of_singleton in He as ->. right. by left. }
  apply elem_of_app in He as [He|He].
  { destruct (versioning bk); try by apply elem_of_nil in He.
    apply list_elem_of_singleton in He. right. left. by split. }
  apply elem_of_app in He as [He|He].
  - apply elem_of_concat_fmap in He as (page & _ & He).
    apply page_requests_shape in He as [->|He]; [|by right; right].
    left. do 2 right. by left.
  - apply list_elem_of_singleton in He as ->. left. do 3 right. by left.
Qed.

(** X12. Whatever the kind of the event and whether or not the bucket
    exists, the drainer leaves every bucket other than the one named by
    [inputBucketName] as it was, and no request that it sends names another
    bucket: the listing of the buckets that [Bucket.load()] asks for names
    none, and every other request names that bucket. *)
Theorem drain_frame ev ctx st mk lr b :
  names_bucket ev b →
  (∀ b', b' ≠ b →
     s3 (CleanUpBucketonDeleteLambda.lambda_handler ev ctx (fresh st mk lr)).2 !! b'
     = st !! b') ∧
  Forall (λ e, targets e = match e with BucketLoad _ => [] | _ => [b] end)
    (requests (trace (CleanUpBucketonDeleteLambda.lambda_handler ev ctx
                        (fresh st mk lr)).2)).
Proof.
  intros Hname.
  destruct (lambda_handler_storage ev ctx st mk lr) as [-> ->].
  destruct (decide (RequestType ev = "Delete")) as [Hkind|Hkind].
  - destruct (st !! b) as [bk|] eqn:Hbk.
    + rewrite (drain_delete_run ev b st mk lr bk Hkind Hname Hbk). cbn [snd s3 trace].
      split; [intros b' Hb'; by rewrite lookup_insert_ne|].
      apply Forall_forall. intros e He.
      apply drain_requests_shape in He as [He|[[-> _]|(k & v & ->)]]; try done.
      repeat (apply elem_of_cons in He as [->|He]; [done|]).
      by apply elem_of_nil in He.
    + rewrite (drain_names ev b _ Hname), Hkind. simpl.
      unfold CleanUpBucketonDeleteLambda.empty_bucket, try_except,
        s3_resource.Bucket_load, s3_client.get_bucket_versioning, bind, emit, get_s3,
        get_load_raises, the_bucket, with_trace, bucket_found, fresh.
      simpl. rewrite bool_decide_eq_false_2 by (rewrite Hbk; by intros [? ?]).
      destruct lr; simpl; [by repeat constructor|].
      rewrite Hbk. simpl. by repeat constructor.
  - rewrite (drain_names ev b _ Hname), (not_delete _ Hkind). simpl.
    by repeat constructor.
Qed.

Lemma drain_frame_witness :
  names_bucket sample_delete_drain "dst" ∧
  s3 (CleanUpBucketonDeleteLambda.lambda_handler sample_delete_drain sample_context
        (fresh sample_store 1000 true)).2 !! "src"
  = sample_store !! "src".
Proof.
  assert (H1 : names_bucket sample_delete_drain "dst") by reflexivity.
  split; [assumption|].
  apply (proj1 (drain_frame sample_delete_drain sample_context sample_store 1000 true
                  "dst" H1)).
  discriminate.
Defined.

Lemma deletions_page_requests b page :
  deletions (page_requests b page) = delete_version b <$> page_entries page.
Proof.
  unfold page_requests, page_entries, deletions.
  rewrite filter_cons_False by (simpl; discriminate).
  rewrite <- fmap_app. apply filter_all, Forall_forall.
  intros e ([k v] & -> & _)%list_elem_of_fmap. reflexivity.
Qed.

Lemma page_entries_perm page : page_entries page ≡ₚ ident <$> page.
Proof.
  unfold page_entries. rewrite <- fmap_app. apply fmap_Permutation.
  rewrite <- (filter_app_complement (λ r, is_marker r = true) page) at 3.
  apply Permutation_app; [reflexivity|].
  erewrite list_filter_iff; [reflexivity|].
  intros r. simpl. by destruct (is_marker r).
Qed.

Lemma deletions_pages b pages :
  deletions (concat (page_requests b <$> pages))
  ≡ₚ delete_version b <$> (ident <$> concat pages).
Proof.
  induction pages as [|page pages IH]; [reflexivity|].
  cbn [fmap list_fmap concat]. rewrite deletions_app, deletions_page_requests.
  rewrite !fmap_app. apply Permutation_app; [|exact IH].
  apply fmap_Permutation, page_entries_perm.
Qed.

(** X13. A [Delete] for an existing bucket sends exactly one removal
    request for each revision that the bucket holds, version or delete
    marker, and that request names the revision by its key and its version
    id; it sends no other removal request. *)
Theorem drain_removes_each_revision_once ev ctx st mk lr b bk :
  RequestType ev = "Delete" →
  names_bucket ev b →
  st !! b = Some bk →
  deletions (trace (CleanUpBucketonDeleteLambda.lambda_handler ev ctx (fresh st mk lr)).2)
  ≡ₚ (λ r, DeleteObject b (rkey r) (Some (rvid r))) <$> revisions bk.
Proof.
  intros Hkind Hname Hbk.
  rewrite (lambda_handler_delete_run ev ctx b st mk lr bk Hkind Hname Hbk).
  cbn [snd trace]. unfold drain_requests. rewrite !deletions_app.
  assert (Hput : deletions (match versioning bk with
                            | Enabled => [PutBucketVersioning b Suspended]
                            | _ => []
                            end) = []) by by destruct (versioning bk).
  rewrite Hput, deletions_pages, paginate_concat, <- list_fmap_compose.
  change (deletions [BucketLoad (PStr b); GetBucketVersioning b]) with (@nil Effect).
  change (deletions [ListObjectsV2 b]) with (@nil Effect).
  rewrite !app_nil_r. reflexivity.
Qed.

Lemma drain_removes_each_revision_once_witness :
  RequestType sample_delete_drain = "Delete" ∧
  names_bucket sample_delete_drain "dst" ∧
  sample_versioned_store !! "dst" = Some sample_versioned ∧
  deletions (trace (CleanUpBucketonDeleteLambda.lambda_handler sample_delete_drain
                      sample_context (fresh sample_versioned_store 2 true)).2)
  ≡ₚ (λ r, DeleteObject "dst" (rkey r) (Some (rvid r))) <$> revisions sample_versioned.
Proof.
  assert (H1 : RequestType sample_delete_drain = "Delete") by reflexivity.
  assert (H2 : names_bucket sample_delete_drain "dst") by reflexivity.
  assert (H3 : sample_versioned_store !! "dst" = Some sample_versioned) by reflexivity.
  do 3 (split; [assumption|]).
  exact (drain_removes_each_revision_once sample_delete_drain sample_context
           sample_versioned_store 2 true "dst" sample_versioned H1 H2 H3).
Defined.

(** X14. A drain never switches versioning on: the bucket does not end with
    versioning enabled, and when it did not have versioning enabled before,
    the drain sends no request that changes the versioning status and the
    bucket keeps the status it had. *)
Theorem drain_keeps_versioning_off ev ctx st mk lr b bk :
  RequestType ev = "Delete" →
  names_bucket ev b →
  st !! b = Some bk →
  ∃ bk',
    s3 (CleanUpBucketonDeleteLambda.lambda_handler ev ctx (fresh st mk lr)).2 !! b
    = Some bk' ∧
    versioning bk' ≠ Enabled ∧
    (versioning bk ≠ Enabled →
     versioning bk' = versioning bk ∧
     ∀ v, PutBucketVersioning b v
          ∉ trace (CleanUpBucketonDeleteLambda.lambda_handler ev ctx
                     (fresh st mk lr)).2).
Proof.
  intros Hkind Hname Hbk.
  rewrite (lambda_handler_delete_run ev ctx b st mk lr bk Hkind Hname Hbk).
  cbn [snd s3 trace]. exists (drained bk). split; [apply lookup_insert_eq|].
  split; [unfold drained; simpl; by destruct (versioning bk)|].
  intros Hoff. split; [unfold drained; simpl; by destruct (versioning bk)|].
  intros v Hin. apply elem_of_app in Hin as [Hin|Hin].
  - apply drain_requests_shape in Hin as [Hin|[[_ Hon]|(k & v' & ?)]]; try done.
    repeat (apply elem_of_cons in Hin as [?|Hin]; [done|]).
    by apply elem_of_nil in Hin.
  - by apply list_elem_of_singleton in Hin.
Qed.

Lemma drain_keeps_versioning_off_witness :
  RequestType sample_delete_drain = "Delete" ∧
  names_bucket sample_delete_drain "dst" ∧
  sample_store !! "dst" = Some (plain_bucket [object "readme.txt" "R"]) ∧
  ∃ bk',
    s3 (CleanUpBucketonDeleteLambda.lambda_handler sample_delete_drain sample_context
          (fresh sample_store 1000 true)).2 !! "dst"
    = Some bk' ∧
    versioning bk' ≠ Enabled.
Proof.
  assert (H1 : RequestType sample_delete_drain = "Delete") by reflexivity.
  assert (H2 : names_bucket sample_delete_drain "dst") by reflexivity.
  assert (H3 : sample_store !! "dst" = Some (plain_bucket [object "readme.txt" "R"]))
    by reflexivity.
  do 3 (split; [assumption|]).
  destruct (drain_keeps_versioning_off sample_delete_drain sample_context sample_store
              1000 true "dst" _ H1 H2 H3) as (bk' & Hl & Hv & _).
  exists bk'. by split.
Defined.

(** ** Deleting the stack: the drain and the delete-by-name on one bucket

    In the template the two custom resources name the same bucket
    ([inputBucketName] and [DestBucket] are both [Ref: S3Bucket]) and
    neither depends on the other, so that on deletion of the stack their
    two [Delete] events may arrive in either order. *)

Lemma drained_remove_keys ks bk :
  versioning bk = Unversioned →
  drained (remove_keys ks bk) = drained bk ∧
  remove_keys ks (drained bk) = drained bk.
Proof.
  intros Hv.
  destruct (remove_keys_unversioned ks bk Hv) as (Hv1 & Hn1 & _).
  assert (Hvd : versioning (drained bk) = Unversioned)
    by (unfold drained; simpl; by rewrite Hv).
  destruct (remove_keys_unversioned ks (drained bk) Hvd) as (Hv2 & Hn2 & Hr2).
  split.
  - unfold drained. by rewrite Hv1, Hn1, Hv.
  - destruct (remove_keys ks (drained bk)) as [v rs n]. simpl in *.
    subst. unfold drained. by rewrite Hv.
Qed.

Lemma lambda_handler_delete_status ev ctx b st mk lr bk :
  RequestType ev = "Delete" →
  names_bucket ev b →
  st !! b = Some bk →
  statuses (trace (CleanUpBucketonDeleteLambda.lambda_handler ev ctx (fresh st mk lr)).2)
  = ["SUCCESS"].
Proof.
  intros Hkind Hname Hbk.
  rewrite (lambda_handler_delete_run ev ctx b st mk lr bk Hkind Hname Hbk).
  cbn [snd trace]. unfold statuses. rewrite responses_app.
  by rewrite (responses_silent _ (request_silent _ (drain_requests_are_requests _ _ _))).
Qed.

(** X16. For a bucket that never had versioning, the [Delete] of the
    drainer and the [Delete] of the copier, for a list of at least one
    name, on that bucket leave the same store in either order: the bucket
    ends without any revision, and each of the four runs reports
    [SUCCESS]. *)
Theorem drain_and_delete_commute evD evC ctx q st mk lr bk :
  RequestType evD = "Delete" →
  names_bucket evD (destination q) →
  RequestType evC = "Delete" →
  carries evC q →
  names q ≠ [] →
  st !! destination q = Some bk →
  versioning bk = Unversioned →
  let drained_only :=
    (CleanUpBucketonDeleteLambda.lambda_handler evD ctx (fresh st mk lr)).2 in
  let deleted_only := (CopyZipsFunction.handler evC ctx (fresh st mk lr)).2 in
  let drained_first :=
    (CopyZipsFunction.handler evC ctx (fresh (s3 drained_only) mk lr)).2 in
  let deleted_first :=
    (CleanUpBucketonDeleteLambda.lambda_handler evD ctx
       (fresh (s3 deleted_only) mk lr)).2 in
  s3 drained_first = s3 deleted_first ∧
  revisions <$> s3 drained_first !! destination q = Some [] ∧
  statuses (trace drained_only) = ["SUCCESS"] ∧
  statuses (trace drained_first) = [cfnresponse.SUCCESS] ∧
  statuses (trace deleted_only) = [cfnresponse.SUCCESS] ∧
  statuses (trace deleted_first) = ["SUCCESS"].
Proof.
  intros HkD Hname HkC Hq Hnames Hbk Hv. cbv zeta.
  destruct (drained_remove_keys (keys_of q) bk Hv) as [Hdr Hrd].
  rewrite (lambda_handler_delete_status evD ctx _ st mk lr bk HkD Hname Hbk).
  rewrite (lambda_handler_delete_run evD ctx _ st mk lr bk HkD Hname Hbk).
  cbn [snd s3].
  destruct (handler_delete_run evC ctx q (<[destination q := drained bk]> st) mk lr
              HkC Hq) as (-> & -> & _).
  rewrite lookup_insert_eq, insert_insert_eq, Hrd.
  destruct (handler_delete_run evC ctx q st mk lr HkC Hq) as (-> & -> & _).
  rewrite Hbk.
  rewrite (lambda_handler_delete_status evD ctx _ _ mk lr (remove_keys (keys_of q) bk)
             HkD Hname (lookup_insert_eq _ _ _)).
  rewrite (lambda_handler_delete_run evD ctx _ _ mk lr (remove_keys (keys_of q) bk)
             HkD Hname (lookup_insert_eq _ _ _)).
  cbn [snd s3]. rewrite insert_insert_eq, Hdr, lookup_insert_eq.
  destruct (names q); [done|]. by repeat split.
Qed.

Lemma drain_and_delete_commute_witness :
  RequestType sample_delete_drain = "Delete" ∧
  names_bucket sample_delete_drain (destination sample_request) ∧
  RequestType (sample_event "Delete" sample_transfer) = "Delete" ∧
  carries (sample_event "Delete" sample_transfer) sample_request ∧
  names sample_request ≠ [] ∧
  sample_store_copied !! destination sample_request
  = Some (plain_bucket [object "artifacts/b.sh" "B"; object "artifacts/a.sh" "A";
                        object "readme.txt" "R"]) ∧
  versioning (plain_bucket [object "artifacts/b.sh" "B"; object "artifacts/a.sh" "A";
                            object "readme.txt" "R"]) = Unversioned ∧
  s3 (CopyZipsFunction.handler (sample_event "Delete" sample_transfer) sample_context
        (fresh (s3 (CleanUpBucketonDeleteLambda.lambda_handler sample_delete_drain
                      sample_context (fresh sample_store_copied 1000 true)).2)
           1000 true)).2
  = s3 (CleanUpBucketonDeleteLambda.lambda_handler sample_delete_drain sample_context
          (fresh (s3 (CopyZipsFunction.handler (sample_event "Delete" sample_transfer)
                        sample_context (fresh sample_store_copied 1000 true)).2)
             1000 true)).2.
Proof.
  assert (H1 : RequestType sample_delete_drain = "Delete") by reflexivity.
  assert (H2 : names_bucket sample_delete_drain (destination sample_request))
    by reflexivity.
  assert (H3 : RequestType (sample_event "Delete" sample_transfer) = "Delete")
    by reflexivity.
  assert (H4 : carries (sample_event "Delete" sample_transfer) sample_request)
    by (repeat split; reflexivity).
  assert (H0 : names sample_request ≠ []) by discriminate.
  assert (H5 : sample_store_copied !! destination sample_request
               = Some (plain_bucket [object "artifacts/b.sh" "B";
                                     object "artifacts/a.sh" "A";
                                     object "readme.txt" "R"]))
    by reflexivity.
  assert (H6 : versioning (plain_bucket [object "artifacts/b.sh" "B";
                                         object "artifacts/a.sh" "A";
                                         object "readme.txt" "R"]) = Unversioned)
    by reflexivity.
  do 4 (split; [assumption|]). split; [exact H0|]. do 2 (split; [assumption|]).
  exact (proj1 (drain_and_delete_commute sample_delete_drain
                  (sample_event "Delete" sample_transfer) sample_context
                  sample_request sample_store_copied 1000 true _
                  H1 H2 H3 H4 H0 H5 H6)).
Defined.

Lemma remove_keys_markers ks : ∀ bk,
  versioning bk = Suspended →
  Forall (λ r, is_marker r = true) (revisions bk) →
  ks ≠ [] ∨ revisions bk ≠ [] →
  Forall (λ r, is_marker r = true) (revisions (remove_keys ks bk)) ∧
  revisions (remove_keys ks bk) ≠ [].
Proof.
  induction ks as [|k ks IH]; intros bk Hv Hm Hne.
  - destruct Hne as [?|Hne]; [done|]. by split.
  - cbn [remove_keys foldl]. fold (remove_keys ks (remove_key k bk)).
    apply IH.
    + by rewrite remove_key_versioning.
    + unfold remove_key, write_revision. rewrite Hv. cbn [revisions].
      constructor; [reflexivity|].
      apply Forall_forall. intros r [_ Hr]%list_elem_of_filter.
      revert r Hr. by apply Forall_forall.
    + right. unfold remove_key, write_revision. by rewrite Hv.
Qed.

(** X17. For a bucket that has or had versioning, the order matters: when
    the [Delete] of the copier, with at least one name, comes after the
    [Delete] of the drainer, it writes delete markers into the bucket that
    the drain has just emptied, so the bucket ends with revisions in it,
    all of them delete markers, although the run reports [SUCCESS]; in the
    other order the bucket ends without any revision. *)
Theorem delete_after_drain_leaves_markers evD evC ctx q st mk lr bk :
  RequestType evD = "Delete" →
  names_bucket evD (destination q) →
  RequestType evC = "Delete" →
  carries evC q →
  st !! destination q = Some bk →
  versioning bk ≠ Unversioned →
  names q ≠ [] →
  let drained_first :=
    (CopyZipsFunction.handler evC ctx
       (fresh (s3 (CleanUpBucketonDeleteLambda.lambda_handler evD ctx
                     (fresh st mk lr)).2) mk lr)).2 in
  let deleted_first :=
    (CleanUpBucketonDeleteLambda.lambda_handler evD ctx
       (fresh (s3 (CopyZipsFunction.handler evC ctx (fresh st mk lr)).2) mk lr)).2 in
  statuses (trace drained_first) = [cfnresponse.SUCCESS] ∧
  (∃ bk',
     s3 drained_first !! destination q = Some bk' ∧
     Forall (λ r, is_marker r = true) (revisions bk') ∧
     (0 < length (revisions bk'))%nat) ∧
  revisions <$> s3 deleted_first !! destination q = Some [].
Proof.
  intros HkD Hname HkC Hq Hbk Hv Hnames. cbv zeta.
  rewrite (lambda_handler_delete_run evD ctx _ st mk lr bk HkD Hname Hbk).
  cbn [snd s3].
  destruct (handler_delete_run evC ctx q (<[destination q := drained bk]> st) mk lr
              HkC Hq) as (-> & -> & _).
  rewrite lookup_insert_eq. split; [by destruct (names q)|]. split.
  - exists (remove_keys (keys_of q) (drained bk)).
    split; [apply lookup_insert_eq|].
    destruct (remove_keys_markers (keys_of q) (drained bk)) as [Hm Hne].
    + unfold drained. simpl. by destruct (versioning bk).
    + constructor.
    + left. unfold keys_of. by destruct (names q).
    + split; [exact Hm|]. destruct (revisions _); [done | simpl; lia].
  - destruct (handler_delete_run evC ctx q st mk lr HkC Hq) as (-> & _).
    rewrite Hbk.
    rewrite (lambda_handler_delete_run evD ctx _ _ mk lr (remove_keys (keys_of q) bk)
               HkD Hname (lookup_insert_eq _ _ _)).
    cbn [snd s3]. by rewrite lookup_insert_eq.
Qed.

Lemma delete_after_drain_leaves_markers_witness :
  RequestType sample_delete_drain = "Delete" ∧
  names_bucket sample_delete_drain (destination sample_request) ∧
  RequestType (sample_event "Delete" sample_transfer) = "Delete" ∧
  carries (sample_event "Delete" sample_transfer) sample_request ∧
  sample_versioned_store !! destination sample_request = Some sample_versioned ∧
  versioning sample_versioned ≠ Unversioned ∧
  names sample_request ≠ [] ∧
  statuses (trace (CopyZipsFunction.handler (sample_event "Delete" sample_transfer)
                     sample_context
                     (fresh (s3 (CleanUpBucketonDeleteLambda.lambda_handler
                                   sample_delete_drain sample_context
                                   (fresh sample_versioned_store 2 true)).2)
                        2 true)).2)
  = [cfnresponse.SUCCESS].
Proof.
  assert (H1 : RequestType sample_delete_drain = "Delete") by reflexivity.
  assert (H2 : names_bucket sample_delete_drain (destination sample_request))
    by reflexivity.
  assert (H3 : RequestType (sample_event "Delete" sample_transfer) = "Delete")
    by reflexivity.
  assert (H4 : carries (sample_event "Delete" sample_transfer) sample_request)
    by (repeat split; reflexivity).
  assert (H5 : sample_versioned_store !! destination sample_request
               = Some sample_versioned) by reflexivity.
  assert (H6 : versioning sample_versioned ≠ Unversioned) by discriminate.
  assert (H7 : names sample_request ≠ []) by discriminate.
  do 7 (split; [assumption|]).
  exact (proj1 (delete_after_drain_leaves_markers sample_delete_drain
                  (sample_event "Delete" sample_transfer) sample_context
                  sample_request sample_versioned_store 2 true _
                  H1 H2 H3 H4 H5 H6 H7)).
Defined.

(** * The forecasting notebook *)

(** ** The integer encoding of the clients *)

Lemma encoder_fold_absent (l : list string) : ∀ off (m : gmap string nat) c,
  c ∉ l →
  foldl (λ d kv, <[kv.1 := kv.2]> d) m (zip l (seq off (length l))) !! c = m !! c.
Proof.
  induction l as [|x l IH]; intros off m c Hc; [reflexivity|].
  apply not_elem_of_cons in Hc as [Hne Hc]. simpl.
  rewrite IH by exact Hc. by rewrite lookup_insert_ne.
Qed.

Lemma encoder_fold_code (l : list string) : ∀ off (m : gmap string nat) c i,
  foldl (λ d kv, <[kv.1 := kv.2]> d) m (zip l (seq off (length l))) !! c = Some i →
  (m !! c = Some i ∧ c ∉ l) ∨ ((off ≤ i)%nat ∧ l !! (i - off)%nat = Some c).
Proof.
  induction l as [|x l IH]; intros off m c i H.
  - left. split; [exact H | apply not_elem_of_nil].
  - simpl in H. apply IH in H as [[Hm Hc]|[Hle Hl]].
    + destruct (decide (x = c)) as [->|Hne].
      * rewrite lookup_insert_eq in Hm. injection Hm as <-. right.
        split; [lia|]. by rewrite Nat.sub_diag.
      * rewrite lookup_insert_ne in Hm by exact Hne. left.
        split; [exact Hm|]. apply not_elem_of_cons. split; [congruence | exact Hc].
    + right. split; [lia|].
      replace (i - off)%nat with (S (i - S off)) by lia. exact Hl.
Qed.

Lemma encoder_fold_position (l : list string) : ∀ off (m : gmap string nat) c j,
  NoDup l →
  l !! j = Some c →
  foldl (λ d kv, <[kv.1 := kv.2]> d) m (zip l (seq off (length l))) !! c
  = Some (off + j)%nat.
Proof.
  induction l as [|x l IH]; intros off m c j Hnd Hj; [done|].
  apply NoDup_cons in Hnd as [Hx Hnd]. simpl. destruct j as [|j].
  - injection Hj as ->. rewrite encoder_fold_absent by exact Hx.
    rewrite lookup_insert_eq. f_equal. lia.
  - rewrite (IH (S off) _ c j Hnd Hj). f_equal. lia.
Qed.

(** X18. The code that [client_encoder] gives a client is a position of
    that client in the list: it is smaller than the number of clients, and
    no two clients have the same code, whether or not the list repeats a
    client. *)
Theorem client_encoder_code_is_position l c i :
  forecasting_with_deepAR.client_encoder l !! c = Some i →
  l !! i = Some c ∧
  (i < length l)%nat ∧
  ∀ c', forecasting_with_deepAR.client_encoder l !! c' = Some i → c' = c.
Proof.
  unfold forecasting_with_deepAR.client_encoder, forecasting_with_deepAR.dict.
  assert (Hpos : ∀ c0, foldl (λ d kv, <[kv.1 := kv.2]> d) (∅ : gmap string nat)
                         (zip l (seq 0 (length l))) !! c0 = Some i →
                       l !! i = Some c0).
  { intros c0 H. apply encoder_fold_code in H as [[Hm _]|[_ Hl]]; [done|].
    by rewrite Nat.sub_0_r in Hl. }
  intros H. pose proof (Hpos c H) as Hl.
  split; [exact Hl|]. split; [by eapply lookup_lt_Some|].
  intros c' H'. apply Hpos in H'. congruence.
Qed.

Lemma client_encoder_code_is_position_witness :
  forecasting_with_deepAR.client_encoder sample_clients !! "MT_002" = Some 1 ∧
  sample_clients !! 1 = Some "MT_002".
Proof.
  assert (H : forecasting_with_deepAR.client_encoder sample_clients !! "MT_002"
              = Some 1) by reflexivity.
  split; [exact H|].
  exact (proj1 (client_encoder_code_is_position sample_clients "MT_002" 1 H)).
Defined.

(** X19. For a list of distinct clients, as [distinct().collect()] returns,
    [client_encoder] gives the client at position [i] of the list the code
    [i]: every client of the list has a code, and every number from 0 to
    [len(client_list) - 1] is the code of a client. *)
Theorem client_encoder_of_distinct l i c :
  NoDup l →
  l !! i = Some c →
  forecasting_with_deepAR.client_encoder l !! c = Some i.
Proof.
  intros Hnd Hl.
  unfold forecasting_with_deepAR.client_encoder, forecasting_with_deepAR.dict.
  by rewrite (encoder_fold_position l 0 ∅ c i Hnd Hl).
Qed.

Lemma client_encoder_of_distinct_witness :
  NoDup sample_clients ∧
  sample_clients !! 0 = Some "MT_001" ∧
  forecasting_with_deepAR.client_encoder sample_clients !! "MT_001" = Some 0.
Proof.
  assert (H1 : NoDup sample_clients).
  { apply (bool_decide_unpack _). vm_compute. exact I. }
  assert (H2 : sample_clients !! 0 = Some "MT_001") by reflexivity.
  do 2 (split; [assumption|]).
  exact (client_encoder_of_distinct sample_clients 0 "MT_001" H1 H2).
Defined.

(** ** The series of one client *)

Section PrepDeepAR.
Context {V : Type} (str : Z → string).

Abbreviation Reading := (@forecasting_with_deepAR.Reading V).
Abbreviation date := forecasting_with_deepAR.date.
Abbreviation by_date := (λ a b : nat * Reading, (date a.2 ≤ date b.2)%Z).

Lemma insert_by_date_perm (r : nat * Reading) df :
  forecasting_with_deepAR.insert_by_date r df ≡ₚ r :: df.
Proof.
  induction df as [|x df IH]; [reflexivity|]. simpl.
  destruct (bool_decide (date r.2 ≤ date x.2)%Z); [reflexivity|].
  rewrite IH. apply perm_swap.
Qed.

Lemma sort_values_perm (df : list (nat * Reading)) :
  forecasting_with_deepAR.sort_values df ≡ₚ df.
Proof.
  induction df as [|r df IH]; [reflexivity|].
  unfold forecasting_with_deepAR.sort_values in *. simpl.
  by rewrite insert_by_date_perm, IH.
Qed.

Lemma insert_by_date_sorted (r : nat * Reading) df :
  StronglySorted by_date df →
  StronglySorted by_date (forecasting_with_deepAR.insert_by_date r df).
Proof.
  induction 1 as [|x df Hdf IH Hx]; simpl.
  - repeat constructor.
  - destruct (bool_decide (date r.2 ≤ date x.2)%Z) eqn:Hle.
    + apply bool_decide_eq_true in Hle. constructor; [by constructor|].
      constructor; [exact Hle|].
      eapply Forall_impl; [exact Hx|]. intros y Hy. simpl in *. lia.
    + apply bool_decide_eq_false in Hle. constructor; [exact IH|].
      rewrite insert_by_date_perm. constructor; [simpl; lia | exact Hx].
Qed.

Lemma sort_values_sorted (df : list (nat * Reading)) :
  StronglySorted by_date (forecasting_with_deepAR.sort_values df).
Proof.
  induction df as [|r df IH]; [constructor|].
  unfold forecasting_with_deepAR.sort_values in *. simpl.
  by apply insert_by_date_sorted.
Qed.

Lemma sorted_rows (df : list (nat * Reading)) :
  StronglySorted by_date df →
  StronglySorted (λ a b : Reading, (date a ≤ date b)%Z) df.*2.
Proof.
  induction 1 as [|x df Hdf IH Hx]; [constructor|].
  rewrite fmap_cons. constructor; [exact IH|].
  apply Forall_fmap. exact Hx.
Qed.

(** Selection by label finds the row with the label wherever it stands. *)
Lemma loc_0_found (df : list (nat * Reading)) row :
  NoDup df.*1 →
  (0, row) ∈ df →
  forecasting_with_deepAR.loc_0 df = inr row.
Proof.
  unfold forecasting_with_deepAR.loc_0.
  induction df as [|[l r] df IH]; intros Hnd Hin; [by apply elem_of_nil in Hin|].
  rewrite fmap_cons in Hnd. apply NoDup_cons in Hnd as [Hl Hnd].
  cbn [list_find]. destruct (decide ((l, r).1 = 0)) as [Heq|Hne]; simpl in *.
  - subst l. apply elem_of_cons in Hin as [[= ->]|Hin]; [reflexivity|].
    exfalso. apply Hl. by apply (list_elem_of_fmap_2 fst) in Hin.
  - apply elem_of_cons in Hin as [[= <- _]|Hin]; [done|].
    specialize (IH Hnd Hin).
    destruct (list_find (λ r0 : nat * Reading, r0.1 = 0) df)
      as [[i [l' r']]|]; simpl in *; [exact IH | discriminate].
Qed.

Lemma group_frame_rows (rows : list Reading) :
  (forecasting_with_deepAR.group_frame rows).*2 = rows.
Proof.
  unfold forecasting_with_deepAR.group_frame. apply snd_zip.
  by rewrite length_seq.
Qed.

Lemma group_frame_labels (rows : list Reading) :
  (forecasting_with_deepAR.group_frame rows).*1 = seq 0 (length rows).
Proof.
  unfold forecasting_with_deepAR.group_frame. apply fst_zip.
  by rewrite length_seq.
Qed.

Lemma sorted_group_first (r0 : Reading) rest :
  forecasting_with_deepAR.loc_0
    (forecasting_with_deepAR.sort_values
       (forecasting_with_deepAR.group_frame (r0 :: rest)))
  = inr r0.
Proof.
  apply loc_0_found.
  - rewrite sort_values_perm, group_frame_labels. apply NoDup_seq.
  - rewrite sort_values_perm. by left.
Qed.

Lemma prep_deep_ar_group enc (r0 : Reading) rest :
  forecasting_with_deepAR.prep_deep_ar str enc
    (forecasting_with_deepAR.group_frame (r0 :: rest))
  = match enc !! forecasting_with_deepAR.client r0 with
    | Some code =>
        inr {| forecasting_with_deepAR.target :=
                 forecasting_with_deepAR.value
                   <$> (forecasting_with_deepAR.sort_values
                          (forecasting_with_deepAR.group_frame (r0 :: rest))).*2;
               forecasting_with_deepAR.cat := [code];
               forecasting_with_deepAR.start := str (date r0) |}
    | None => inl (KeyError (forecasting_with_deepAR.client r0))
    end.
Proof.
  unfold forecasting_with_deepAR.prep_deep_ar. cbv zeta.
  rewrite sorted_group_first.
  destruct (enc !! forecasting_with_deepAR.client r0); [|reflexivity].
  by rewrite <- list_fmap_compose.
Qed.

(** X20. For the rows of one client, in whatever order they arrive,
    [prep_deep_ar] returns the values of all the rows in ascending order of
    their dates as [target], and the code of the client of the row that
    arrived first as the one entry of [cat]; when the encoder has no code
    for that client, it raises [KeyError] for the client. *)
Theorem prep_deep_ar_series enc (r0 : Reading) rest :
  ∃ sorted : list Reading,
    sorted ≡ₚ r0 :: rest ∧
    StronglySorted (λ a b : Reading, (date a ≤ date b)%Z) sorted ∧
    forecasting_with_deepAR.prep_deep_ar str enc
      (forecasting_with_deepAR.group_frame (r0 :: rest))
    = match enc !! forecasting_with_deepAR.client r0 with
      | Some code =>
          inr {| forecasting_with_deepAR.target :=
                   forecasting_with_deepAR.value <$> sorted;
                 forecasting_with_deepAR.cat := [code];
                 forecasting_with_deepAR.start := str (date r0) |}
      | None => inl (KeyError (forecasting_with_deepAR.client r0))
      end.
Proof.
  exists (forecasting_with_deepAR.sort_values
            (forecasting_with_deepAR.group_frame (r0 :: rest))).*2.
  split; [|split].
  - rewrite sort_values_perm. by rewrite group_frame_rows.
  - apply sorted_rows, sort_values_sorted.
  - apply prep_deep_ar_group.
Qed.

(** X21. [start] is the date of the row that arrived first, because
    [df.loc[0, "date"]] selects the row labelled 0 and sorting keeps the
    labels, while [target] begins with the value of a row with the earliest
    date of the group: [start] is the time of the first value of the
    series only if the row that arrived first is one of the earliest. *)
Theorem prep_deep_ar_start enc (r0 : Reading) rest code :
  enc !! forecasting_with_deepAR.client r0 = Some code →
  ∃ out first,
    forecasting_with_deepAR.prep_deep_ar str enc
      (forecasting_with_deepAR.group_frame (r0 :: rest)) = inr out ∧
    forecasting_with_deepAR.start out = str (date r0) ∧
    head (forecasting_with_deepAR.target out)
    = Some (forecasting_with_deepAR.value first) ∧
    first ∈ r0 :: rest ∧
    ∀ r, r ∈ r0 :: rest → (date first ≤ date r)%Z.
Proof.
  intros Henc. rewrite prep_deep_ar_group, Henc.
  pose proof (sort_values_perm (forecasting_with_deepAR.group_frame (r0 :: rest)))
    as Hperm.
  pose proof (sort_values_sorted (forecasting_with_deepAR.group_frame (r0 :: rest)))
    as Hsorted.
  apply (fmap_Permutation snd) in Hperm. rewrite group_frame_rows in Hperm.
  apply sorted_rows in Hsorted.
  destruct ((forecasting_with_deepAR.sort_values
               (forecasting_with_deepAR.group_frame (r0 :: rest))).*2)
    as [|first sorted] eqn:Hrows.
  { by apply Permutation_nil_cons in Hperm. }
  eexists _, first. split; [reflexivity|].
  cbn [forecasting_with_deepAR.start forecasting_with_deepAR.target].
  split; [reflexivity|]. split; [reflexivity|].
  split; [rewrite <- Hperm; by left|].
  intros r Hr. rewrite <- Hperm in Hr.
  apply StronglySorted_inv in Hsorted as [_ Hfirst].
  apply elem_of_cons in Hr as [->|Hr]; [lia|].
  revert r Hr. by apply Forall_forall.
Qed.

End PrepDeepAR.

Lemma prep_deep_ar_start_witness :
  forecasting_with_deepAR.client_encoder sample_clients
    !! forecasting_with_deepAR.client sample_first_reading = Some 1 ∧
  ∃ out first,
    forecasting_with_deepAR.prep_deep_ar sample_str
      (forecasting_with_deepAR.client_encoder sample_clients)
      (forecasting_with_deepAR.group_frame
         (sample_first_reading :: sample_later_readings)) = inr out ∧
    forecasting_with_deepAR.start out = "2014-01-01 02:00:00" ∧
    head (forecasting_with_deepAR.target out)
    = Some (forecasting_with_deepAR.value first) ∧
    first ∈ sample_first_reading :: sample_later_readings ∧
    ∀ r, r ∈ sample_first_reading :: sample_later_readings →
         (forecasting_with_deepAR.date first ≤ forecasting_with_deepAR.date r)%Z.
Proof.
  assert (H : forecasting_with_deepAR.client_encoder sample_clients
                !! forecasting_with_deepAR.client sample_first_reading = Some 1)
    by reflexivity.
  split; [exact H|].
  exact (prep_deep_ar_start sample_str
           (forecasting_with_deepAR.client_encoder sample_clients)
           sample_first_reading sample_later_readings 1 H).
Defined.

(** The series of the sample begins with the reading of hour 1, and its
    [start] names hour 2. *)
Example sample_series_misaligned :
  forecasting_with_deepAR.prep_deep_ar sample_str
    (forecasting_with_deepAR.client_encoder sample_clients)
    (forecasting_with_deepAR.group_frame (sample_first_reading :: sample_later_readings))
  = inr {| forecasting_with_deepAR.target := [10%Z; 20%Z];
           forecasting_with_deepAR.cat := [1];
           forecasting_with_deepAR.start := "2014-01-01 02:00:00" |}.
Proof. reflexivity. Qed.
